(** * WhatsApp media exporter: a shallow embedding of [exporter.py]

    The export pipeline of [exporter.py] is embedded as executable Rocq
    definitions.  The program talks to a file system, to a device bridge
    (adb) and to a cancellation latch set by another thread; the embedding
    keeps those behind an explicit [World] of oracles that are asked in the
    order the program asks them, and records every question and every
    queue [put] in one chronological timeline.  Python exceptions are an
    explicit outcome, [try]/[except Exception]/[finally] are combinators. *)

From Stdlib Require Import ZArith Lia Ascii.
From stdpp Require Import base decidable option list gmap sets strings pretty.

Local Open Scope string_scope.
Local Open Scope nat_scope.
Local Open Scope list_scope.

(** ** Python values *)

(** Exceptions.  [except Exception] catches the first kind only; the
    second stands for [BaseException]s outside [Exception]
    ([SystemExit], [KeyboardInterrupt], ...). *)
Inductive exc : Type :=
  | Exception (msg : string)
  | BaseException (msg : string).

Inductive result (A : Type) : Type :=
  | Ok (a : A)
  | Raise (e : exc).
Arguments Ok {A} a.
Arguments Raise {A} e.

(** [str(e)] *)
Definition exc_str (e : exc) : string :=
  match e with Exception m => m | BaseException m => m end.

(** A naive [datetime.datetime]; Python orders them field by field. *)
Record datetime : Type := mk_datetime {
  year : Z; month : Z; day : Z;
  hour : Z; minute : Z; second : Z; microsecond : Z
}.

Definition dt_key (d : datetime) : list Z :=
  [year d; month d; day d; hour d; minute d; second d; microsecond d].

Fixpoint lex_leb (a b : list Z) : bool :=
  match a, b with
  | [], _ => true
  | _ :: _, [] => false
  | x :: a', y :: b' =>
      if (x <? y)%Z then true else if (y <? x)%Z then false else lex_leb a' b'
  end.

(** [a <= b] on datetimes *)
Definition dt_leb (a b : datetime) : bool := lex_leb (dt_key a) (dt_key b).
(** [a < b] on datetimes *)
Definition dt_ltb (a b : datetime) : bool := negb (dt_leb b a).

(** [d.replace(hour=23, minute=59, second=59)] *)
Definition replace_end_of_day (d : datetime) : datetime :=
  mk_datetime (year d) (month d) (day d) 23 59 59 (microsecond d).

(** The functions of the Python runtime the exporter calls and that do no
    input or output: [os.path] string functions, [datetime.strptime] with
    [DATE_FMT] and [strftime] with the format of the log line. *)
Class PyRuntime : Type := {
  path_join : string → string → string;
  path_dirname : string → string;
  path_basename : string → string;
  path_relpath : string → string → string;
  path_splitext : string → string * string;
  strptime_date : string → result datetime;
  strftime_log : datetime → string
}.

(** ** Module-level helpers of [exporter.py] *)

Definition DEFAULT_SUBFOLDERS : list string :=
  [ "WhatsApp Images"; "WhatsApp Video"; "WhatsApp Documents";
    "WhatsApp Audio"; "WhatsApp Voice Notes"; "Animated Gifs" ].

(** [str.strip()] on the ASCII range: the characters for which
    [str.isspace] holds are 9-13 and 28-32. *)
Definition py_isspace (c : ascii) : bool :=
  let n := nat_of_ascii c in
  ((9 <=? n) && (n <=? 13)) || ((28 <=? n) && (n <=? 32)).

Fixpoint lstrip (s : string) : string :=
  match s with
  | String c s' => if py_isspace c then lstrip s' else s
  | EmptyString => EmptyString
  end.

Definition strip (s : string) : string :=
  String.rev (lstrip (String.rev (lstrip s))).

Section Helpers.
Context `{PyRuntime}.

(** [parse_yyyy_mm_dd] *)
Definition parse_yyyy_mm_dd (s : string) : result datetime :=
  strptime_date (strip s).

(** The candidate of the [i]-th round of [unique_destination_path]:
    [f"{base}__dup{i}{ext}"]. *)
Definition dup_candidate (base ext : string) (i : nat) : string :=
  base +:+ "__dup" +:+ pretty i +:+ ext.

(** The [while True] loop of [unique_destination_path], against the set
    [fs] of paths for which [os.path.exists] holds.  [fuel] bounds the
    number of rounds; [None] is "no answer within [fuel] rounds". *)
Fixpoint dup_search (fs : gset string) (base ext : string)
    (fuel i : nat) : option string :=
  match fuel with
  | O => None
  | S fuel' =>
      let candidate := dup_candidate base ext i in
      if decide (candidate ∈ fs)
      then dup_search fs base ext fuel' (S i)
      else Some candidate
  end.

Definition unique_destination_path_fuel (fuel : nat) (fs : gset string)
    (dst_path : string) : option string :=
  if decide (dst_path ∈ fs)
  then let '(base, ext) := path_splitext dst_path in
       dup_search fs base ext fuel 1
  else Some dst_path.

(** [unique_destination_path]: the loop run with one round more than
    there are existing paths, which always suffices
    ([unique_destination_path_fuel_total]). *)
Definition unique_destination_path (fs : gset string)
    (dst_path : string) : string :=
  default dst_path (unique_destination_path_fuel (S (size fs)) fs dst_path).

(** The paths the function can answer, numbered: the proposed path is
    number 0, the [i]-th duplicate name is number [i]. *)
Definition nth_candidate (dst_path : string) (i : nat) : string :=
  match i with
  | O => dst_path
  | S _ => dup_candidate (path_splitext dst_path).1 (path_splitext dst_path).2 i
  end.

End Helpers.

(** ** The world outside the program *)

(** Every question the program asks its environment, with the answer it
    got. *)
Inductive Call : Type :=
  | CIsSet (b : bool)
  | CAdbPathExists (remote_path : string) (r : result bool)
  | CAdbCountFiles (remote_dir : string) (r : result Z)
  | CAdbFindFiles (remote_dir : string) (r : result (list string))
  | CAdbStatMtime (remote_path : string) (r : result datetime)
  | CAdbRunPull (remote_path local_path : string) (r : result unit)
  | CExists (path : string) (b : bool)
  | CIsDir (path : string) (b : bool)
  | CMakedirs (path : string) (r : result unit)
  | CWalk (top : string) (r : list (string * list string))
  | CGetMtime (path : string) (r : result datetime)
  | CCopy2 (src dst : string) (r : result unit)
  | CMove (src dst : string) (r : result unit)
  | CUniqueDst (dst_path : string) (r : string).

(** The tuples put on [self._ui_queue]. *)
Inductive UiEvent : Type :=
  | EvLog (msg : string)
  | EvScanned (n : nat)
  | EvMatched (n : nat)
  | EvErrors (n : nat)
  | EvProgressSetup (total : Z)
  | EvProgressTick (delta : nat)
  | EvProgressIndeterminate
  | EvDone.

(** What [_on_start] does to the window itself. *)
Inductive UiAction : Type :=
  | UiShowError (msg : string)
  | UiSetRunning (running : bool)
  | UiProgressReset
  | UiLogClear
  | UiLog (msg : string)
  | UiThreadStart.

Inductive Action : Type :=
  | ACall (c : Call)
  | APut (e : UiEvent)
  | AUi (u : UiAction).

(** The environment of one run.  Each oracle is asked with the number of
    questions asked before (the clock), so that its answers may change
    while the run goes on; nothing relates one answer to another.
    - [cancel_at = Some c]: another thread sets [_cancel_event] after the
      [c]-th question and before the next; [None]: it is never set.
    - [adb_stat_mtime] and [os_getmtime] answer
      [datetime.fromtimestamp] of the time stamp read, or the exception
      that reading or converting raises.
    - [fs_paths] is the set of paths for which [os.path.exists] holds.
    - [os_walk top] is the sequence of [(root, files)] that iterating
      [os.walk(top)] yields ([os.walk] ignores errors of its own). *)
Record World : Type := {
  cancel_at : option nat;
  adb_path_exists : nat → string → string → result bool;
  adb_count_files : nat → string → string → result Z;
  adb_find_files : nat → string → string → result (list string);
  adb_stat_mtime : nat → string → string → result datetime;
  adb_run_pull : nat → string → string → string → result unit;
  fs_paths : nat → gset string;
  os_isdir : nat → string → bool;
  os_makedirs : nat → string → result unit;
  os_walk : nat → string → list (string * list string);
  os_getmtime : nat → string → result datetime;
  shutil_copy2 : nat → string → string → result unit;
  shutil_move : nat → string → string → result unit
}.

(** [os.walk(top)] as the exporter calls it, with the defaults
    [topdown=True], [onerror=None] and [followlinks=False], over a file
    system in which [scandir dir] is what [os.scandir(dir)] gives: the
    names of the subdirectories of [dir] and the names of its other
    entries, or [None] when it raises [OSError].  A directory that cannot
    be listed yields nothing, and nothing is raised: without [onerror]
    the error is dropped.  [depth] bounds the depth of the tree that is
    walked. *)
Fixpoint walk_topdown `{PyRuntime}
    (scandir : string → option (list string * list string))
    (depth : nat) (top : string) : list (string * list string) :=
  match depth with
  | O => []
  | S depth' =>
      match scandir top with
      | None => []
      | Some (dirs, nondirs) =>
          (top, nondirs)
          :: concat ((λ name, walk_topdown scandir depth' (path_join top name))
                     <$> dirs)
      end
  end.

(** [_cancel_event.is_set()] read at clock [t] *)
Definition latch_set (w : World) (t : nat) : bool :=
  match cancel_at w with
  | Some c => bool_decide (c ≤ t)
  | None => false
  end.

(** ** Program state and the monad of the embedding *)

(** The counters of [App], the chronological record of what the program
    did, and the clock. *)
Record AppState : Type := mk_state {
  scanned : nat;
  matched : nat;
  errors : nat;
  timeline : list Action;
  clock : nat
}.

Definition init_state : AppState := mk_state 0 0 0 [] 0.

(** The content of [self._ui_queue] if nobody drains it. *)
Definition ui_queue (s : AppState) : list UiEvent :=
  omap (λ a, match a with APut e => Some e | _ => None end) (timeline s).

(** The questions asked so far. *)
Definition calls (s : AppState) : list Call :=
  omap (λ a, match a with ACall c => Some c | _ => None end) (timeline s).

(** A computation either returns or raises, and leaves a state. *)
Definition M (A : Type) : Type := AppState → result A * AppState.

Definition ret {A} (a : A) : M A := λ s, (Ok a, s).

Definition bind {A B} (m : M A) (k : A → M B) : M B := λ s,
  match m s with
  | (Ok a, s') => k a s'
  | (Raise e, s') => (Raise e, s')
  end.

Definition raise {A} (e : exc) : M A := λ s, (Raise e, s).

Notation "'let*' x := m 'in' k" := (bind m (λ x, k))
  (at level 10, x binder, m at level 100, k at level 200,
   format "'[v' 'let*'  x  :=  m  'in' '/' k ']'").
Notation "m >> k" := (bind m (λ _, k))
  (at level 90, right associativity,
   format "'[v' m  >> '/' k ']'").

(** [try: m  except Exception as e: h e] *)
Definition try_except {A} (m : M A) (h : exc → M A) : M A := λ s,
  match m s with
  | (Raise (Exception msg), s') => h (Exception msg) s'
  | other => other
  end.

(** [try: m  finally: f] *)
Definition try_finally {A} (m : M A) (f : M unit) : M A := λ s,
  let '(r, s') := m s in
  match f s' with
  | (Ok _, s'') => (r, s'')
  | (Raise e, s'') => (Raise e, s'')
  end.

Definition exec {A} (m : M A) (s : AppState) : AppState := (m s).2.
Definition outcome {A} (m : M A) (s : AppState) : result A := (m s).1.

Definition record (a : Action) (s : AppState) : AppState :=
  mk_state (scanned s) (matched s) (errors s) (timeline s ++ [a]) (clock s).

Definition tick (s : AppState) : AppState :=
  mk_state (scanned s) (matched s) (errors s) (timeline s) (S (clock s)).

(** [self._ui_queue.put(e)] *)
Definition put (e : UiEvent) : M unit := λ s, (Ok tt, record (APut e) s).

Definition ui (u : UiAction) : M unit := λ s, (Ok tt, record (AUi u) s).

(** Ask an oracle that always answers. *)
Definition ask {A} (q : nat → A) (c : A → Call) : M A := λ s,
  let a := q (clock s) in (Ok a, tick (record (ACall (c a)) s)).

(** Ask an oracle that may raise. *)
Definition ask_r {A} (q : nat → result A) (c : result A → Call) : M A := λ s,
  let r := q (clock s) in (r, tick (record (ACall (c r)) s)).

Definition get_scanned : M nat := λ s, (Ok (scanned s), s).
Definition get_matched : M nat := λ s, (Ok (matched s), s).
Definition get_errors : M nat := λ s, (Ok (errors s), s).

(** [self._scanned += 1] and its siblings *)
Definition incr_scanned : M unit := λ s,
  (Ok tt, mk_state (S (scanned s)) (matched s) (errors s) (timeline s) (clock s)).
Definition incr_matched : M unit := λ s,
  (Ok tt, mk_state (scanned s) (S (matched s)) (errors s) (timeline s) (clock s)).
Definition incr_errors : M unit := λ s,
  (Ok tt, mk_state (scanned s) (matched s) (S (errors s)) (timeline s) (clock s)).
(** [self._scanned = 0; self._matched = 0; self._errors = 0] *)
Definition reset_counters : M unit := λ s,
  (Ok tt, mk_state 0 0 0 (timeline s) (clock s)).

(** ** String helpers of the Python code *)

(** [s[n:]] *)
Fixpoint str_drop (n : nat) (s : string) : string :=
  match n, s with
  | S n', String _ s' => str_drop n' s'
  | _, _ => s
  end.

Fixpoint lstrip_char (c : ascii) (s : string) : string :=
  match s with
  | String c' s' => if Ascii.eqb c c' then lstrip_char c s' else s
  | EmptyString => EmptyString
  end.

(** [s.rstrip(c)] *)
Definition rstrip_char (c : ascii) (s : string) : string :=
  String.rev (lstrip_char c (String.rev s)).

(** [s.startswith(p)] *)
Definition startswith (p s : string) : bool := String.prefix p s.

(** [sep.join(l)] *)
Definition str_join (sep : string) (l : list string) : string :=
  String.concat sep l.

(** ** A POSIX instance of the runtime functions

    [posixpath] and [datetime] as a run on Linux or macOS has them.
    [posix_relpath] covers the paths the exporter passes (a file below
    the start directory); the theorems do not depend on the instance. *)
Module Posix.

Definition slash : ascii := "/"%char.
Definition dot : ascii := "."%char.

(** [(p[:i], p[i:])] for [i = p.rfind(c) + 1] *)
Fixpoint rsplit_after (c : ascii) (s : string) : string * string :=
  match s with
  | EmptyString => (EmptyString, EmptyString)
  | String a s' =>
      let '(h, t) := rsplit_after c s' in
      match h with
      | EmptyString =>
          if Ascii.eqb a c then (String a EmptyString, t)
          else (EmptyString, String a t)
      | _ => (String a h, t)
      end
  end.

Definition basename (p : string) : string := (rsplit_after slash p).2.

Definition dirname (p : string) : string :=
  let head := (rsplit_after slash p).1 in
  if String.eqb (lstrip_char slash head) EmptyString then head
  else rstrip_char slash head.

Definition join (a b : string) : string :=
  if startswith "/" b then b
  else if String.eqb a EmptyString || String.eqb (rsplit_after slash a).2 EmptyString
       then a +:+ b
       else a +:+ "/" +:+ b.

(** [posixpath.splitext]: the extension starts at the last dot of the
    last component, unless only dots precede it there. *)
Definition splitext (p : string) : string * string :=
  let '(dir, name) := rsplit_after slash p in
  let '(stem_dot, ext) := rsplit_after dot name in
  match stem_dot with
  | EmptyString => (p, EmptyString)
  | _ =>
      let stem := String.rev (str_drop 1 (String.rev stem_dot)) in
      if String.eqb (lstrip_char dot stem) EmptyString then (p, EmptyString)
      else (dir +:+ stem, "." +:+ ext)
  end.

Definition relpath (path start : string) : string :=
  let prefix := rstrip_char slash start +:+ "/" in
  if startswith prefix path then str_drop (String.length prefix) path
  else if String.eqb path start then "." else path.

Definition digit_val (c : ascii) : option Z :=
  let n := nat_of_ascii c in
  if (48 <=? n) && (n <=? 57) then Some (Z.of_nat (n - 48)) else None.

Fixpoint digits_val (acc : Z) (s : string) : option Z :=
  match s with
  | EmptyString => Some acc
  | String c s' =>
      match digit_val c with
      | Some d => digits_val (acc * 10 + d)%Z s'
      | None => None
      end
  end.

Definition number (s : string) : option Z :=
  match s with EmptyString => None | _ => digits_val 0 s end.

(** Split at the first occurrence of [c]. *)
Fixpoint split_first (c : ascii) (s : string) : option (string * string) :=
  match s with
  | EmptyString => None
  | String a s' =>
      if Ascii.eqb a c then Some (EmptyString, s')
      else match split_first c s' with
           | Some (h, t) => Some (String a h, t)
           | None => None
           end
  end.

Definition is_leap (y : Z) : bool :=
  ((y mod 4 =? 0) && negb (y mod 100 =? 0) || (y mod 400 =? 0))%Z.

Definition days_in_month (y m : Z) : Z :=
  if (m =? 2)%Z then (if is_leap y then 29 else 28)%Z
  else if ((m =? 4) || (m =? 6) || (m =? 9) || (m =? 11))%Z then 30%Z
  else 31%Z.

(** [datetime.strptime(s, "%Y-%m-%d")]: a four-digit year, a month and
    a day of one or two digits, a date that exists. *)
Definition strptime (s : string) : result datetime :=
  let bad := Raise (Exception
    ("time data '" +:+ s +:+ "' does not match format '%Y-%m-%d'")) in
  match split_first "-"%char s with
  | Some (ys, rest) =>
      match split_first "-"%char rest with
      | Some (ms, ds) =>
          match number ys, number ms, number ds with
          | Some y, Some m, Some d =>
              if (String.length ys =? 4) && (String.length ms <=? 2)
                 && (String.length ds <=? 2)
                 && (1 <=? y)%Z && (1 <=? m)%Z && (m <=? 12)%Z
                 && (1 <=? d)%Z && (d <=? days_in_month y m)%Z
              then Ok (mk_datetime y m d 0 0 0 0)
              else bad
          | _, _, _ => bad
          end
      | None => bad
      end
  | None => bad
  end.

Definition pad (width : nat) (n : Z) : string :=
  let s := pretty n in
  String.concat EmptyString (replicate (width - String.length s) "0") +:+ s.

(** [d.strftime('%Y-%m-%d %H:%M:%S')] *)
Definition strftime (d : datetime) : string :=
  pad 4 (year d) +:+ "-" +:+ pad 2 (month d) +:+ "-" +:+ pad 2 (day d)
  +:+ " " +:+ pad 2 (hour d) +:+ ":" +:+ pad 2 (minute d) +:+ ":"
  +:+ pad 2 (second d).

Definition runtime : PyRuntime := {|
  path_join := join;
  path_dirname := dirname;
  path_basename := basename;
  path_relpath := relpath;
  path_splitext := splitext;
  strptime_date := strptime;
  strftime_log := strftime
|}.

End Posix.

(** ** The exporter *)

Section Exporter.
Context `{PyRuntime} (w : World).

(** [self._cancel_event.is_set()] *)
Definition is_set : M bool := ask (latch_set w) CIsSet.

(** [os.path.exists(path)] *)
Definition os_path_exists (path : string) : M bool :=
  ask (λ t, bool_decide (path ∈ fs_paths w t)) (CExists path).

(** [os.path.isdir(path)] *)
Definition os_path_isdir (path : string) : M bool :=
  ask (λ t, os_isdir w t path) (CIsDir path).

(** [ensure_dir] *)
Definition ensure_dir (path : string) : M unit :=
  let* e := os_path_exists path in
  if negb e then ask_r (λ t, os_makedirs w t path) (CMakedirs path)
  else ret tt.

(** [unique_destination_path], run against the paths that exist when
    it is called. *)
Definition unique_destination_path_io (dst_path : string) : M string :=
  ask (λ t, unique_destination_path (fs_paths w t) dst_path)
      (CUniqueDst dst_path).

(** [detect_media_root] *)
Definition detect_media_root (source_root : string) : M string :=
  let candidate := path_join source_root "Media" in
  let* d := os_path_isdir candidate in
  if d then ret candidate else ret source_root.

(** *** ADB helpers *)

Definition adb_path_exists_io (device remote_path : string) : M bool :=
  ask_r (λ t, adb_path_exists w t device remote_path)
        (CAdbPathExists remote_path).

Definition adb_count_files_io (device remote_dir : string) : M Z :=
  ask_r (λ t, adb_count_files w t device remote_dir)
        (CAdbCountFiles remote_dir).

Definition adb_find_files_io (device remote_dir : string)
    : M (list string) :=
  ask_r (λ t, adb_find_files w t device remote_dir)
        (CAdbFindFiles remote_dir).

(** [datetime.fromtimestamp(adb_stat_mtime_epoch(adb, device, p))] *)
Definition adb_stat_mtime_io (device remote_path : string) : M datetime :=
  ask_r (λ t, adb_stat_mtime w t device remote_path)
        (CAdbStatMtime remote_path).

(** [adb_pull] *)
Definition adb_pull (device remote_path local_path : string) : M unit :=
  ensure_dir (path_dirname local_path) >>
  ask_r (λ t, adb_run_pull w t device remote_path local_path)
        (CAdbRunPull remote_path local_path).

Definition media_root_candidates : list string :=
  [ "/storage/emulated/0/Android/media/com.whatsapp/WhatsApp/Media";
    "/storage/emulated/0/WhatsApp/Media" ].

Fixpoint find_roots_loop (device : string) (candidates roots : list string)
    : M (list string) :=
  match candidates with
  | [] => ret roots
  | c :: rest =>
      let* e := adb_path_exists_io device c in
      find_roots_loop device rest (if e then roots ++ [c] else roots)
  end.

(** [adb_find_whatsapp_media_roots] *)
Definition adb_find_whatsapp_media_roots (device : string)
    : M (list string) :=
  find_roots_loop device media_root_candidates [].

(** *** Shared pieces of the two workers *)

(** [start_dt <= mtime <= end_dt] *)
Definition in_range (start_dt end_dt mtime : datetime) : bool :=
  dt_leb start_dt mtime && dt_leb mtime end_dt.

(** [self._errors += 1; put(("errors", self._errors)); put(("log", msg))] *)
Definition count_error (msg : string) : M unit :=
  incr_errors >>
  let* n := get_errors in
  put (EvErrors n) >>
  put (EvLog msg).

(** [self._scanned += 1] and the two [put]s after it *)
Definition count_scanned : M unit :=
  incr_scanned >>
  let* n := get_scanned in
  put (EvScanned n) >>
  put (EvProgressTick 1).

(** [self._matched += 1] and the two [put]s after it *)
Definition count_matched (rel_path : string) (mtime : datetime) : M unit :=
  incr_matched >>
  let* n := get_matched in
  put (EvMatched n) >>
  put (EvLog ("Exported: " +:+ rel_path +:+ "  (modified: "
              +:+ strftime_log mtime +:+ ")")).

(** The [if total > 0: ... else: ...] after the estimate *)
Definition announce_total (total : Z) : M unit :=
  if (0 <? total)%Z then
    put (EvProgressSetup total) >>
    put (EvLog ("Estimated total files to scan: " +:+ pretty total))
  else
    put EvProgressIndeterminate >>
    put (EvLog "Scanning... (progress is indeterminate)").

(** *** [_worker_adb] *)

(** The estimate: the two nested [for] loops over roots and
    subfolders. *)
Fixpoint estimate_adb_subs (device root : string) (subfolders : list string)
    (total : Z) : M Z :=
  match subfolders with
  | [] => ret total
  | sub :: rest =>
      let remote_dir := root +:+ "/" +:+ sub in
      let* e := adb_path_exists_io device remote_dir in
      if e then
        let* n := adb_count_files_io device remote_dir in
        estimate_adb_subs device root rest (total + n)%Z
      else estimate_adb_subs device root rest total
  end.

Fixpoint estimate_adb (device : string) (roots subfolders : list string)
    (total : Z) : M Z :=
  match roots with
  | [] => ret total
  | root :: rest =>
      let* total' := estimate_adb_subs device root subfolders total in
      estimate_adb device rest subfolders total'
  end.

(** The body of [for remote_file in remote_files] after the
    cancellation check. *)
Definition process_file_adb (device dest_root : string)
    (start_dt end_dt : datetime) (root remote_file : string) : M unit :=
  count_scanned >>
  let* stat :=
    try_except
      (let* mtime := adb_stat_mtime_io device remote_file in
       ret (Some mtime))
      (λ e, count_error ("ERROR reading time: " +:+ remote_file
                         +:+ " (" +:+ exc_str e +:+ ")") >>
            ret None) in
  match stat with
  | None => ret tt
  | Some mtime =>
      if negb (in_range start_dt end_dt mtime) then ret tt
      else
        let prefix := rstrip_char "/" root +:+ "/" in
        let rel_path :=
          if startswith prefix remote_file
          then str_drop (String.length prefix) remote_file
          else path_basename remote_file in
        let* dst_file :=
          unique_destination_path_io (path_join dest_root rel_path) in
        try_except
          (adb_pull device remote_file dst_file >>
           count_matched rel_path mtime)
          (λ e, count_error ("ERROR exporting: " +:+ rel_path
                             +:+ " (" +:+ exc_str e +:+ ")"))
  end.

Fixpoint files_loop_adb (device dest_root : string)
    (start_dt end_dt : datetime) (root : string)
    (remote_files : list string) : M unit :=
  match remote_files with
  | [] => ret tt
  | remote_file :: rest =>
      let* cancelled := is_set in
      if cancelled then ret tt
      else
        process_file_adb device dest_root start_dt end_dt root remote_file >>
        files_loop_adb device dest_root start_dt end_dt root rest
  end.

Fixpoint subs_loop_adb (device dest_root : string)
    (start_dt end_dt : datetime) (root : string)
    (subfolders : list string) : M unit :=
  match subfolders with
  | [] => ret tt
  | sub :: rest =>
      let* cancelled := is_set in
      if cancelled then ret tt
      else
        let remote_dir := root +:+ "/" +:+ sub in
        let* e := adb_path_exists_io device remote_dir in
        if negb e then
          put (EvLog ("Skipping missing folder: " +:+ remote_dir)) >>
          subs_loop_adb device dest_root start_dt end_dt root rest
        else
          let* listing :=
            try_except
              (let* remote_files := adb_find_files_io device remote_dir in
               ret (Some remote_files))
              (λ e, count_error ("ERROR listing files in: " +:+ remote_dir
                                 +:+ " (" +:+ exc_str e +:+ ")") >>
                    ret None) in
          match listing with
          | None => subs_loop_adb device dest_root start_dt end_dt root rest
          | Some remote_files =>
              files_loop_adb device dest_root start_dt end_dt root
                remote_files >>
              subs_loop_adb device dest_root start_dt end_dt root rest
          end
  end.

Fixpoint roots_loop_adb (device dest_root : string)
    (start_dt end_dt : datetime) (subfolders : list string)
    (roots : list string) : M unit :=
  match roots with
  | [] => ret tt
  | root :: rest =>
      let* cancelled := is_set in
      if cancelled then ret tt
      else
        subs_loop_adb device dest_root start_dt end_dt root subfolders >>
        roots_loop_adb device dest_root start_dt end_dt subfolders rest
  end.

Definition _worker_adb (device dest_root : string)
    (start_dt end_dt : datetime) (subfolders : list string) : M unit :=
  try_except
    (let* roots := adb_find_whatsapp_media_roots device in
     match roots with
     | [] =>
         put (EvLog "ERROR: Could not find WhatsApp Media folder on the device.") >>
         put (EvLog "Tried: /storage/emulated/0/Android/media/com.whatsapp/WhatsApp/Media and /storage/emulated/0/WhatsApp/Media")
     | _ =>
         put (EvLog ("Using WhatsApp Media root(s): "
                     +:+ str_join ", " roots)) >>
         let* total := estimate_adb device roots subfolders 0%Z in
         announce_total total >>
         roots_loop_adb device dest_root start_dt end_dt subfolders roots >>
         let* cancelled := is_set in
         put (EvLog (if cancelled then "Cancelled by user."
                     else "Export complete (ADB mode)."))
     end)
    (λ e, count_error ("FATAL (ADB mode): " +:+ exc_str e)).

(** *** [_worker_local] *)

(** The inner [for _, _, files in os.walk(p)] of the estimate; the
    flag of the answer says whether the [return total] was taken. *)
Fixpoint estimate_walk (walked : list (string * list string)) (total : Z)
    : Z * bool :=
  match walked with
  | [] => (total, false)
  | (_, files) :: rest =>
      let total' := (total + Z.of_nat (length files))%Z in
      if (500000 <? total')%Z then (total', true)
      else estimate_walk rest total'
  end.

Fixpoint estimate_local_subs (media_root : string)
    (subfolders : list string) (total : Z) : M Z :=
  match subfolders with
  | [] => ret total
  | sub :: rest =>
      let p := path_join media_root sub in
      let* d := os_path_isdir p in
      if negb d then estimate_local_subs media_root rest total
      else
        let* walked := ask (λ t, os_walk w t p) (CWalk p) in
        let '(total', returned) := estimate_walk walked total in
        if returned then ret total'
        else estimate_local_subs media_root rest total'
  end.

Definition _estimate_total_files_local (media_root : string)
    (subfolders : list string) : M Z :=
  estimate_local_subs media_root subfolders 0%Z.

(** The body of [for name in files] after the cancellation check. *)
Definition process_file_local (media_root dest_root : string)
    (start_dt end_dt : datetime) (mode : string) (root name : string)
    : M unit :=
  let src_file := path_join root name in
  count_scanned >>
  let* stat :=
    try_except
      (let* mtime := ask_r (λ t, os_getmtime w t src_file)
                           (CGetMtime src_file) in
       ret (Some mtime))
      (λ e, count_error ("ERROR reading time: " +:+ src_file
                         +:+ " (" +:+ exc_str e +:+ ")") >>
            ret None) in
  match stat with
  | None => ret tt
  | Some mtime =>
      if negb (in_range start_dt end_dt mtime) then ret tt
      else
        let rel_path := path_relpath src_file media_root in
        let* dst_file :=
          unique_destination_path_io (path_join dest_root rel_path) in
        try_except
          (ensure_dir (path_dirname dst_file) >>
           (if String.eqb mode "copy"
            then ask_r (λ t, shutil_copy2 w t src_file dst_file)
                       (CCopy2 src_file dst_file)
            else ask_r (λ t, shutil_move w t src_file dst_file)
                       (CMove src_file dst_file)) >>
           count_matched rel_path mtime)
          (λ e, count_error ("ERROR exporting: " +:+ rel_path
                             +:+ " (" +:+ exc_str e +:+ ")"))
  end.

Fixpoint files_loop_local (media_root dest_root : string)
    (start_dt end_dt : datetime) (mode : string) (root : string)
    (files : list string) : M unit :=
  match files with
  | [] => ret tt
  | name :: rest =>
      let* cancelled := is_set in
      if cancelled then ret tt
      else
        process_file_local media_root dest_root start_dt end_dt mode
          root name >>
        files_loop_local media_root dest_root start_dt end_dt mode root rest
  end.

Fixpoint walk_loop_local (media_root dest_root : string)
    (start_dt end_dt : datetime) (mode : string)
    (walked : list (string * list string)) : M unit :=
  match walked with
  | [] => ret tt
  | (root, files) :: rest =>
      let* cancelled := is_set in
      if cancelled then ret tt
      else
        files_loop_local media_root dest_root start_dt end_dt mode
          root files >>
        walk_loop_local media_root dest_root start_dt end_dt mode rest
  end.

Fixpoint subs_loop_local (media_root dest_root : string)
    (start_dt end_dt : datetime) (mode : string)
    (subfolders : list string) : M unit :=
  match subfolders with
  | [] => ret tt
  | sub :: rest =>
      let* cancelled := is_set in
      if cancelled then ret tt
      else
        let src_dir := path_join media_root sub in
        let* d := os_path_isdir src_dir in
        if negb d then
          put (EvLog ("Skipping missing folder: " +:+ src_dir)) >>
          subs_loop_local media_root dest_root start_dt end_dt mode rest
        else
          let* walked := ask (λ t, os_walk w t src_dir) (CWalk src_dir) in
          walk_loop_local media_root dest_root start_dt end_dt mode walked >>
          subs_loop_local media_root dest_root start_dt end_dt mode rest
  end.

Definition _worker_local (source_root dest_root : string)
    (start_dt end_dt : datetime) (subfolders : list string)
    (mode : string) : M unit :=
  try_except
    (let* media_root := detect_media_root source_root in
     put (EvLog ("Media root detected: " +:+ media_root)) >>
     let* total := _estimate_total_files_local media_root subfolders in
     announce_total total >>
     subs_loop_local media_root dest_root start_dt end_dt mode subfolders >>
     let* cancelled := is_set in
     put (EvLog (if cancelled then "Cancelled by user."
                 else "Export complete (Local Folder mode).")))
    (λ e, count_error ("FATAL (Local mode): " +:+ exc_str e)).

(** *** [_worker_dispatch] *)

Definition _worker_dispatch (src_mode src_value dest_root : string)
    (start_dt end_dt : datetime) (subfolders : list string)
    (mode : string) : M unit :=
  try_finally
    (if String.eqb src_mode "adb"
     then _worker_adb src_value dest_root start_dt end_dt subfolders
     else _worker_local src_value dest_root start_dt end_dt subfolders mode)
    (put EvDone).

(** *** Validation and start *)

(** The [tk] variables read by [_validate_inputs]; [subfolder_vars] in
    the order of the dict. *)
Record Form : Type := mk_form {
  var_source_mode : string;
  var_device : string;
  var_source_folder : string;
  var_dest : string;
  var_start : string;
  var_end : string;
  var_mode : string;
  subfolder_vars : list (string * bool)
}.

(** The tuple [_validate_inputs] returns. *)
Record Request : Type := mk_request {
  req_src_mode : string;
  req_src_value : string;
  req_dst : string;
  req_start_dt : datetime;
  req_end_dt : datetime;
  req_subfolders : list string;
  req_mode : string
}.

Definition lift {A} (r : result A) : M A := λ s, (r, s).

Definition value_error {A} (msg : string) : M A := raise (Exception msg).

Definition _validate_inputs (f : Form) : M Request :=
  let src_mode := strip (var_source_mode f) in
  if negb (String.eqb src_mode "adb" || String.eqb src_mode "local")
  then value_error "Invalid Source Type selected."
  else
  let dst := strip (var_dest f) in
  if String.eqb dst EmptyString
  then value_error "Please select a Destination folder."
  else
  ensure_dir dst >>
  let* start_dt := lift (parse_yyyy_mm_dd (var_start f)) in
  let* end_day := lift (parse_yyyy_mm_dd (var_end f)) in
  let end_dt := replace_end_of_day end_day in
  if dt_ltb end_dt start_dt
  then value_error "End date must be the same as or later than start date."
  else
  let chosen_subs := (filter (λ nv, nv.2 = true) (subfolder_vars f)).*1 in
  match chosen_subs with
  | [] => value_error "Please select at least one subfolder to scan."
  | _ =>
  let mode := var_mode f in
  if negb (String.eqb mode "copy" || String.eqb mode "move")
  then value_error "Invalid export mode selected."
  else
  if String.eqb src_mode "adb" then
    let device := strip (var_device f) in
    if String.eqb device EmptyString
    then value_error "Please select a connected device (Refresh Devices if needed)."
    else if String.eqb mode "move"
    then value_error "Move mode is not supported in USB Device (ADB) mode. Use Copy."
    else ret (mk_request "adb" device dst start_dt end_dt chosen_subs "copy")
  else
    let src_folder := strip (var_source_folder f) in
    let* ok := (if String.eqb src_folder EmptyString then ret false
                else os_path_isdir src_folder) in
    if negb ok
    then value_error "Please select a valid Source folder (copied from phone)."
    else ret (mk_request "local" src_folder dst start_dt end_dt
                         chosen_subs mode)
  end.

(** [_on_start].  The worker thread is the only code that runs until it
    ends, so its body follows [Thread.start()] here;
    [_cancel_event.clear()] is the latch of [w] starting unset. *)
Definition _on_start (f : Form) : M unit :=
  let* validated :=
    try_except
      (let* req := _validate_inputs f in ret (Some req))
      (λ e, ui (UiShowError (exc_str e)) >> ret None) in
  match validated with
  | None => ret tt
  | Some req =>
      reset_counters >>
      ui (UiSetRunning true) >>
      ui UiProgressReset >>
      ui UiLogClear >>
      ui (UiLog "Starting export...") >>
      ui UiThreadStart >>
      _worker_dispatch (req_src_mode req) (req_src_value req) (req_dst req)
        (req_start_dt req) (req_end_dt req) (req_subfolders req)
        (req_mode req)
  end.

End Exporter.

(** ** Python string methods of the device helpers

    As [strip] above, on the ASCII range. *)

Definition dquote : ascii := "034"%char.
Definition backslash : ascii := "092"%char.

(** [s.replace('"', '\\"')] *)
Fixpoint replace_dquote (s : string) : string :=
  match s with
  | EmptyString => EmptyString
  | String c s' =>
      if Ascii.eqb c dquote
      then String backslash (String dquote (replace_dquote s'))
      else String c (replace_dquote s')
  end.

(** The characters at which [str.splitlines] ends a line: 10 to 13 and
    28 to 30. *)
Definition py_islinebreak (c : ascii) : bool :=
  let n := nat_of_ascii c in
  ((10 <=? n) && (n <=? 13)) || ((28 <=? n) && (n <=? 30)).

(** [s.splitlines()]: a carriage return followed by a line feed ends one
    line; no empty line is reported after the last line break. *)
Fixpoint splitlines (s : string) : list string :=
  match s with
  | EmptyString => []
  | String c s' =>
      if py_islinebreak c then
        EmptyString ::
          match s' with
          | String c' s'' =>
              if Ascii.eqb c "013" && Ascii.eqb c' "010" then splitlines s''
              else splitlines s'
          | EmptyString => []
          end
      else
        match splitlines s' with
        | line :: lines => String c line :: lines
        | [] => [String c EmptyString]
        end
  end.

(** [s.split()]: the maximal runs of characters that are not white
    space; [cur] is the run being read. *)
Fixpoint split_runs (cur s : string) : list string :=
  match s with
  | EmptyString => match cur with EmptyString => [] | _ => [cur] end
  | String c s' =>
      if py_isspace c then
        match cur with
        | EmptyString => split_runs EmptyString s'
        | _ => cur :: split_runs EmptyString s'
        end
      else split_runs (cur +:+ String c EmptyString) s'
  end.

Definition split (s : string) : list string := split_runs EmptyString s.

(** [s.endswith(suffix)] *)
Definition endswith (suffix s : string) : bool :=
  String.prefix (String.rev suffix) (String.rev s).

(** The digits of an [int] literal: decimal digits, single underscores
    between them.  [prev] tells whether the character before was a
    digit. *)
Fixpoint int_digits (prev : bool) (acc : Z) (s : string) : option Z :=
  match s with
  | EmptyString => if prev then Some acc else None
  | String c s' =>
      match Posix.digit_val c with
      | Some d => int_digits true (acc * 10 + d)%Z s'
      | None =>
          if Ascii.eqb c "_" && prev then int_digits false acc s' else None
      end
  end.

(** The number of decimal digits in [s]. *)
Fixpoint count_digits (s : string) : nat :=
  match s with
  | EmptyString => 0
  | String c s' =>
      match Posix.digit_val c with
      | Some _ => S (count_digits s')
      | None => count_digits s'
      end
  end.

(** Does [int] refuse a literal of [digits] digits?  [max_str_digits]
    is [sys.get_int_max_str_digits()]: 4300 unless the environment of
    the interpreter sets another limit, 0 for no limit (as in the
    versions of CPython that have none).  The limit is looked at for
    literals of more than 640 digits only, and the sign and the
    underscores do not count. *)
Definition exceeds_max_str_digits (max_str_digits digits : nat) : bool :=
  (640 <? digits) && (0 <? max_str_digits) && (max_str_digits <? digits).

(** The literal after the sign. *)
Definition int_magnitude (max_str_digits : nat) (s : string) : option Z :=
  match int_digits false 0 s with
  | Some n =>
      if exceeds_max_str_digits max_str_digits (count_digits s) then None
      else Some n
  | None => None
  end.

(** [int(s)], [None] for [ValueError]: white space around, a sign, the
    digits, not more of them than the interpreter converts. *)
Definition py_int (max_str_digits : nat) (s : string) : option Z :=
  match strip s with
  | String "+" s' => int_magnitude max_str_digits s'
  | String "-" s' => Z.opp <$> int_magnitude max_str_digits s'
  | s' => int_magnitude max_str_digits s'
  end.

(** ** The device bridge: the helpers that run [adb] *)

(** What [adb_run] reads of a [subprocess.CompletedProcess]. *)
Record CompletedProcess : Type := mk_process {
  returncode : Z;
  stdout : string;
  stderr : string
}.

Module Adb.

Section Bridge.

(** [subprocess.run(args, capture_output=True, text=True)]: the process
    as it completed, or the exception of a program that cannot be run. *)
Variable subprocess_run : list string → result CompletedProcess.

(** [sys.get_int_max_str_digits()] of the interpreter that runs the
    exporter, which does not set it. *)
Variable int_max_str_digits : nat.

(** [str(e)] of the [ValueError] that [int(s)] raises. *)
Variable int_value_error : string → string.

Definition adb_path_guess : string := "adb".

Definition adb_run (args : list string) : result CompletedProcess :=
  subprocess_run args.

(** [p.stderr.strip() or default] *)
Definition stderr_or (p : CompletedProcess) (default : string) : string :=
  match strip (stderr p) with
  | EmptyString => default
  | msg => msg
  end.

(** The body of the loop of [adb_list_devices]: the device of a line, if
    the line names one. *)
Definition device_of_line (line : string) : option string :=
  match split (strip line) with
  | serial :: state :: _ =>
      if String.eqb state "device" then Some serial else None
  | _ => None
  end.

Fixpoint devices_loop (lines devices : list string) : list string :=
  match lines with
  | [] => devices
  | line :: rest =>
      devices_loop rest
        match device_of_line line with
        | Some serial => devices ++ [serial]
        | None => devices
        end
  end.

(** [adb_list_devices] *)
Definition adb_list_devices (adb : string) : result (list string) :=
  match adb_run [adb; "devices"] with
  | Raise e => Raise e
  | Ok p =>
      if negb (returncode p =? 0)%Z
      then Raise (Exception (stderr_or p "adb devices failed"))
      else
        let lines := splitlines (strip (stdout p)) in
        Ok (devices_loop (drop 1 lines) [])
  end.

(** [adb_shell] *)
Definition adb_shell (adb device cmd : string) : result string :=
  match adb_run [adb; "-s"; device; "shell"; cmd] with
  | Raise e => Raise e
  | Ok p =>
      if negb (returncode p =? 0)%Z
      then Raise (Exception (stderr_or p ("adb shell failed: " +:+ cmd)))
      else Ok (stdout p)
  end.

(** [adb_shell_sh] *)
Definition adb_shell_sh (adb device sh_cmd : string) : result string :=
  adb_shell adb device ("sh -c '" +:+ sh_cmd +:+ "'").

(** [f'"{s}"'] *)
Definition quoted (s : string) : string :=
  String dquote (s +:+ String dquote EmptyString).

(** [adb_stat_mtime_epoch] *)
Definition adb_stat_mtime_epoch (adb device remote_path : string)
    : result Z :=
  let rp := replace_dquote remote_path in
  match adb_shell_sh adb device
          ("toybox stat -c %Y " +:+ quoted rp
           +:+ " 2>/dev/null || stat -c %Y " +:+ quoted rp) with
  | Raise e => Raise e
  | Ok out =>
      let out := strip out in
      match py_int int_max_str_digits out with
      | Some n => Ok n
      | None => Raise (Exception (int_value_error out))
      end
  end.

(** [adb_path_exists] *)
Definition adb_path_exists (adb device remote_path : string) : result bool :=
  let rp := replace_dquote remote_path in
  match adb_shell_sh adb device
          ("ls " +:+ quoted rp +:+ " >/dev/null 2>&1; echo $?") with
  | Raise e => Raise e
  | Ok out => Ok (endswith "0" (strip out))
  end.

(** [adb_find_files] *)
Definition adb_find_files (adb device remote_dir : string)
    : result (list string) :=
  let rd := replace_dquote remote_dir in
  match adb_shell_sh adb device
          ("find " +:+ quoted rd +:+ " -type f 2>/dev/null") with
  | Raise e => Raise e
  | Ok out =>
      Ok (strip <$> filter (λ line, strip line ≠ EmptyString) (splitlines out))
  end.

(** [adb_count_files] *)
Definition adb_count_files (adb device remote_dir : string) : result Z :=
  let rd := replace_dquote remote_dir in
  match adb_shell_sh adb device
          ("find " +:+ quoted rd +:+ " -type f 2>/dev/null | wc -l") with
  | Raise e => Raise e
  | Ok out =>
      match py_int int_max_str_digits (strip out) with
      | Some n => Ok n
      | None => Ok 0%Z
      end
  end.

End Bridge.

End Adb.

(** ** The form

    [_apply_source_mode_visibility], as far as the variables of the form
    go; the function also shows the frame of the chosen source type and
    hides the other one. *)
Definition _apply_source_mode_visibility (f : Form) : Form :=
  let mode := var_source_mode f in
  if String.eqb mode "adb" then
    if String.eqb (var_mode f) "move"
    then mk_form (var_source_mode f) (var_device f) (var_source_folder f)
           (var_dest f) (var_start f) (var_end f) "copy" (subfolder_vars f)
    else f
  else f.

(** ** The window

    The widgets that [_refresh_devices], [_handle_ui_event] and [_log]
    write. *)
Module Window.

Inductive ProgressMode : Type := Determinate | Indeterminate.

(** [self.progress] as the handlers write it: [running] is set between
    [start()] and [stop()]; the steps that the bar takes by itself while
    it runs are not written by the program. *)
Record Progressbar : Type := mk_progress {
  mode : ProgressMode;
  value : Z;
  maximum : Z;
  running : bool
}.

(** The state of a button: [true] for ["normal"], [false] for
    ["disabled"]. *)
Record Widgets : Type := mk_widgets {
  var_device : string;
  cmb_device : list string;
  lbl_device_status : string;
  btn_start : bool;
  btn_cancel : bool;
  progress : Progressbar;
  lbl_scanned : string;
  lbl_matched : string;
  lbl_errors : string;
  txt_log : string;
  logged : nat
}.

(** The window when [_build_ui] is about to write its first log line. *)
Definition built : Widgets := {|
  var_device := EmptyString;
  cmb_device := [];
  lbl_device_status := "Status: Not checked yet";
  btn_start := true;
  btn_cancel := false;
  progress := mk_progress Determinate 0 100 false;
  lbl_scanned := "Scanned: 0";
  lbl_matched := "Exported: 0";
  lbl_errors := "Errors: 0";
  txt_log := EmptyString;
  logged := 0
|}.

Definition set_var_device (v : string) (win : Widgets) : Widgets :=
  mk_widgets v (cmb_device win) (lbl_device_status win) (btn_start win)
    (btn_cancel win) (progress win) (lbl_scanned win) (lbl_matched win)
    (lbl_errors win) (txt_log win) (logged win).

Definition set_cmb_device (v : list string) (win : Widgets) : Widgets :=
  mk_widgets (var_device win) v (lbl_device_status win) (btn_start win)
    (btn_cancel win) (progress win) (lbl_scanned win) (lbl_matched win)
    (lbl_errors win) (txt_log win) (logged win).

Definition set_lbl_device_status (v : string) (win : Widgets) : Widgets :=
  mk_widgets (var_device win) (cmb_device win) v (btn_start win)
    (btn_cancel win) (progress win) (lbl_scanned win) (lbl_matched win)
    (lbl_errors win) (txt_log win) (logged win).

Definition set_progress (v : Progressbar) (win : Widgets) : Widgets :=
  mk_widgets (var_device win) (cmb_device win) (lbl_device_status win)
    (btn_start win) (btn_cancel win) v (lbl_scanned win) (lbl_matched win)
    (lbl_errors win) (txt_log win) (logged win).

Definition set_lbl_scanned (v : string) (win : Widgets) : Widgets :=
  mk_widgets (var_device win) (cmb_device win) (lbl_device_status win)
    (btn_start win) (btn_cancel win) (progress win) v (lbl_matched win)
    (lbl_errors win) (txt_log win) (logged win).

Definition set_lbl_matched (v : string) (win : Widgets) : Widgets :=
  mk_widgets (var_device win) (cmb_device win) (lbl_device_status win)
    (btn_start win) (btn_cancel win) (progress win) (lbl_scanned win) v
    (lbl_errors win) (txt_log win) (logged win).

Definition set_lbl_errors (v : string) (win : Widgets) : Widgets :=
  mk_widgets (var_device win) (cmb_device win) (lbl_device_status win)
    (btn_start win) (btn_cancel win) (progress win) (lbl_scanned win)
    (lbl_matched win) v (txt_log win) (logged win).

Section Handlers.

(** [time.strftime("%H:%M:%S")] as the [n]-th call of [_log] reads it,
    counting from 0. *)
Variable strftime_now : nat → string.

(** [self.adb] and the process runner behind [adb_run]. *)
Variable adb : string.
Variable subprocess_run : list string → result CompletedProcess.

(** [_log] *)
Definition _log (msg : string) (win : Widgets) : Widgets :=
  let ts := strftime_now (logged win) in
  mk_widgets (var_device win) (cmb_device win) (lbl_device_status win)
    (btn_start win) (btn_cancel win) (progress win) (lbl_scanned win)
    (lbl_matched win) (lbl_errors win)
    (txt_log win +:+ "[" +:+ ts +:+ "] " +:+ msg +:+ String "010" EmptyString)
    (S (logged win)).

(** [_set_running_ui] *)
Definition _set_running_ui (is_running : bool) (win : Widgets) : Widgets :=
  mk_widgets (var_device win) (cmb_device win) (lbl_device_status win)
    (negb is_running) is_running (progress win) (lbl_scanned win)
    (lbl_matched win) (lbl_errors win) (txt_log win) (logged win).

(** [_refresh_devices]; an exception outside [Exception] leaves the
    function as it came. *)
Definition _refresh_devices (win : Widgets) : result unit * Widgets :=
  match Adb.adb_list_devices subprocess_run adb with
  | Ok devices =>
      let win := set_cmb_device devices win in
      match devices with
      | first :: _ =>
          let win :=
            if bool_decide (var_device win ∈ devices) then win
            else set_var_device first win in
          let win :=
            set_lbl_device_status
              ("Status: " +:+ pretty (length devices)
               +:+ " device(s) detected.") win in
          (Ok tt, _log ("Detected devices: " +:+ str_join ", " devices) win)
      | [] =>
          let win := set_var_device EmptyString win in
          let win :=
            set_lbl_device_status
              "Status: No devices detected. Check USB debugging and authorization."
              win in
          (Ok tt,
           _log "No devices detected. Open CMD and test: adb devices" win)
      end
  | Raise (Exception msg) =>
      let win := set_var_device EmptyString win in
      let win := set_cmb_device [] win in
      let win := set_lbl_device_status ("Status: ADB error: " +:+ msg) win in
      (Ok tt, _log ("ADB error: " +:+ msg) win)
  | Raise (BaseException msg) => (Raise (BaseException msg), win)
  end.

(** [_handle_ui_event], for the events the workers put; [app] holds the
    counters of [App] at the time the event is handled. *)
Definition _handle_ui_event (app : AppState) (item : UiEvent)
    (win : Widgets) : Widgets :=
  match item with
  | EvLog payload => _log payload win
  | EvScanned payload =>
      set_lbl_scanned ("Scanned: " +:+ pretty payload) win
  | EvMatched payload =>
      set_lbl_matched ("Exported: " +:+ pretty payload) win
  | EvErrors payload =>
      set_lbl_errors ("Errors: " +:+ pretty payload) win
  | EvProgressSetup total =>
      set_progress
        (mk_progress Determinate 0 (Z.max total 1) (running (progress win)))
        win
  | EvProgressTick payload =>
      match mode (progress win) with
      | Determinate =>
          set_progress
            (mk_progress Determinate
               (Z.min (value (progress win) + Z.of_nat payload)
                      (maximum (progress win)))
               (maximum (progress win)) (running (progress win)))
            win
      | Indeterminate => win
      end
  | EvProgressIndeterminate =>
      set_progress
        (mk_progress Indeterminate (value (progress win))
           (maximum (progress win)) true)
        win
  | EvDone =>
      let win :=
        match mode (progress win) with
        | Indeterminate =>
            set_progress (mk_progress Determinate 0 100 false) win
        | Determinate => win
        end in
      let win := _set_running_ui false win in
      _log ("Finished. Scanned=" +:+ pretty (scanned app)
            +:+ ", Exported=" +:+ pretty (matched app)
            +:+ ", Errors=" +:+ pretty (errors app) +:+ ".") win
  end.

(** The loop of [_process_ui_queue] over the items that are in the
    queue. *)
Fixpoint _process_ui_queue (app : AppState) (items : list UiEvent)
    (win : Widgets) : Widgets :=
  match items with
  | [] => win
  | item :: rest => _process_ui_queue app rest (_handle_ui_event app item win)
  end.

End Handlers.

End Window.

(** ** What is observed of a run *)

(** The values carried by the [("scanned", n)] events of a queue, in the
    order of emission, and the same for the other two counters. *)
Definition scanned_values (q : list UiEvent) : list nat :=
  omap (λ e, match e with EvScanned n => Some n | _ => None end) q.
Definition matched_values (q : list UiEvent) : list nat :=
  omap (λ e, match e with EvMatched n => Some n | _ => None end) q.
Definition errors_values (q : list UiEvent) : list nat :=
  omap (λ e, match e with EvErrors n => Some n | _ => None end) q.

(** No value is lower than one before it. *)
Definition non_decreasing (l : list nat) : Prop :=
  ∀ i j x y, i ≤ j → l !! i = Some x → l !! j = Some y → x ≤ y.

(** Is the action one of the three transfer calls ([adb pull],
    [shutil.copy2], [shutil.move])? *)
Definition is_transfer_call (a : Action) : bool :=
  match a with
  | ACall (CAdbRunPull _ _ _) | ACall (CCopy2 _ _ _) | ACall (CMove _ _ _) =>
      true
  | _ => false
  end.

(** The number of actions of a timeline for which [p] holds. *)
Fixpoint count (p : Action → bool) (tl : list Action) : nat :=
  match tl with
  | [] => 0
  | a :: tl' => (if p a then 1 else 0) + count p tl'
  end.

Definition transfer_calls (tl : list Action) : nat := count is_transfer_call tl.

Definition is_put (a : Action) : bool :=
  match a with APut _ => true | _ => false end.

(** The actions of one transfer attempt whose transfer call is [T] and
    whose destination lies in [dir]: [ensure_dir(dir)], then the transfer
    call, which is not reached when creating [dir] raises. *)
Inductive transfer_attempt (dir : string) (T : result unit → Call)
    : list Action → Prop :=
  | attempt_dir_exists (r : result unit) :
      transfer_attempt dir T [ACall (CExists dir true); ACall (T r)]
  | attempt_dir_created (r : result unit) :
      transfer_attempt dir T
        [ACall (CExists dir false); ACall (CMakedirs dir (Ok tt)); ACall (T r)]
  | attempt_dir_failed (e : exc) :
      transfer_attempt dir T
        [ACall (CExists dir false); ACall (CMakedirs dir (Raise e))].

(** The exception a call was answered with, if it was. *)
Definition call_raised (c : Call) : option exc :=
  let of_result {A} (r : result A) :=
    match r with Raise e => Some e | Ok _ => None end in
  match c with
  | CAdbPathExists _ r => of_result r
  | CAdbCountFiles _ r => of_result r
  | CAdbFindFiles _ r => of_result r
  | CAdbStatMtime _ r => of_result r
  | CAdbRunPull _ _ r => of_result r
  | CMakedirs _ r => of_result r
  | CGetMtime _ r => of_result r
  | CCopy2 _ _ r => of_result r
  | CMove _ _ r => of_result r
  | CIsSet _ | CExists _ _ | CIsDir _ _ | CWalk _ _ | CUniqueDst _ _ => None
  end.

(** Did the action fail with an [Exception]? *)
Definition is_failure (a : Action) : bool :=
  match a with
  | ACall c => match call_raised c with
               | Some (Exception _) => true
               | _ => false
               end
  | _ => false
  end.

(** The number of calls of a timeline that raised an [Exception]. *)
Definition failures (tl : list Action) : nat := count is_failure tl.


(** *** The cancellation protocol

    Where a run is, as far as its timeline tells:
    - [Estimating]: before the announcement of the total;
    - [Armed]: the last action was a check of the latch that read unset;
    - [Probed]: a subfolder was probed right after such a check;
    - [InFile]: a file has been counted as scanned and no check of the
      latch came since;
    - [Stopped]: a check read the latch set;
    - [Idle]: scanning, and none of the above. *)
Inductive Phase : Type :=
  Estimating | Idle | Armed | Probed | InFile | Stopped.

Global Instance Phase_eq_dec : EqDecision Phase.
Proof. solve_decision. Defined.

(** The actions the protocol allows in each phase, and the phase they
    lead to.  A file is started only in [Armed]; a subfolder is probed
    only in [Armed] and listed only in [Probed]; the calls that process a
    file, the transfer among them, happen only in [InFile], which a check
    of the latch ends; in [Stopped] only further checks that read set
    and the closing log line and [Done] are allowed. *)
Definition protocol_step (q : Phase) (a : Action) : option Phase :=
  match a with
  | ACall (CIsSet true) =>
      match q with Estimating | Probed => None | _ => Some Stopped end
  | ACall (CIsSet false) =>
      match q with Estimating | Probed | Stopped => None | _ => Some Armed end
  | APut (EvScanned _) =>
      match q with Armed => Some InFile | _ => None end
  | ACall (CAdbRunPull _ _ _) | ACall (CCopy2 _ _ _) | ACall (CMove _ _ _)
  | ACall (CAdbStatMtime _ _) | ACall (CGetMtime _ _)
  | ACall (CUniqueDst _ _) | ACall (CExists _ _) | ACall (CMakedirs _ _)
  | APut (EvProgressTick _) | APut (EvMatched _) =>
      match q with InFile => Some InFile | _ => None end
  | ACall (CAdbPathExists _ _) | ACall (CIsDir _ _) =>
      match q with
      | Estimating => Some Estimating
      | Armed => Some Probed
      | _ => None
      end
  | ACall (CAdbCountFiles _ _) =>
      match q with Estimating => Some Estimating | _ => None end
  | ACall (CAdbFindFiles _ _) =>
      match q with Probed => Some Idle | _ => None end
  | ACall (CWalk _ _) =>
      match q with
      | Estimating => Some Estimating
      | Probed => Some Idle
      | _ => None
      end
  | APut (EvProgressSetup _) | APut EvProgressIndeterminate =>
      match q with Estimating => Some Idle | _ => None end
  | APut (EvErrors _) =>
      match q with
      | Armed | Stopped => None
      | Probed => Some Idle
      | _ => Some q
      end
  | APut (EvLog _) | APut EvDone =>
      match q with Armed | Probed => Some Idle | _ => Some q end
  | AUi _ => match q with Estimating => Some q | _ => None end
  end.

(** The phase a timeline ends in, [None] if it broke the protocol. *)
Definition phase_of (tl : list Action) : option Phase :=
  foldl (λ oq a, q ← oq; protocol_step q a) (Some Estimating) tl.

Definition follows_protocol (tl : list Action) : Prop :=
  is_Some (phase_of tl).

Definition is_poll (c : Call) : bool :=
  match c with CIsSet _ => true | _ => false end.

Definition is_call (a : Action) : bool :=
  match a with ACall _ => true | _ => false end.

(** The clock after a timeline: the number of its calls. *)
Definition clock_after (tl : list Action) : nat := count is_call tl.

(** Every check of the latch recorded in the timeline read the latch of
    [w] at the time of the check. *)
Definition checks_truthful (w : World) (tl : list Action) : Prop :=
  ∀ pre b post, tl = pre ++ ACall (CIsSet b) :: post →
    b = latch_set w (clock_after pre).

(** The actions that processing one file consists of, after the file
    has been counted as scanned. *)
Definition file_action (a : Action) : bool :=
  match a with
  | ACall (CAdbStatMtime _ _) | ACall (CGetMtime _ _)
  | ACall (CUniqueDst _ _) | ACall (CExists _ _) | ACall (CMakedirs _ _)
  | ACall (CAdbRunPull _ _ _) | ACall (CCopy2 _ _ _) | ACall (CMove _ _ _)
  | APut (EvErrors _) | APut (EvMatched _) | APut (EvLog _) => true
  | _ => false
  end.

(** ** Assertions used in the proofs *)

(** [m] keeps [I], however it ends. *)
Definition preserves {A} (I : AppState → Prop) (m : M A) : Prop :=
  ∀ s, I s → I (exec m s).

(** From a state with [P], [m] ends with an outcome and a state related
    by [Q]. *)
Definition hoare {A} (P : AppState → Prop) (m : M A)
    (Q : result A → AppState → Prop) : Prop :=
  ∀ s, P s → Q (outcome m s) (exec m s).

(** What processing one file does, whatever the world answers. *)
Definition file_summary (s : AppState) (r : result unit) (s' : AppState)
    : Prop :=
  ∃ delta,
    timeline s' = timeline s ++ APut (EvScanned (S (scanned s)))
                    :: APut (EvProgressTick 1) :: delta ∧
    Forall (λ a, file_action a = true) delta ∧
    scanned s' = S (scanned s) ∧
    clock s' = clock s + clock_after delta ∧
    errors s' = errors s + failures delta ∧
    failures delta ≤ 1 ∧
    matched s ≤ matched s' ≤ S (matched s) ∧
    (failures delta = 1 →
       r = Ok tt ∧ matched s' = matched s ∧
       ∃ pre msg, delta = pre ++ [APut (EvErrors (S (errors s)));
                                  APut (EvLog msg)]) ∧
    (r = Ok tt ∨ ∃ msg, r = Raise (BaseException msg)).

(** The events of each counter emitted so far are 1, 2, ..., up to the
    counter. *)
Definition counters_inv (s : AppState) : Prop :=
  scanned_values (ui_queue s) = seq 1 (scanned s) ∧
  matched_values (ui_queue s) = seq 1 (matched s) ∧
  errors_values (ui_queue s) = seq 1 (errors s).

(** Since [s0], the program did the actions [delta], none of which is
    the [put] of [Done]. *)
Definition no_done_since (s0 s : AppState) : Prop :=
  ∃ delta, timeline s = timeline s0 ++ delta ∧ APut EvDone ∉ delta.

(** What a failure while processing one file leaves behind. *)
Definition failure_recorded (s : AppState) (r : result unit) (s' : AppState)
    : Prop :=
  ∃ delta,
    timeline s' = timeline s ++ delta ∧
    errors s' = errors s + failures delta ∧
    failures delta ≤ 1 ∧
    (failures delta = 1 →
       (∃ pre msg, delta = pre ++ [APut (EvErrors (S (errors s)));
                                   APut (EvLog msg)]) ∧
       matched s' = matched s ∧
       r = Ok tt).

(** The number of files that [adb_find_files] enumerates in [remote_dir]
    on a device on which [present] tells what exists and [listing] what
    listing a directory gives: none if the directory is missing, none if
    listing it fails. *)
Definition files_in_remote_dir (present : string → bool)
    (listing : string → result (list string)) (remote_dir : string) : nat :=
  if present remote_dir then
    match listing remote_dir with
    | Ok remote_files => length remote_files
    | Raise _ => 0
    end
  else 0.

(** The files of the selected subfolders that exist, over the media
    roots that exist on the device. *)
Definition files_on_device (present : string → bool)
    (listing : string → result (list string)) (subfolders : list string)
    : nat :=
  sum_list
    ((λ root,
        sum_list
          ((λ sub, files_in_remote_dir present listing (root +:+ "/" +:+ sub))
           <$> subfolders))
     <$> filter (λ c, present c = true) media_root_candidates).

(** The number of files that [os.walk] enumerates below [src_dir] in a
    file system in which [isdir] tells the directories and [tree] what
    walking one yields: none if [src_dir] is not a directory. *)
Definition files_in_dir (isdir : string → bool)
    (tree : string → list (string * list string)) (src_dir : string) : nat :=
  if isdir src_dir then sum_list ((λ rf, length rf.2) <$> tree src_dir)
  else 0.

(** The files of the selected subfolders that exist below the media root
    of [source_root]. *)
Definition files_in_folder `{PyRuntime} (isdir : string → bool)
    (tree : string → list (string * list string)) (source_root : string)
    (subfolders : list string) : nat :=
  let candidate := path_join source_root "Media" in
  let media_root := if isdir candidate then candidate else source_root in
  sum_list
    ((λ sub, files_in_dir isdir tree (path_join media_root sub))
     <$> subfolders).

(** While the run goes on, the device answers every probe as [present]
    says and every listing as [listing] says, and every count of the
    estimate returns. *)
Definition device_answers (w : World) (device : string)
    (present : string → bool) (listing : string → result (list string))
    : Prop :=
  (∀ t p, adb_path_exists w t device p = Ok (present p)) ∧
  (∀ t p, ∃ n, adb_count_files w t device p = Ok n) ∧
  (∀ t p, adb_find_files w t device p = listing p).

(** While the run goes on, the file system answers [os.path.isdir] as
    [isdir] says and [os.walk] as [tree] says. *)
Definition folder_answers (w : World) (isdir : string → bool)
    (tree : string → list (string * list string)) : Prop :=
  (∀ t p, os_isdir w t p = isdir p) ∧ (∀ t p, os_walk w t p = tree p).

(** The outcome is not an exception that escapes [except Exception]. *)
Definition survived {A} (r : result A) : Prop :=
  match r with Raise (BaseException _) => False | _ => True end.

(** [m] returns and adds [k] to the scanned counter, unless an
    exception outside [Exception] ends it. *)
Definition scans {A} (m : M A) (k : nat) : Prop :=
  ∀ n, hoare (λ s, scanned s = n) m
         (λ r s, survived r → (∃ a, r = Ok a) ∧ scanned s = n + k).

Definition at_phase (q : Phase) (s : AppState) : Prop :=
  phase_of (timeline s) = Some q.

(** The latch reads set at the clock of [s]. *)
Definition latched (w : World) (s : AppState) : Prop :=
  latch_set w (clock s) = true.

(** Between two items of the scan: the phase is one from which a check
    of the latch may follow, and if a check read the latch set, the latch
    is set. *)
Definition scanning (w : World) (s : AppState) : Prop :=
  at_phase Idle s ∨ at_phase InFile s ∨ at_phase Armed s ∨
  (at_phase Stopped s ∧ latched w s).

(** Where an exception can leave the scan. *)
Definition interrupted (s : AppState) : Prop :=
  at_phase Probed s ∨ at_phase Idle s ∨ at_phase InFile s.

(** How a part of the scan ends: between two items, or interrupted by
    an exception. *)
Definition scan_post {A} (w : World) (r : result A) (s : AppState) : Prop :=
  match r with Ok _ => scanning w s | Raise _ => interrupted s end.

(** The clock of the state is the number of calls of its timeline, and
    the checks of the latch in it are truthful. *)
Definition truthful (w : World) (s : AppState) : Prop :=
  clock s = clock_after (timeline s) ∧ checks_truthful w (timeline s).

(** The actions that may follow a check that read the latch set. *)
Definition after_stop (a : Action) : Prop :=
  a = ACall (CIsSet true) ∨ (∃ msg, a = APut (EvLog msg)) ∨ a = APut EvDone.

(** Where a worker can be when it ends or when an exception reaches its
  [except] clause. *)
Definition leaves_scan (s : AppState) : Prop :=
at_phase Estimating s ∨ interrupted s.

(** How the body of a worker ends: within the protocol, or with an
  exception where the [except] clause may take over. *)
Definition worker_post {A} (r : result A) (s : AppState) : Prop :=
match r with
| Ok _ => follows_protocol (timeline s)
| Raise _ => leaves_scan s
end.

(** From a state in which the latch is set, each loop of the scan does
  one check and nothing else. *)
Definition stops_at_once (loop : M unit) (s : AppState) : Prop :=
loop s = (Ok tt, tick (record (ACall (CIsSet true)) s)).

(** What [_on_start] may do when it refuses a request: the two calls of
    [ensure_dir] and the error box. *)
Definition refusal_action (a : Action) : bool :=
  match a with
  | ACall (CExists _ _) | ACall (CMakedirs _ _) | AUi (UiShowError _) => true
  | _ => false
  end.





(** No character of [s] is white space. *)
Fixpoint no_space (s : string) : bool :=
  match s with
  | EmptyString => true
  | String c s' => negb (py_isspace c) && no_space s'
  end.

(** [s] has no white space at either end. *)
Definition stripped (s : string) : Prop :=
  lstrip s = s ∧ lstrip (String.rev s) = String.rev s.


(** The text of a counter label after the values [l] were reported for
    it, when it showed [before]. *)
Definition label_after (prefix : string) (l : list nat) (before : string)
    : string :=
  match last l with
  | Some n => prefix +:+ pretty n
  | None => before
  end.

(** The line that [_log] writes for the end of a run. *)
Definition summary_line (ts : string) (s : AppState) : string :=
  "[" +:+ ts +:+ "] " +:+
  ("Finished. Scanned=" +:+ pretty (scanned s)
   +:+ ", Exported=" +:+ pretty (matched s)
   +:+ ", Errors=" +:+ pretty (errors s) +:+ ".")
  +:+ String "010" EmptyString.

(** The time of day of [d] is 00:00:00, as [strptime] with [DATE_FMT]
    gives it. *)
Definition midnight (d : datetime) : Prop :=
  hour d = 0%Z ∧ minute d = 0%Z ∧ second d = 0%Z ∧ microsecond d = 0%Z.

Definition same_day (a b : datetime) : Prop :=
  year a = year b ∧ month a = month b ∧ day a = day b.

(** The fields of [d] that hold the time of day are those of a
    [datetime]. *)
Definition time_of_day_valid (d : datetime) : Prop :=
  (0 ≤ hour d ≤ 23)%Z ∧ (0 ≤ minute d ≤ 59)%Z ∧ (0 ≤ second d ≤ 59)%Z ∧
  (0 ≤ microsecond d ≤ 999999)%Z.

(** What [_validate_inputs] may do: look at the destination, create it,
    look at the source folder; and the error box of [_on_start]. *)
Definition validation_action (a : Action) : bool :=
  match a with
  | ACall (CExists _ _) | ACall (CMakedirs _ _) | ACall (CIsDir _ _)
  | AUi (UiShowError _) => true
  | _ => false
  end.

(** The form with the white space around its text fields removed. *)
Definition strip_fields (f : Form) : Form :=
  mk_form (strip (var_source_mode f)) (strip (var_device f))
    (strip (var_source_folder f)) (strip (var_dest f)) (strip (var_start f))
    (strip (var_end f)) (var_mode f) (subfolder_vars f).

(** Since [s0] only actions of validation happened; the counters and
    the queue are as in [s0]. *)
Definition validating (s0 s : AppState) : Prop :=
  (∃ delta, timeline s = timeline s0 ++ delta ∧
            Forall (λ a, validation_action a = true) delta) ∧
  scanned s = scanned s0 ∧ matched s = matched s0 ∧ errors s = errors s0 ∧
  ui_queue s = ui_queue s0.

(** A transfer call that returned. *)
Definition is_completed_transfer (a : Action) : bool :=
  match a with
  | ACall (CAdbRunPull _ _ (Ok _)) | ACall (CCopy2 _ _ (Ok _))
  | ACall (CMove _ _ (Ok _)) => true
  | _ => false
  end.

Definition completed_transfers (tl : list Action) : nat :=
  count is_completed_transfer tl.

(** The local path a transfer call writes. *)
Definition transfer_target (a : Action) : option string :=
  match a with
  | ACall (CAdbRunPull _ dst _) | ACall (CCopy2 _ dst _)
  | ACall (CMove _ dst _) => Some dst
  | _ => None
  end.

(** The calls the workers make outside the processing of a file. *)
Definition outer_call (c : Call) : bool :=
  match c with
  | CIsSet _ | CAdbPathExists _ _ | CAdbCountFiles _ _ | CAdbFindFiles _ _
  | CIsDir _ _ | CWalk _ _ => true
  | _ => false
  end.

(** The events the workers put outside the processing of a file and
    outside [count_error]. *)
Definition outer_event (e : UiEvent) : bool :=
  match e with
  | EvLog _ | EvProgressSetup _ | EvProgressIndeterminate => true
  | _ => false
  end.

(** Is the action a transfer call other than the one that a run with
    this source type and this mode makes: [adb pull] for the device,
    [shutil.copy2] for a folder in copy mode, [shutil.move] for a folder
    in any other mode? *)
Definition foreign_transfer (src_mode mode : string) (a : Action) : bool :=
  match a with
  | ACall (CAdbRunPull _ _ _) => negb (String.eqb src_mode "adb")
  | ACall (CCopy2 _ _ _) =>
      String.eqb src_mode "adb" || negb (String.eqb mode "copy")
  | ACall (CMove _ _ _) =>
      String.eqb src_mode "adb" || String.eqb mode "copy"
  | _ => false
  end.

(** No transfer call of the timeline of [s] is foreign. *)
Definition one_kind (src_mode mode : string) (s : AppState) : Prop :=
  Forall (λ a, foreign_transfer src_mode mode a = false) (timeline s).

(** *** An audit of the destinations

    The audit reads a timeline with the clock [t] and with [cur], the
    last answer of [unique_destination_path] and the number of actions
    since.  It fails when an answer recorded for
    [unique_destination_path] is not the answer for the paths that
    existed at the time, and when a transfer call writes a path that is
    not the last answer or that was answered more than two actions
    before. *)
Definition audit_state : Type := nat * option (string * nat).

Definition audit_step `{PyRuntime} (w : World) (st : audit_state)
    (a : Action) : option audit_state :=
  let older := (λ dk : string * nat, (dk.1, S dk.2)) <$> st.2 in
  match a with
  | ACall (CUniqueDst p d) =>
      if bool_decide (d = unique_destination_path (fs_paths w st.1) p)
      then Some (S st.1, Some (d, 0))
      else None
  | ACall _ =>
      match transfer_target a with
      | Some dst =>
          match st.2 with
          | Some (d, k) =>
              if bool_decide (d = dst ∧ k ≤ 2) then Some (S st.1, older)
              else None
          | None => None
          end
      | None => Some (S st.1, older)
      end
  | _ => Some (st.1, older)
  end.

Definition audit `{PyRuntime} (w : World) (st : option audit_state)
    (tl : list Action) : option audit_state :=
  foldl (λ o a, st ← o; audit_step w st a) st tl.

(** The timeline of [s] passes the audit from clock [t0], and the clock
    of [s] is the clock the audit ends with. *)
Definition audited `{PyRuntime} (w : World) (t0 : nat) (s : AppState)
    : Prop :=
  ∃ cur, audit w (Some (t0, None)) (timeline s) = Some (clock s, cur).

(** Every transfer call of [tl] writes the path that
    [unique_destination_path] answered at most two actions before, for
    the paths that existed then, the clock being [t0] at the start of
    [tl]. *)
Definition targets_checked `{PyRuntime} (w : World) (t0 : nat)
    (tl : list Action) : Prop :=
  ∀ pre a post dst,
    tl = pre ++ a :: post → transfer_target a = Some dst →
    ∃ pre' p mid,
      pre = pre' ++ ACall (CUniqueDst p dst) :: mid ∧
      dst = unique_destination_path (fs_paths w (t0 + clock_after pre')) p ∧
      (dst ∉ fs_paths w (t0 + clock_after pre')) ∧
      length mid ≤ 2.

(** What the state of the audit records of the timeline read. *)
Definition audit_means `{PyRuntime} (w : World) (t0 : nat)
    (tl : list Action) (st : audit_state) : Prop :=
  st.1 = t0 + clock_after tl ∧
  ∀ d k, st.2 = Some (d, k) →
    ∃ pre' p mid,
      tl = pre' ++ ACall (CUniqueDst p d) :: mid ∧
      d = unique_destination_path (fs_paths w (t0 + clock_after pre')) p ∧
      length mid = k.

(** The exported counter is the number of transfer calls that returned,
    and is at most the scanned counter. *)
Definition exported_inv (s : AppState) : Prop :=
  matched s = completed_transfers (timeline s) ∧ matched s ≤ scanned s.

(** What processing one file does to the counters and to the audit. *)
Definition file_effect `{PyRuntime} (w : World) (s s' : AppState) : Prop :=
  ∃ delta,
    timeline s' = timeline s ++ delta ∧
    scanned s' = S (scanned s) ∧
    matched s' = matched s + completed_transfers delta ∧
    completed_transfers delta ≤ 1 ∧
    ∀ cur, ∃ cur',
      audit w (Some (clock s, cur)) delta = Some (clock s', cur').

(** The error counter is the number of calls that raised an
    [Exception], but for the one that is being raised. *)
Definition errors_post {A} (r : result A) (s : AppState) : Prop :=
  errors s + match r with Raise (Exception _) => 1 | _ => 0 end
  = failures (timeline s).

(** From a state in which every failure is counted, [m] counts every
    failure of its own, but for the one it raises. *)
Definition counts_failures {A} (m : M A) : Prop :=
  ∀ s, errors s = failures (timeline s) →
       errors_post (outcome m s) (exec m s).

(** From a state in which one failure is not counted yet, the handler
    [h] counts it. *)
Definition settles {A} (h : M A) : Prop :=
  ∀ s, errors s + 1 = failures (timeline s) →
       errors_post (outcome h s) (exec h s).

(** The sum of the numbers that the calls of [adb_count_files] recorded
    in a stretch of timeline answered. *)
Definition sum_of_counts (delta : list Action) : Z :=
  foldr (λ a acc,
           match a with
           | ACall (CAdbCountFiles _ (Ok n)) => (n + acc)%Z
           | _ => acc
           end) 0%Z delta.

(** The folders in a stretch of timeline that the device said exist. *)
Definition found_dirs (delta : list Action) : list string :=
  omap (λ a, match a with
             | ACall (CAdbPathExists d (Ok true)) => Some d
             | _ => None
             end) delta.

(** The folders in a stretch of timeline that were counted. *)
Definition counted_dirs (delta : list Action) : list string :=
  omap (λ a, match a with
             | ACall (CAdbCountFiles d _) => Some d
             | _ => None
             end) delta.

(** What a stretch of the estimate amounts to: it added the sum of its
    counts to the total and counted the folders found, unless it
    raised. *)
Definition estimate_post (total0 : Z) (delta : list Action)
    (r : result Z) : Prop :=
  Forall (λ a, match a with
               | ACall (CAdbPathExists _ _) | ACall (CAdbCountFiles _ _) =>
                   True
               | _ => False
               end) delta ∧
  match r with
  | Ok total =>
      total = (total0 + sum_of_counts delta)%Z ∧
      counted_dirs delta = found_dirs delta
  | Raise e => ∃ front c, delta = front ++ [ACall c] ∧ call_raised c = Some e
  end.

(** ** Concrete worlds

    Small worlds on which the statements below are run: a phone and a
    folder with a few files, and a folder with more than 500000 files. *)
Module Worlds.

Definition noon (y m d : Z) : datetime := mk_datetime y m d 12 0 0 0.

Definition start_day : datetime := mk_datetime 2025 9 17 0 0 0 0.
Definition end_day : datetime := mk_datetime 2025 12 17 23 59 59 0.

(** A world in which nothing exists and every call succeeds. *)
Definition quiet : World := {|
cancel_at := None;
adb_path_exists := λ _ _ _, Ok false;
adb_count_files := λ _ _ _, Ok 0%Z;
adb_find_files := λ _ _ _, Ok [];
adb_stat_mtime := λ _ _ _, Ok (noon 2025 10 1);
adb_run_pull := λ _ _ _ _, Ok tt;
fs_paths := λ _, ∅;
os_isdir := λ _ _, false;
os_makedirs := λ _ _, Ok tt;
os_walk := λ _ _, [];
os_getmtime := λ _ _, Ok (noon 2025 10 1);
shutil_copy2 := λ _ _ _, Ok tt;
shutil_move := λ _ _ _, Ok tt
|}.

Definition phone_root : string :=
"/storage/emulated/0/Android/media/com.whatsapp/WhatsApp/Media".
Definition phone_images : string := phone_root +:+ "/WhatsApp Images".
Definition phone_video : string := phone_root +:+ "/WhatsApp Video".

(** A phone with the first media root.  [WhatsApp Images] holds two
  files, the time of the second cannot be read; listing
  [WhatsApp Video] fails.  The destination exists. *)
Definition phone : World := {|
cancel_at := None;
adb_path_exists := λ _ _ p,
  Ok (bool_decide (p ∈ [phone_root; phone_images; phone_video]));
adb_count_files := λ _ _ p,
  Ok (if String.eqb p phone_images then 2%Z else 0%Z);
adb_find_files := λ _ _ p,
  if String.eqb p phone_images
  then Ok [phone_images +:+ "/IMG-1.jpg"; phone_images +:+ "/IMG-2.jpg"]
  else Raise (Exception "find: permission denied");
adb_stat_mtime := λ _ _ p,
  if String.eqb p (phone_images +:+ "/IMG-1.jpg")
  then Ok (noon 2025 10 1)
  else Raise (Exception "stat: no such file");
adb_run_pull := λ _ _ _ _, Ok tt;
fs_paths := λ _, {[ "/dst" ]};
os_isdir := λ _ _, false;
os_makedirs := λ _ _, Ok tt;
os_walk := λ _ _, [];
os_getmtime := λ _ _, Raise (Exception "no such file");
shutil_copy2 := λ _ _ _, Ok tt;
shutil_move := λ _ _ _, Ok tt
|}.

(** A folder copied from a phone: [WhatsApp Images] holds three files
  dated 2025-09-01, 2025-10-01 and 2025-11-01. *)
Definition folder : World := {|
cancel_at := None;
adb_path_exists := adb_path_exists quiet;
adb_count_files := adb_count_files quiet;
adb_find_files := adb_find_files quiet;
adb_stat_mtime := adb_stat_mtime quiet;
adb_run_pull := adb_run_pull quiet;
fs_paths := λ _, {[ "/dst" ]};
os_isdir := λ _ p,
  bool_decide (p ∈ ["/src"; "/src/Media"; "/src/Media/WhatsApp Images"]);
os_makedirs := λ _ _, Ok tt;
os_walk := λ _ p,
  if String.eqb p "/src/Media/WhatsApp Images"
  then [(p, ["a.jpg"; "b.jpg"; "c.jpg"])] else [];
os_getmtime := λ _ p,
  if String.eqb p "/src/Media/WhatsApp Images/a.jpg"
  then Ok (noon 2025 9 1)
  else if String.eqb p "/src/Media/WhatsApp Images/b.jpg"
  then Ok (noon 2025 10 1)
  else Ok (noon 2025 11 1);
shutil_copy2 := λ _ _ _, Ok tt;
shutil_move := λ _ _ _, Ok tt
|}.

(** The same folder, with a destination that does not exist yet. *)
Definition fresh_destination : World := {|
cancel_at := None;
adb_path_exists := adb_path_exists quiet;
adb_count_files := adb_count_files quiet;
adb_find_files := adb_find_files quiet;
adb_stat_mtime := adb_stat_mtime quiet;
adb_run_pull := adb_run_pull quiet;
fs_paths := λ _, ∅;
os_isdir := os_isdir folder;
os_makedirs := λ _ _, Ok tt;
os_walk := os_walk folder;
os_getmtime := os_getmtime folder;
shutil_copy2 := λ _ _ _, Ok tt;
shutil_move := λ _ _ _, Ok tt
|}.

(** A folder whose [WhatsApp Images] holds 300000 files directly and
  300000 more in [Sent]; the user cancels at once. *)
Definition big_tree : World := {|
cancel_at := Some 0;
adb_path_exists := adb_path_exists quiet;
adb_count_files := adb_count_files quiet;
adb_find_files := adb_find_files quiet;
adb_stat_mtime := adb_stat_mtime quiet;
adb_run_pull := adb_run_pull quiet;
fs_paths := λ _, ∅;
os_isdir := λ _ _, true;
os_makedirs := os_makedirs quiet;
os_walk := λ _ top,
  [(top, replicate (N.to_nat 300000) "a.jpg");
   (top +:+ "/Sent", replicate (N.to_nat 300000) "b.jpg")];
os_getmtime := os_getmtime quiet;
shutil_copy2 := shutil_copy2 quiet;
shutil_move := shutil_move quiet
|}.

Definition phone_documents : string := phone_root +:+ "/WhatsApp Documents".

(** What exists on a phone with the first media root and three of the
  subfolders, and what listing a directory of it gives: one file. *)
Definition plugged_present (p : string) : bool :=
bool_decide (p ∈ [phone_root; phone_images; phone_video; phone_documents]).
Definition plugged_listing (p : string) : result (list string) :=
Ok [p +:+ "/1.jpg"].

(** That phone, lost by the bridge while the first subfolder is
  scanned: after 19 questions, the next of which is the probe of the
  second subfolder, probing a path fails. *)
Definition unplugged_phone : World := {|
cancel_at := None;
adb_path_exists := λ t _ p,
  if decide (19 ≤ t) then Raise (Exception "adb: device offline")
  else Ok (plugged_present p);
adb_count_files := λ _ _ _, Ok 1%Z;
adb_find_files := λ _ _ p, plugged_listing p;
adb_stat_mtime := λ _ _ _, Ok (noon 2025 10 1);
adb_run_pull := λ _ _ _ _, Ok tt;
fs_paths := λ _, {[ "/dst" ]};
os_isdir := λ _ _, false;
os_makedirs := λ _ _, Ok tt;
os_walk := λ _ _, [];
os_getmtime := λ _ _, Raise (Exception "no such file");
shutil_copy2 := λ _ _ _, Ok tt;
shutil_move := λ _ _ _, Ok tt
|}.

(** What [os.scandir] gives in a folder copied from a phone in which
  [WhatsApp Images] may not be read and [WhatsApp Video] holds one
  file. *)
Definition locked_scandir (dir : string)
  : option (list string * list string) :=
if String.eqb dir "/src" then Some (["Media"], [])
else if String.eqb dir "/src/Media"
then Some (["WhatsApp Images"; "WhatsApp Video"], [])
else if String.eqb dir "/src/Media/WhatsApp Video"
then Some ([], ["v.mp4"])
else None.

(** That folder: [os.walk] walks what [os.scandir] gives. *)
Definition locked_folder : World := {|
cancel_at := None;
adb_path_exists := adb_path_exists quiet;
adb_count_files := adb_count_files quiet;
adb_find_files := adb_find_files quiet;
adb_stat_mtime := adb_stat_mtime quiet;
adb_run_pull := adb_run_pull quiet;
fs_paths := λ _, {[ "/dst" ]};
os_isdir := λ _ p,
  bool_decide (p ∈ ["/src"; "/src/Media"; "/src/Media/WhatsApp Images";
                    "/src/Media/WhatsApp Video"]);
os_makedirs := λ _ _, Ok tt;
os_walk := λ _ top, @walk_topdown Posix.runtime locked_scandir 8 top;
os_getmtime := λ _ _, Ok (noon 2025 10 1);
shutil_copy2 := λ _ _ _, Ok tt;
shutil_move := λ _ _ _, Ok tt
|}.

(** The form as the window shows it at first, with a device and a
  destination chosen, and with move mode. *)
Definition adb_move_form : Form :=
mk_form "adb" "emulator-5554" EmptyString "/dst" "2025-09-17" "2025-12-17"
        "move" ((λ name, (name, true)) <$> DEFAULT_SUBFOLDERS).

(** A local request whose start date cannot be parsed. *)
Definition bad_date_form : Form :=
mk_form "local" EmptyString "/src" "/dst" "17.09.2025" "2025-12-17"
        "copy" ((λ name, (name, true)) <$> DEFAULT_SUBFOLDERS).

End Worlds.

(** ** Concrete outputs of the device bridge and concrete forms *)
Module Samples.

Import Worlds.

Definition nl : string := String "010" EmptyString.
Definition tab : string := String "009" EmptyString.

(** A bridge that prints [out] for every command and ends with code 0. *)
Definition prints (out : string) (args : list string)
    : result CompletedProcess :=
  Ok (mk_process 0 out EmptyString).

(** The output of [adb devices] with one device ready and one not
    authorized. *)
Definition two_devices : string :=
  "List of devices attached" +:+ nl
  +:+ "emulator-5554" +:+ tab +:+ "device" +:+ nl
  +:+ "R58M123ABC" +:+ tab +:+ "unauthorized" +:+ nl +:+ nl.

(** The output of [find] with an empty line and a line with blanks
    around the path. *)
Definition found_files : string :=
  "/sdcard/WhatsApp/Media/WhatsApp Images/IMG-1.jpg" +:+ nl +:+ nl
  +:+ "  /sdcard/WhatsApp/Media/WhatsApp Images/IMG-2.jpg " +:+ nl.

Definition clock_text (n : nat) : string := "12:00:00".

(** The limit of [int] and the text of its [ValueError] in an
    interpreter with the defaults. *)
Definition default_max_str_digits : nat := 4300.
Definition invalid_literal (s : string) : string :=
  "invalid literal for int() with base 10: '" +:+ s +:+ "'".

(** A form for the folder of [folder], all subfolders ticked. *)
Definition local_copy_form : Form :=
  mk_form "local" EmptyString " /src " "/dst" "2025-09-17" "2025-12-17"
          "copy" ((λ name, (name, true)) <$> DEFAULT_SUBFOLDERS).

Definition start_of_end_day : datetime := mk_datetime 2025 12 17 0 0 0 0.

End Samples.

Import Worlds.

(** * Properties *)

(** ** Reasoning about computations *)

Lemma exec_bind {A B} (m : M A) (k : A → M B) s :
  exec (bind m k) s
  = match outcome m s with
    | Ok a => exec (k a) (exec m s)
    | Raise _ => exec m s
    end.
Proof. unfold exec, outcome, bind. by destruct (m s) as [[a|e] s']. Qed.

Lemma outcome_bind {A B} (m : M A) (k : A → M B) s :
  outcome (bind m k) s
  = match outcome m s with
    | Ok a => outcome (k a) (exec m s)
    | Raise e => Raise e
    end.
Proof. unfold exec, outcome, bind. by destruct (m s) as [[a|e] s']. Qed.

Lemma preserves_ret {A} I (a : A) : preserves I (ret a).
Proof. by intros s. Qed.

Lemma preserves_bind {A B} I (m : M A) (k : A → M B) :
  preserves I m → (∀ a, preserves I (k a)) → preserves I (bind m k).
Proof.
  intros Hm Hk s Hs. rewrite exec_bind.
  destruct (outcome m s); [apply Hk|]; by apply Hm.
Qed.

Lemma preserves_try_except {A} I (m : M A) (h : exc → M A) :
  preserves I m → (∀ e, preserves I (h e)) → preserves I (try_except m h).
Proof.
  intros Hm Hh s Hs. specialize (Hm s Hs). unfold exec, try_except in *.
  destruct (m s) as [[a|[msg|msg]] s']; simpl in *; [done| |done].
  by apply Hh.
Qed.

Lemma preserves_try_finally {A} I (m : M A) (f : M unit) :
  preserves I m → preserves I f → preserves I (try_finally m f).
Proof.
  intros Hm Hf s Hs. specialize (Hm s Hs). unfold exec, try_finally in *.
  destruct (m s) as [r s']; simpl in *. specialize (Hf s' Hm).
  unfold exec in Hf. by destruct (f s') as [[[]|e] s''].
Qed.

Lemma preserves_raise {A} I (e : exc) : preserves I (raise (A:=A) e).
Proof. by intros s. Qed.

Lemma preserves_lift {A} I (r : result A) : preserves I (lift r).
Proof. by intros s. Qed.

Ltac preserves_step :=
  lazymatch goal with
  | |- preserves _ (bind _ _) => apply preserves_bind; [|intros ?]
  | |- preserves _ (ret _) => apply preserves_ret
  | |- preserves _ (try_except _ _) => apply preserves_try_except; [|intros ?]
  | |- preserves _ (try_finally _ _) => apply preserves_try_finally
  | |- preserves _ (if ?b then _ else _) => destruct b
  | |- preserves _ (match ?x with Some _ => _ | None => _ end) => destruct x
  | |- preserves _ (match ?x with [] => _ | _ :: _ => _ end) => destruct x
  | |- preserves _ (let '(_, _) := ?x in _) => destruct x
  end.

(** *** Invariants that every step of a worker keeps *)

Section WorkerInvariant.
Context `{PyRuntime} (w : World).
Variable I : AppState → Prop.
Hypothesis I_call :
  ∀ c s, is_poll c = false → I s → I (tick (record (ACall c) s)).
Hypothesis I_is_set : preserves I (is_set w).
Hypothesis I_log : ∀ msg s, I s → I (record (APut (EvLog msg)) s).
Hypothesis I_setup : ∀ n s, I s → I (record (APut (EvProgressSetup n)) s).
Hypothesis I_indeterminate :
  ∀ s, I s → I (record (APut EvProgressIndeterminate) s).
Hypothesis I_scanned : preserves I count_scanned.
Hypothesis I_matched : ∀ rel mtime, preserves I (count_matched rel mtime).
Hypothesis I_error : ∀ msg, preserves I (count_error msg).

Local Lemma ask_keeps {A} (q : nat → A) c :
  (∀ a, is_poll (c a) = false) → preserves I (ask q c).
Proof. intros Hc s Hs. by apply I_call. Qed.

Local Lemma ask_r_keeps {A} (q : nat → result A) c :
  (∀ r, is_poll (c r) = false) → preserves I (ask_r q c).
Proof. intros Hc s Hs. by apply I_call. Qed.

Local Lemma put_log_keeps msg : preserves I (put (EvLog msg)).
Proof. intros s Hs. by apply I_log. Qed.

Local Lemma announce_keeps total : preserves I (announce_total total).
Proof.
  unfold announce_total. destruct (0 <? total)%Z.
  - apply preserves_bind; [|intros _; apply put_log_keeps].
    intros s Hs. by apply I_setup.
  - apply preserves_bind; [|intros _; apply put_log_keeps].
    intros s Hs. by apply I_indeterminate.
Qed.

Local Ltac keeps :=
  repeat first
    [ preserves_step
    | apply I_is_set
    | apply ask_keeps; intros ?; reflexivity
    | apply ask_r_keeps; intros ?; reflexivity
    | apply put_log_keeps
    | apply announce_keeps
    | apply I_scanned | apply I_matched | apply I_error
    | assumption ].

Lemma ensure_dir_keeps path : preserves I (ensure_dir w path).
Proof. unfold ensure_dir, os_path_exists. keeps. Qed.

Lemma process_file_adb_keeps device dest_root start_dt end_dt root f :
  preserves I (process_file_adb w device dest_root start_dt end_dt root f).
Proof.
  unfold process_file_adb, adb_stat_mtime_io, unique_destination_path_io,
    adb_pull. keeps; apply ensure_dir_keeps.
Qed.

Lemma files_loop_adb_keeps device dest_root start_dt end_dt root fs :
  preserves I (files_loop_adb w device dest_root start_dt end_dt root fs).
Proof.
  induction fs as [|f fs IH]; simpl; keeps.
  apply process_file_adb_keeps.
Qed.

Lemma subs_loop_adb_keeps device dest_root start_dt end_dt root subs :
  preserves I (subs_loop_adb w device dest_root start_dt end_dt root subs).
Proof.
  induction subs as [|sub subs IH]; simpl;
    unfold adb_path_exists_io, adb_find_files_io; keeps.
  apply files_loop_adb_keeps.
Qed.

Lemma roots_loop_adb_keeps device dest_root start_dt end_dt subs roots :
  preserves I (roots_loop_adb w device dest_root start_dt end_dt subs roots).
Proof.
  induction roots as [|root roots IH]; simpl; keeps.
  apply subs_loop_adb_keeps.
Qed.

Lemma find_roots_loop_keeps device cands roots :
  preserves I (find_roots_loop w device cands roots).
Proof.
  revert roots. induction cands as [|c cands IH]; intros roots; simpl;
    unfold adb_path_exists_io; keeps. apply IH.
Qed.

Lemma estimate_adb_subs_keeps device root subs total :
  preserves I (estimate_adb_subs w device root subs total).
Proof.
  revert total. induction subs as [|sub subs IH]; intros total; simpl;
    unfold adb_path_exists_io, adb_count_files_io; keeps; apply IH.
Qed.

Lemma estimate_adb_keeps device roots subs total :
  preserves I (estimate_adb w device roots subs total).
Proof.
  revert total. induction roots as [|root roots IH]; intros total; simpl;
    keeps; [apply estimate_adb_subs_keeps | apply IH].
Qed.

Lemma worker_adb_keeps device dest_root start_dt end_dt subs :
  preserves I (_worker_adb w device dest_root start_dt end_dt subs).
Proof.
  unfold _worker_adb, adb_find_whatsapp_media_roots. keeps;
    first [ apply find_roots_loop_keeps | apply estimate_adb_keeps
          | apply roots_loop_adb_keeps ].
Qed.

Lemma estimate_local_subs_keeps media_root subs total :
  preserves I (estimate_local_subs w media_root subs total).
Proof.
  revert total. induction subs as [|sub subs IH]; intros total; simpl;
    unfold os_path_isdir; keeps; apply IH.
Qed.

Lemma process_file_local_keeps media_root dest_root start_dt end_dt mode
    root name :
  preserves I (process_file_local w media_root dest_root start_dt end_dt
                 mode root name).
Proof.
  unfold process_file_local, unique_destination_path_io.
  keeps; apply ensure_dir_keeps.
Qed.

Lemma files_loop_local_keeps media_root dest_root start_dt end_dt mode
    root files :
  preserves I (files_loop_local w media_root dest_root start_dt end_dt
                 mode root files).
Proof.
  induction files as [|f files IH]; simpl; keeps.
  apply process_file_local_keeps.
Qed.

Lemma walk_loop_local_keeps media_root dest_root start_dt end_dt mode
    walked :
  preserves I (walk_loop_local w media_root dest_root start_dt end_dt
                 mode walked).
Proof.
  induction walked as [|[root files] walked IH]; simpl; keeps.
  apply files_loop_local_keeps.
Qed.

Lemma subs_loop_local_keeps media_root dest_root start_dt end_dt mode subs :
  preserves I (subs_loop_local w media_root dest_root start_dt end_dt
                 mode subs).
Proof.
  induction subs as [|sub subs IH]; simpl;
    unfold os_path_isdir; keeps.
  apply walk_loop_local_keeps.
Qed.

Lemma worker_local_keeps source_root dest_root start_dt end_dt subs mode :
  preserves I (_worker_local w source_root dest_root start_dt end_dt
                 subs mode).
Proof.
  unfold _worker_local, detect_media_root, _estimate_total_files_local,
    os_path_isdir.
  keeps; first [ apply estimate_local_subs_keeps
               | apply subs_loop_local_keeps ].
Qed.

Lemma worker_keeps src_mode src_value dest_root start_dt end_dt subs mode :
  preserves I
    (if String.eqb src_mode "adb"
     then _worker_adb w src_value dest_root start_dt end_dt subs
     else _worker_local w src_value dest_root start_dt end_dt subs mode).
Proof.
  destruct (String.eqb src_mode "adb");
    [apply worker_adb_keeps | apply worker_local_keeps].
Qed.

End WorkerInvariant.

(** *** Pre- and postconditions *)

Lemma hoare_bind {A B} P (m : M A) (k : A → M B) R Q :
  hoare P m R →
  (∀ a, hoare (R (Ok a)) (k a) Q) →
  (∀ e s, R (Raise e) s → Q (Raise e) s) →
  hoare P (bind m k) Q.
Proof.
  intros Hm Hk He s Hs. specialize (Hm s Hs).
  rewrite outcome_bind, exec_bind.
  destruct (outcome m s) as [a|e]; [by apply Hk | by apply He].
Qed.

Lemma hoare_try_except {A} P (m : M A) (h : exc → M A) R Q :
  hoare P m R →
  (∀ a s, R (Ok a) s → Q (Ok a) s) →
  (∀ msg, hoare (R (Raise (Exception msg))) (h (Exception msg)) Q) →
  (∀ msg s, R (Raise (BaseException msg)) s →
            Q (Raise (BaseException msg)) s) →
  hoare P (try_except m h) Q.
Proof.
  intros Hm Hok Hh Hbase s Hs. specialize (Hm s Hs).
  unfold outcome, exec, try_except in *.
  destruct (m s) as [[a|[msg|msg]] s']; simpl in *.
  - by apply Hok.
  - by apply (Hh msg s').
  - by apply Hbase.
Qed.

Lemma hoare_conseq {A} (P P' : AppState → Prop) (m : M A)
    (Q Q' : result A → AppState → Prop) :
  hoare P' m Q' → (∀ s, P s → P' s) → (∀ r s, Q' r s → Q r s) →
  hoare P m Q.
Proof. intros Hm HP HQ s Hs. by apply HQ, Hm, HP. Qed.

Lemma hoare_ret {A} (P : AppState → Prop) (a : A)
    (Q : result A → AppState → Prop) :
  (∀ s, P s → Q (Ok a) s) → hoare P (ret a) Q.
Proof. intros HQ s Hs. by apply HQ. Qed.

Lemma preserves_hoare {A} (I : AppState → Prop) (m : M A) :
  preserves I m → hoare I m (λ _ s, I s).
Proof. intros Hm s Hs. by apply Hm. Qed.

(** ** One file *)

(** Unfold the monad down to the answers of the oracles. *)
Ltac unfold_monad :=
  unfold exec, outcome, count_scanned, count_matched, count_error,
    adb_stat_mtime_io, adb_find_files_io, adb_path_exists_io,
    unique_destination_path_io, adb_pull, ensure_dir, os_path_exists,
    os_path_isdir, is_set, bind, try_except, ask, ask_r, put, ret,
    incr_scanned, incr_matched, incr_errors, get_scanned, get_matched,
    get_errors;
  cbn -[String.append in_range unique_destination_path rstrip_char
        startswith str_drop String.eqb latch_set].

Ltac simpl_run :=
  cbn -[String.append in_range unique_destination_path rstrip_char
        startswith str_drop String.eqb latch_set];
  rewrite <- ?app_assoc; cbn [app].

Ltac summary_leaf :=
  eexists; split; [reflexivity|];
  split; [repeat constructor|];
  repeat split; try (cbn; lia); try (by left); try (by right; eexists);
  try (cbn in *; discriminate);
  first [ by eexists [_], _ | by eexists [_; _], _
        | by eexists [_; _; _], _ | by eexists [_; _; _; _], _
        | by eexists [_; _; _; _; _], _ | idtac ].

Section PerFile.
Context `{PyRuntime} (w : World).

Lemma process_file_adb_summary device dest_root start_dt end_dt root f s :
file_summary s
  (outcome (process_file_adb w device dest_root start_dt end_dt root f) s)
  (exec (process_file_adb w device dest_root start_dt end_dt root f) s).
Proof.
unfold file_summary, process_file_adb. unfold_monad.
destruct (adb_stat_mtime _ _ _ _) as [m|[msg|msg]]; simpl_run.
- destruct (in_range start_dt end_dt m); simpl_run; [|summary_leaf].
  match goal with |- context [CUniqueDst ?p ?d] =>
    generalize d; intros dst end.
  destruct (bool_decide _); simpl_run.
  + destruct (adb_run_pull _ _ _ _ _) as [[]|[msg|msg]]; simpl_run;
      summary_leaf.
  + destruct (os_makedirs _ _ _) as [[]|[msg|msg]]; simpl_run;
      [|summary_leaf..].
    destruct (adb_run_pull _ _ _ _ _) as [[]|[msg|msg]]; simpl_run;
      summary_leaf.
- summary_leaf.
- summary_leaf.
Qed.

Lemma process_file_local_summary media_root dest_root start_dt end_dt mode
  root name s :
file_summary s
  (outcome (process_file_local w media_root dest_root start_dt end_dt mode
              root name) s)
  (exec (process_file_local w media_root dest_root start_dt end_dt mode
           root name) s).
Proof.
unfold file_summary, process_file_local. unfold_monad.
destruct (os_getmtime _ _ _) as [m|[msg|msg]]; simpl_run.
- destruct (in_range start_dt end_dt m); simpl_run; [|summary_leaf].
  match goal with |- context [CUniqueDst ?p ?d] =>
    generalize d; intros dst end.
  destruct (bool_decide _); simpl_run.
  + destruct (String.eqb mode "copy"); simpl_run.
    * destruct (shutil_copy2 _ _ _ _) as [[]|[msg|msg]]; simpl_run;
        summary_leaf.
    * destruct (shutil_move _ _ _ _) as [[]|[msg|msg]]; simpl_run;
        summary_leaf.
  + destruct (os_makedirs _ _ _) as [[]|[msg|msg]]; simpl_run;
      [|summary_leaf..].
    destruct (String.eqb mode "copy"); simpl_run.
    * destruct (shutil_copy2 _ _ _ _) as [[]|[msg|msg]]; simpl_run;
        summary_leaf.
    * destruct (shutil_move _ _ _ _) as [[]|[msg|msg]]; simpl_run;
        summary_leaf.
- summary_leaf.
- summary_leaf.
Qed.
End PerFile.

Section UniqueDestination.
Context `{PyRuntime}.

Lemma string_app_length (s t : string) :
String.length (s +:+ t) = String.length s + String.length t.
Proof. induction s as [|c s IH]; simpl; [done | by rewrite IH]. Qed.

Lemma string_app_inj_r (s1 s2 t : string) : s1 +:+ t = s2 +:+ t → s1 = s2.
Proof.
revert s2. induction s1 as [|c s1 IH]; intros [|c2 s2] E; simpl in *.
- done.
- apply (f_equal String.length) in E.
  rewrite !string_app_length in E. simpl in E. lia.
- apply (f_equal String.length) in E.
  rewrite !string_app_length in E. simpl in E. lia.
- injection E as -> E. f_equal. by apply IH.
Qed.

Lemma dup_candidate_inj (base ext : string) (i j : nat) :
dup_candidate base ext i = dup_candidate base ext j → i = j.
Proof.
unfold dup_candidate. intros E.
apply String.app_inj in E. apply String.app_inj in E.
apply string_app_inj_r in E. by apply (inj pretty) in E.
Qed.

Lemma dup_search_some fs base ext fuel i r :
dup_search fs base ext fuel i = Some r →
∃ j, i ≤ j ∧ r = dup_candidate base ext j ∧ (r ∉ fs) ∧
     ∀ k, (i ≤ k < j) → dup_candidate base ext k ∈ fs.
Proof.
revert i. induction fuel as [|fuel IH]; intros i E; simpl in E; [done|].
destruct (decide (dup_candidate base ext i ∈ fs)) as [Hin|Hout].
- destruct (IH _ E) as (j & Hle & -> & Hfree & Hbusy).
  exists j. repeat split; [lia | done |].
  intros k Hk. destruct (decide (k = i)) as [->|]; [done|].
  apply Hbusy. lia.
- injection E as <-. exists i. repeat split; [lia | done |].
  intros k Hk. lia.
Qed.

Lemma dup_search_none fs base ext fuel i :
dup_search fs base ext fuel i = None →
∀ k, (i ≤ k < i + fuel) → dup_candidate base ext k ∈ fs.
Proof.
revert i. induction fuel as [|fuel IH]; intros i E k Hk; [lia|].
simpl in E.
destruct (decide (dup_candidate base ext i ∈ fs)) as [Hin|Hout]; [|done].
destruct (decide (k = i)) as [->|]; [done|].
apply (IH _ E). lia.
Qed.

(** Enough fuel gives an answer: among [size fs + 1] candidates, which
  are pairwise different, one does not exist. *)
Lemma dup_search_total fs base ext fuel i :
size fs < fuel → is_Some (dup_search fs base ext fuel i).
Proof.
intros Hfuel.
destruct (dup_search fs base ext fuel i) eqn:E; [by eexists|].
exfalso.
pose proof (dup_search_none _ _ _ _ _ E) as Hall.
set (cands := dup_candidate base ext <$> seq i fuel).
assert (NoDup cands) as Hnd.
{ apply NoDup_fmap_2; [|apply NoDup_seq].
  intros a b. apply dup_candidate_inj. }
assert ((list_to_set cands : gset string) ⊆ fs) as Hsub.
{ intros x Hx. apply elem_of_list_to_set in Hx.
  apply list_elem_of_fmap in Hx as (k & -> & Hk).
  apply elem_of_seq in Hk. apply Hall. lia. }
apply subseteq_size in Hsub.
rewrite size_list_to_set in Hsub by done.
unfold cands in Hsub. rewrite length_fmap, length_seq in Hsub. lia.
Qed.

Lemma unique_destination_path_fuel_total fs dst_path fuel :
size fs < fuel →
unique_destination_path_fuel fuel fs dst_path
= Some (unique_destination_path fs dst_path).
Proof.
intros Hfuel. unfold unique_destination_path, unique_destination_path_fuel.
destruct (decide (dst_path ∈ fs)); [|done].
destruct (path_splitext dst_path) as [base ext].
destruct (dup_search_total fs base ext fuel 1 Hfuel) as [r Hr].
destruct (dup_search_total fs base ext (S (size fs)) 1 ltac:(lia)) as [r' Hr'].
rewrite Hr, Hr'. simpl. f_equal.
apply dup_search_some in Hr as (j & ? & -> & Hf & Hb).
apply dup_search_some in Hr' as (j' & ? & -> & Hf' & Hb').
f_equal. destruct (decide (j = j')) as [|Hne]; [done|]. exfalso.
destruct (decide (j < j')).
- apply Hf, Hb'. lia.
- apply Hf', Hb. lia.
Qed.

(** The answer is the first free path of the numbering. *)
Lemma unique_destination_path_first_free fs dst_path :
∃ i, unique_destination_path fs dst_path = nth_candidate dst_path i ∧
     (nth_candidate dst_path i ∉ fs) ∧
     ∀ k, k < i → nth_candidate dst_path k ∈ fs.
Proof.
unfold unique_destination_path, unique_destination_path_fuel.
destruct (decide (dst_path ∈ fs)) as [Hin|Hout].
- destruct (path_splitext dst_path) as [base ext] eqn:Esplit.
  destruct (dup_search_total fs base ext (S (size fs)) 1 ltac:(lia))
    as [r Hr].
  rewrite Hr. simpl.
  apply dup_search_some in Hr as (j & Hj & -> & Hfree & Hbusy).
  exists j. destruct j as [|j]; [lia|].
  unfold nth_candidate. rewrite Esplit. simpl.
  repeat split; [done|].
  intros [|k] Hk; [done|]. apply Hbusy. lia.
- exists 0. simpl. repeat split; [done|]. intros k Hk. lia.
Qed.

(** C2: for every set [fs] of existing paths and every proposed path,
  [unique_destination_path] gives an answer (any fuel above the number
  of existing paths gives the same one) and the answer does not exist;
  it is the proposed path when that is free, and always the first free
  path in the numbering "proposed path, [__dup1], [__dup2], ..." where
  the marker and the number stand before the extension.  When the
  function is asked again for the same proposed path after its answer
  has come to exist (and nothing was removed), the second answer is a
  free path different from the first, with a greater number. *)
Theorem unique_destination_path_spec (fs : gset string) (dst_path : string) :
(∀ fuel, size fs < fuel →
   unique_destination_path_fuel fuel fs dst_path
   = Some (unique_destination_path fs dst_path)) ∧
(unique_destination_path fs dst_path ∉ fs) ∧
(dst_path ∉ fs → unique_destination_path fs dst_path = dst_path) ∧
(∃ i, unique_destination_path fs dst_path = nth_candidate dst_path i ∧
      (∀ k, k < i → nth_candidate dst_path k ∈ fs) ∧
      ∀ fs' : gset string,
        fs ⊆ fs' → unique_destination_path fs dst_path ∈ fs' →
        unique_destination_path fs' dst_path
          ≠ unique_destination_path fs dst_path ∧
        (unique_destination_path fs' dst_path ∉ fs') ∧
        ∃ i', unique_destination_path fs' dst_path
              = nth_candidate dst_path i' ∧ i < i').
Proof.
destruct (unique_destination_path_first_free fs dst_path)
  as (i & Hr & Hfree & Hbusy).
split; [intros; by apply unique_destination_path_fuel_total|].
split; [by rewrite Hr|]. split.
- intros Hout. rewrite Hr.
  destruct i as [|i]; [done|]. exfalso. apply Hout. apply (Hbusy 0). lia.
- exists i. split; [done|]. split; [done|].
  intros fs' Hsub Hnow.
  destruct (unique_destination_path_first_free fs' dst_path)
    as (i' & Hr' & Hfree' & Hbusy').
  split; [|split].
  + intros E. rewrite E in Hr'. rewrite Hr' in Hnow. done.
  + by rewrite Hr'.
  + exists i'. split; [done|].
    destruct (decide (i < i')) as [|Hge]; [done|]. exfalso.
    destruct (decide (i' = i)) as [->|Hne].
    * apply Hfree'. by rewrite <- Hr.
    * apply Hfree'. apply Hsub. apply Hbusy. lia.
Qed.
End UniqueDestination.

(** ** Counter events count up *)

Lemma ui_queue_record a s :
  ui_queue (record a s)
  = ui_queue s ++ match a with APut e => [e] | _ => [] end.
Proof.
  unfold ui_queue, record. simpl. rewrite omap_app. by destruct a.
Qed.

Lemma ui_queue_tick s : ui_queue (tick s) = ui_queue s.
Proof. done. Qed.

Lemma seq_non_decreasing (start len : nat) : non_decreasing (seq start len).
Proof.
  intros i j x y Hij Hi Hj.
  apply lookup_seq in Hi as [-> _]. apply lookup_seq in Hj as [-> _]. lia.
Qed.

Section Counters.
Context `{PyRuntime} (w : World).

Lemma counters_inv_call c s :
counters_inv s → counters_inv (tick (record (ACall c) s)).
Proof.
unfold counters_inv. rewrite ui_queue_tick, ui_queue_record, app_nil_r. done.
Qed.

Lemma counters_inv_put e s :
match e with EvScanned _ | EvMatched _ | EvErrors _ => False | _ => True end →
counters_inv s → counters_inv (record (APut e) s).
Proof.
unfold counters_inv, scanned_values, matched_values, errors_values.
rewrite ui_queue_record, !omap_app.
destruct e; simpl; rewrite ?app_nil_r; done.
Qed.

Lemma counters_inv_scanned : preserves counters_inv count_scanned.
Proof.
intros s (Hs & Hm & He). unfold counters_inv.
assert (ui_queue (exec count_scanned s)
        = ui_queue s ++ [EvScanned (S (scanned s)); EvProgressTick 1]) as ->.
{ unfold exec, count_scanned, ui_queue. cbn. rewrite !omap_app. cbn.
  by rewrite <- app_assoc. }
change (scanned (exec count_scanned s)) with (S (scanned s)).
change (matched (exec count_scanned s)) with (matched s).
change (errors (exec count_scanned s)) with (errors s).
unfold scanned_values, matched_values, errors_values in *.
rewrite !omap_app, Hs, Hm, He, seq_S. cbn [omap]. simpl.
by rewrite !app_nil_r.
Qed.

Lemma counters_inv_matched rel mtime :
preserves counters_inv (count_matched rel mtime).
Proof.
intros s (Hs & Hm & He). unfold counters_inv.
assert (∃ msg, ui_queue (exec (count_matched rel mtime) s)
        = ui_queue s ++ [EvMatched (S (matched s)); EvLog msg]) as [msg ->].
{ eexists. unfold exec, count_matched, ui_queue. cbn. rewrite !omap_app.
  cbn. by rewrite <- app_assoc. }
change (scanned (exec (count_matched rel mtime) s)) with (scanned s).
change (matched (exec (count_matched rel mtime) s)) with (S (matched s)).
change (errors (exec (count_matched rel mtime) s)) with (errors s).
unfold scanned_values, matched_values, errors_values in *.
rewrite !omap_app, Hs, Hm, He, seq_S. cbn [omap]. simpl.
by rewrite !app_nil_r.
Qed.

Lemma counters_inv_error msg : preserves counters_inv (count_error msg).
Proof.
intros s (Hs & Hm & He). unfold counters_inv.
assert (ui_queue (exec (count_error msg) s)
        = ui_queue s ++ [EvErrors (S (errors s)); EvLog msg]) as ->.
{ unfold exec, count_error, ui_queue. cbn. rewrite !omap_app.
  cbn. by rewrite <- app_assoc. }
change (scanned (exec (count_error msg) s)) with (scanned s).
change (matched (exec (count_error msg) s)) with (matched s).
change (errors (exec (count_error msg) s)) with (S (errors s)).
unfold scanned_values, matched_values, errors_values in *.
rewrite !omap_app, Hs, Hm, He, seq_S. cbn [omap]. simpl.
by rewrite !app_nil_r.
Qed.

Lemma counters_inv_dispatch src_mode src_value dest_root start_dt end_dt
  subfolders mode :
preserves counters_inv
  (_worker_dispatch w src_mode src_value dest_root start_dt end_dt
     subfolders mode).
Proof.
unfold _worker_dispatch. apply preserves_try_finally.
- apply worker_keeps.
  + intros c s _. apply counters_inv_call.
  + intros s. apply counters_inv_call.
  + intros msg s. by apply counters_inv_put.
  + intros n s. by apply counters_inv_put.
  + intros s. by apply counters_inv_put.
  + apply counters_inv_scanned.
  + apply counters_inv_matched.
  + apply counters_inv_error.
- intros s. by apply counters_inv_put.
Qed.

(** C9: in the events of one run of [_worker_dispatch], remote or
  local, the values reported for the scanned counter never decrease in
  the order of emission, nor do those of the exported counter, nor
  those of the error counter. *)
Theorem counter_events_non_decreasing
  (src_mode src_value dest_root : string) (start_dt end_dt : datetime)
  (subfolders : list string) (mode : string) :
let q := ui_queue (exec (_worker_dispatch w src_mode src_value dest_root
                           start_dt end_dt subfolders mode) init_state) in
non_decreasing (scanned_values q) ∧
non_decreasing (matched_values q) ∧
non_decreasing (errors_values q).
Proof.
intros q.
destruct (counters_inv_dispatch src_mode src_value dest_root start_dt end_dt
            subfolders mode init_state) as (Hs & Hm & He); [done|].
subst q. rewrite Hs, Hm, He. repeat split; apply seq_non_decreasing.
Qed.
End Counters.

(** ** [Done] closes every run *)

Lemma no_done_since_record s0 a s :
  a ≠ APut EvDone → no_done_since s0 s → no_done_since s0 (record a s).
Proof.
  intros Ha (delta & Htl & Hd). exists (delta ++ [a]). simpl.
  rewrite Htl, app_assoc. split; [done|].
  rewrite elem_of_app, list_elem_of_singleton. intros [?|?]; congruence.
Qed.

Lemma no_done_since_counters s0 s n m e :
  no_done_since s0 s →
  no_done_since s0 (mk_state n m e (timeline s) (clock s)).
Proof. done. Qed.

Section Done.
Context `{PyRuntime} (w : World).

Lemma no_done_since_worker s0 src_mode src_value dest_root start_dt end_dt
  subfolders mode :
preserves (no_done_since s0)
  (if String.eqb src_mode "adb"
   then _worker_adb w src_value dest_root start_dt end_dt subfolders
   else _worker_local w src_value dest_root start_dt end_dt subfolders mode).
Proof.
apply worker_keeps.
- intros c s _ Hs. apply (no_done_since_record s0 (ACall c)) in Hs; done.
- intros s Hs. unfold exec, is_set, ask. simpl.
  by apply no_done_since_record.
- intros msg s. by apply no_done_since_record.
- intros n s. by apply no_done_since_record.
- intros s. by apply no_done_since_record.
- intros s Hs. unfold exec, count_scanned. simpl.
  do 2 (apply no_done_since_record; [done|]).
  by apply no_done_since_counters.
- intros rel mtime s Hs. unfold exec, count_matched. simpl.
  do 2 (apply no_done_since_record; [done|]).
  by apply no_done_since_counters.
- intros msg s Hs. unfold exec, count_error. simpl.
  do 2 (apply no_done_since_record; [done|]).
  by apply no_done_since_counters.
Qed.

(** C3: whatever the world does (the run completes, is cancelled, ends
  in the fatal branch, or a call raises an exception that no [except]
  clause of the worker catches), [_worker_dispatch] puts [Done] exactly
  once and as the last thing it does: what the run adds to the timeline
  is a sequence without [Done] followed by the [put] of [Done], and the
  queue of a run is a sequence of events without [Done] followed by
  [Done]. *)
Theorem done_exactly_once_and_last
  (src_mode src_value dest_root : string) (start_dt end_dt : datetime)
  (subfolders : list string) (mode : string) (s : AppState) :
let run := _worker_dispatch w src_mode src_value dest_root start_dt end_dt
             subfolders mode in
(∃ delta, timeline (exec run s) = timeline s ++ delta ++ [APut EvDone] ∧
          APut EvDone ∉ delta) ∧
(∃ q, ui_queue (exec run init_state) = q ++ [EvDone] ∧ EvDone ∉ q).
Proof.
intros run.
assert (∀ s0, ∃ delta,
          timeline (exec run s0) = timeline s0 ++ delta ++ [APut EvDone] ∧
          APut EvDone ∉ delta) as Hrun.
{ intros s0.
  pose proof (no_done_since_worker s0 src_mode src_value dest_root start_dt
                end_dt subfolders mode s0) as Hw.
  destruct Hw as (delta & Htl & Hd).
  { exists []. rewrite app_nil_r. split; [done|apply not_elem_of_nil]. }
  exists delta. split; [|done].
  subst run. unfold _worker_dispatch, exec, try_finally in *.
  destruct (if String.eqb src_mode "adb" then _ else _) as [r s']; simpl in *.
  by rewrite Htl, app_assoc. }
split; [apply Hrun|].
destruct (Hrun init_state) as (delta & Htl & Hd).
exists (omap (λ a, match a with APut e => Some e | _ => None end) delta).
unfold ui_queue. rewrite Htl. simpl. rewrite omap_app. simpl.
split; [done|].
intros Hin. apply Hd. apply list_elem_of_omap in Hin as (a & Ha & Hsome).
destruct a as [c|e|u]; try done. by injection Hsome as ->.
Qed.
End Done.

Section DateFilter.
Context `{PyRuntime} (w : World).

Local Ltac attempt_leaf :=
first
  [ solve [ eexists [_; _], _; (split; [reflexivity|]);
            (split; [constructor|]); repeat constructor ]
  | solve [ eexists [_; _; _], _; (split; [reflexivity|]);
            (split; [constructor|]); repeat constructor ] ].

Lemma process_file_adb_filter device dest_root start_dt end_dt root f s m :
adb_stat_mtime w (clock s) device f = Ok m →
let s' := exec (process_file_adb w device dest_root start_dt end_dt root f) s in
let scan := [APut (EvScanned (S (scanned s))); APut (EvProgressTick 1);
             ACall (CAdbStatMtime f (Ok m))] in
if in_range start_dt end_dt m then
  ∃ p dst attempt evs,
    timeline s' = timeline s ++ scan ++ [ACall (CUniqueDst p dst)]
                  ++ attempt ++ evs ∧
    transfer_attempt (path_dirname dst) (CAdbRunPull f dst) attempt ∧
    Forall (λ a, is_put a = true) evs
else timeline s' = timeline s ++ scan ∧ matched s' = matched s.
Proof.
intros Hstat s' scan. subst s' scan. unfold process_file_adb. unfold_monad.
rewrite Hstat. simpl_run.
destruct (in_range start_dt end_dt m); simpl_run; [|done].
match goal with |- context [CUniqueDst ?p ?d] =>
  exists p, d; generalize d; intros dst end.
destruct (bool_decide _); simpl_run.
- destruct (adb_run_pull _ _ _ _ _) as [[]|[msg|msg]]; simpl_run;
    attempt_leaf.
- destruct (os_makedirs _ _ _) as [[]|[msg|msg]]; simpl_run;
    [|attempt_leaf..].
  destruct (adb_run_pull _ _ _ _ _) as [[]|[msg|msg]]; simpl_run;
    attempt_leaf.
Qed.

Lemma process_file_local_filter media_root dest_root start_dt end_dt mode
  root name s m :
let src_file := path_join root name in
os_getmtime w (clock s) src_file = Ok m →
let s' := exec (process_file_local w media_root dest_root start_dt end_dt
                  mode root name) s in
let scan := [APut (EvScanned (S (scanned s))); APut (EvProgressTick 1);
             ACall (CGetMtime src_file (Ok m))] in
if in_range start_dt end_dt m then
  ∃ p dst attempt evs,
    timeline s' = timeline s ++ scan ++ [ACall (CUniqueDst p dst)]
                  ++ attempt ++ evs ∧
    transfer_attempt (path_dirname dst)
      (if String.eqb mode "copy" then CCopy2 src_file dst
       else CMove src_file dst) attempt ∧
    Forall (λ a, is_put a = true) evs
else timeline s' = timeline s ++ scan ∧ matched s' = matched s.
Proof.
intros src_file Hstat s' scan. subst s' scan src_file.
unfold process_file_local. unfold_monad.
rewrite Hstat. simpl_run.
destruct (in_range start_dt end_dt m); simpl_run; [|done].
match goal with |- context [CUniqueDst ?p ?d] =>
  exists p, d; generalize d; intros dst end.
destruct (bool_decide _); simpl_run.
- destruct (String.eqb mode "copy"); simpl_run.
  + destruct (shutil_copy2 _ _ _ _) as [[]|[msg|msg]]; simpl_run;
      attempt_leaf.
  + destruct (shutil_move _ _ _ _) as [[]|[msg|msg]]; simpl_run;
      attempt_leaf.
- destruct (os_makedirs _ _ _) as [[]|[msg|msg]]; simpl_run;
    [|destruct (String.eqb mode "copy"); attempt_leaf..].
  destruct (String.eqb mode "copy"); simpl_run.
  + destruct (shutil_copy2 _ _ _ _) as [[]|[msg|msg]]; simpl_run;
      attempt_leaf.
  + destruct (shutil_move _ _ _ _) as [[]|[msg|msg]]; simpl_run;
      attempt_leaf.
Qed.

(** C1: for a scanned file whose modification time resolves to [m], in
  either worker: if [m] lies outside [[start_dt, end_dt]], the worker
  does nothing after reading the time (no transfer call, no event) and
  the exported counter keeps its value; if [m] lies inside, the worker
  computes one destination and makes exactly one transfer attempt for
  it (by [adb pull], [copy2] or [move] according to the worker and the
  mode), after which it only puts events. *)
Theorem transfer_iff_in_range (start_dt end_dt m : datetime) (s : AppState) :
(∀ device dest_root root remote_file,
   adb_stat_mtime w (clock s) device remote_file = Ok m →
   let s' := exec (process_file_adb w device dest_root start_dt end_dt
                     root remote_file) s in
   let scan := [APut (EvScanned (S (scanned s))); APut (EvProgressTick 1);
                ACall (CAdbStatMtime remote_file (Ok m))] in
   if in_range start_dt end_dt m then
     ∃ p dst attempt evs,
       timeline s' = timeline s ++ scan ++ [ACall (CUniqueDst p dst)]
                     ++ attempt ++ evs ∧
       transfer_attempt (path_dirname dst) (CAdbRunPull remote_file dst)
         attempt ∧
       Forall (λ a, is_put a = true) evs
   else timeline s' = timeline s ++ scan ∧ matched s' = matched s) ∧
(∀ media_root dest_root mode root name,
   let src_file := path_join root name in
   os_getmtime w (clock s) src_file = Ok m →
   let s' := exec (process_file_local w media_root dest_root start_dt end_dt
                     mode root name) s in
   let scan := [APut (EvScanned (S (scanned s))); APut (EvProgressTick 1);
                ACall (CGetMtime src_file (Ok m))] in
   if in_range start_dt end_dt m then
     ∃ p dst attempt evs,
       timeline s' = timeline s ++ scan ++ [ACall (CUniqueDst p dst)]
                     ++ attempt ++ evs ∧
       transfer_attempt (path_dirname dst)
         (if String.eqb mode "copy" then CCopy2 src_file dst
          else CMove src_file dst) attempt ∧
       Forall (λ a, is_put a = true) evs
   else timeline s' = timeline s ++ scan ∧ matched s' = matched s).
Proof.
split.
- intros. by apply process_file_adb_filter.
- intros. by apply process_file_local_filter.
Qed.
End DateFilter.

(** ** Failures of one item *)

Lemma file_summary_failure s r s' :
  file_summary s r s' → failure_recorded s r s'.
Proof.
  intros (delta & Htl & _ & _ & _ & Herr & Hle & _ & Hfail & _).
  eexists. split; [exact Htl|]. cbn. split; [done|]. split; [done|].
  intros Hone. destruct (Hfail Hone) as (Hr & Hm & pre & msg & ->).
  split; [|done]. by eexists (_ :: _ :: pre), msg.
Qed.

Section Failures.
Context `{PyRuntime} (w : World).

Lemma walk_topdown_unreadable scandir depth top :
scandir top = None → walk_topdown scandir depth top = [].
Proof. intros Hscan. destruct depth; simpl; [done|]. by rewrite Hscan. Qed.

(** C5: which failures are counted once and passed over, and which are
  not.
  - Files, both workers: at the head of the file loop with the latch
    unset, processing the file adds to the error counter the number of
    its calls that failed (reading the modification time, creating the
    directory of the destination, the transfer), which is at most one;
    if one failed, the last two actions are the [put]s of the new error
    count and of a log line, the exported counter keeps its value, and
    the loop continues with the files that remain.
  - Listing, remote worker: if the subfolder exists and listing it
    fails, the error counter grows by one, the new error count and a log
    line are put, the other counters keep their values, and the loop
    continues with the subfolders that remain.
  - Listing, local worker: if the subfolder is a directory that cannot
    be listed, [os.walk] yields nothing for it, and the loop continues
    with the subfolders that remain after the check of the latch, the
    test of the directory and the walk only: no counter changes and
    nothing is put.
  - Probe, remote worker: if probing the subfolder fails, the loop over
    the subfolders ends there with that exception; the subfolders that
    remain are not looked at. *)
Theorem per_item_failure_counted_and_skipped (s : AppState) :
latch_set w (clock s) = false →
let s1 := tick (record (ACall (CIsSet false)) s) in
(∀ device dest_root start_dt end_dt root remote_file rest,
   let pf := process_file_adb w device dest_root start_dt end_dt root
               remote_file in
   let loop := files_loop_adb w device dest_root start_dt end_dt root in
   failure_recorded s1 (outcome pf s1) (exec pf s1) ∧
   (outcome pf s1 = Ok tt →
    loop (remote_file :: rest) s = loop rest (exec pf s1))) ∧
(∀ media_root dest_root start_dt end_dt mode root name rest,
   let pf := process_file_local w media_root dest_root start_dt end_dt mode
               root name in
   let loop := files_loop_local w media_root dest_root start_dt end_dt mode
                 root in
   failure_recorded s1 (outcome pf s1) (exec pf s1) ∧
   (outcome pf s1 = Ok tt →
    loop (name :: rest) s = loop rest (exec pf s1))) ∧
(∀ device dest_root start_dt end_dt root sub rest msg,
   let remote_dir := root +:+ "/" +:+ sub in
   let loop := subs_loop_adb w device dest_root start_dt end_dt root in
   adb_path_exists w (clock s1) device remote_dir = Ok true →
   adb_find_files w (S (clock s1)) device remote_dir
     = Raise (Exception msg) →
   ∃ s', loop (sub :: rest) s = loop rest s' ∧
         errors s' = S (errors s) ∧
         matched s' = matched s ∧ scanned s' = scanned s ∧
         timeline s'
         = timeline s ++
           [ACall (CIsSet false);
            ACall (CAdbPathExists remote_dir (Ok true));
            ACall (CAdbFindFiles remote_dir (Raise (Exception msg)));
            APut (EvErrors (S (errors s)));
            APut (EvLog ("ERROR listing files in: " +:+ remote_dir
                         +:+ " (" +:+ msg +:+ ")"))]) ∧
(∀ media_root dest_root start_dt end_dt mode sub rest scandir depth,
   let src_dir := path_join media_root sub in
   let loop := subs_loop_local w media_root dest_root start_dt end_dt
                 mode in
   os_isdir w (clock s1) src_dir = true →
   os_walk w (S (clock s1)) src_dir = walk_topdown scandir depth src_dir →
   scandir src_dir = None →
   ∃ s', loop (sub :: rest) s = loop rest s' ∧
         errors s' = errors s ∧
         matched s' = matched s ∧ scanned s' = scanned s ∧
         timeline s'
         = timeline s ++
           [ACall (CIsSet false); ACall (CIsDir src_dir true);
            ACall (CWalk src_dir [])]) ∧
(∀ device dest_root start_dt end_dt root sub rest e,
   let remote_dir := root +:+ "/" +:+ sub in
   adb_path_exists w (clock s1) device remote_dir = Raise e →
   subs_loop_adb w device dest_root start_dt end_dt root (sub :: rest) s
   = (Raise e,
      tick (record (ACall (CAdbPathExists remote_dir (Raise e))) s1))).
Proof.
intros Hlatch s1. split; [|split; [|split; [|split]]].
- intros. split.
  + apply file_summary_failure, process_file_adb_summary.
  + intros Hok. subst loop. cbn [files_loop_adb].
    unfold bind at 1, is_set, ask. rewrite Hlatch. fold s1.
    unfold bind, outcome, exec in *. fold pf.
    destruct (pf s1) as [r s2]. simpl in Hok. by subst r.
- intros. split.
  + apply file_summary_failure, process_file_local_summary.
  + intros Hok. subst loop. cbn [files_loop_local].
    unfold bind at 1, is_set, ask. rewrite Hlatch. fold s1.
    unfold bind, outcome, exec in *. fold pf.
    destruct (pf s1) as [r s2]. simpl in Hok. by subst r.
- intros * Hprobe Hfind. subst loop. cbn [subs_loop_adb].
  eexists. split.
  + unfold bind at 1, is_set, ask. rewrite Hlatch. fold s1.
    unfold bind at 1, adb_path_exists_io, ask_r. fold remote_dir.
    rewrite Hprobe. cbn [negb].
    unfold bind at 1, try_except, bind at 1, adb_find_files_io, ask_r.
    cbn [clock tick record]. cbn [clock tick record] in Hfind.
    rewrite Hfind. unfold count_error. unfold_monad. reflexivity.
  + simpl_run. done.
- intros * Hdir Hwalk Hscan. subst loop. cbn [subs_loop_local].
  rewrite walk_topdown_unreadable in Hwalk by done.
  eexists. split.
  + unfold bind at 1, is_set, ask. rewrite Hlatch. fold s1.
    unfold bind at 1, os_path_isdir, ask. fold src_dir.
    rewrite Hdir. cbn [negb].
    unfold bind at 1, ask. cbn [clock tick record]. cbn [clock] in Hwalk.
    rewrite Hwalk. cbn [walk_loop_local]. unfold bind at 1, ret.
    reflexivity.
  + simpl_run. done.
- intros * Hprobe. cbn [subs_loop_adb].
  unfold bind at 1, is_set, ask. rewrite Hlatch. fold s1.
  unfold bind at 1, adb_path_exists_io, ask_r. fold remote_dir.
  by rewrite Hprobe.
Qed.
End Failures.

(** ** Every enumerated file is scanned *)

Lemma scans_ret {A} (a : A) : scans (ret a) 0.
Proof. intros n s Hs _. split; [by exists a|]. unfold exec. simpl. lia. Qed.

Lemma scans_bind {A B} (m : M A) (k : A → M B) i j :
  scans m i → (∀ a, scans (k a) j) → scans (bind m k) (i + j).
Proof.
  intros Hm Hk n.
  eapply hoare_bind with
    (R := λ r s, survived r → (∃ a, r = Ok a) ∧ scanned s = n + i).
  - apply Hm.
  - intros a s Hs Hsurv. destruct (Hs I) as [_ Hn].
    destruct (Hk a (n + i) s Hn Hsurv) as [Hr Hn']. split; [done|lia].
  - intros e s Hs Hsurv. by destruct (Hs Hsurv) as [[a ?] _].
Qed.

Lemma hoare_bind_value {A B} P (m : M A) (k : A → M B) a
    (Q : result B → AppState → Prop) :
  hoare P m (λ r s, r = Ok a ∧ P s) → hoare P (k a) Q →
  hoare P (bind m k) Q.
Proof.
  intros Hm Hk s Hs. destruct (Hm s Hs) as [Hr HP].
  rewrite outcome_bind, exec_bind, Hr. by apply Hk.
Qed.

Lemma hoare_bind_survived {A B} P (m : M A) (k : A → M B) a
    (Q : result B → AppState → Prop) :
  hoare P m (λ r s, survived r → r = Ok a ∧ P s) → hoare P (k a) Q →
  (∀ msg s, Q (Raise (BaseException msg)) s) →
  hoare P (bind m k) Q.
Proof.
  intros Hm Hk HQ s Hs. specialize (Hm s Hs).
  rewrite outcome_bind, exec_bind.
  destruct (outcome m s) as [a'|[msg|msg]].
  - destruct (Hm I) as [[= ->] HP]. by apply Hk.
  - by destruct (Hm I) as [? _].
  - apply HQ.
Qed.

Lemma scans_returns {A} (m : M A) :
  (∀ n, hoare (λ s, scanned s = n) m
          (λ r s, (∃ a, r = Ok a) ∧ scanned s = n)) →
  scans m 0.
Proof. intros Hm n s Hs _. destruct (Hm n s Hs). split; [done|lia]. Qed.

Lemma scans_put e : scans (put e) 0.
Proof. intros n s Hs _. split; [by exists tt|]. unfold exec. simpl. lia. Qed.

Lemma scans_ask {A} (q : nat → A) c : scans (ask q c) 0.
Proof.
  intros n s Hs _. split; [by exists (q (clock s))|]. unfold exec. simpl. lia.
Qed.

Lemma scans_file s r s' n :
  file_summary s r s' → scanned s = n → survived r →
  (∃ a, r = Ok a) ∧ scanned s' = n + 1.
Proof.
  intros (delta & _ & _ & Hsc & _ & _ & _ & _ & _ & Hr) Hs Hsurv.
  split; [|lia]. destruct Hr as [->|[msg ->]]; [by eexists|done].
Qed.

Section Scanned.
Context `{PyRuntime} (w : World).
Hypothesis never_cancelled : cancel_at w = None.

Lemma latch_never_set t : latch_set w t = false.
Proof. unfold latch_set. by rewrite never_cancelled. Qed.

(** A loop body guarded by the check of the latch runs. *)
Lemma scans_unless_cancelled (m : M unit) k :
scans m k →
scans (let* cancelled := is_set w in if cancelled then ret tt else m) k.
Proof.
intros Hm n s Hs. unfold outcome, exec, bind, is_set, ask.
rewrite latch_never_set. by apply (Hm n).
Qed.

Lemma scans_closing (msg : bool → string) :
scans (let* cancelled := is_set w in put (EvLog (msg cancelled))) 0.
Proof.
apply (scans_bind _ _ 0 0); [apply scans_ask|]. intros b. apply scans_put.
Qed.

Lemma files_loop_adb_scans device dest_root start_dt end_dt root fs :
scans (files_loop_adb w device dest_root start_dt end_dt root fs)
      (length fs).
Proof.
induction fs as [|f fs IH]; simpl; [apply scans_ret|].
apply scans_unless_cancelled, (scans_bind _ _ 1 (length fs)); [|done].
intros n s Hs. by eapply scans_file; [apply process_file_adb_summary|].
Qed.

Lemma files_loop_local_scans media_root dest_root start_dt end_dt mode root
  fs :
scans (files_loop_local w media_root dest_root start_dt end_dt mode root fs)
      (length fs).
Proof.
induction fs as [|f fs IH]; simpl; [apply scans_ret|].
apply scans_unless_cancelled, (scans_bind _ _ 1 (length fs)); [|done].
intros n s Hs. by eapply scans_file; [apply process_file_local_summary|].
Qed.

Lemma walk_loop_local_scans media_root dest_root start_dt end_dt mode walked :
scans (walk_loop_local w media_root dest_root start_dt end_dt mode walked)
      (sum_list ((λ rf, length rf.2) <$> walked)).
Proof.
induction walked as [|[root files] walked IH]; simpl; [apply scans_ret|].
apply scans_unless_cancelled, scans_bind; [|done].
apply files_loop_local_scans.
Qed.

Section Device.
Variables (device : string) (present : string → bool)
        (listing : string → result (list string)).
Hypothesis answers : device_answers w device present listing.

Lemma probe_answers p n :
hoare (λ s, scanned s = n) (adb_path_exists_io w device p)
  (λ r s, r = Ok (present p) ∧ scanned s = n).
Proof.
intros s Hs. unfold outcome, exec, adb_path_exists_io, ask_r. simpl.
by rewrite (proj1 answers).
Qed.

Lemma subs_loop_adb_scans dest_root start_dt end_dt root subs :
scans (subs_loop_adb w device dest_root start_dt end_dt root subs)
      (sum_list
         ((λ sub, files_in_remote_dir present listing (root +:+ "/" +:+ sub))
          <$> subs)).
Proof.
induction subs as [|sub subs IH]; [apply scans_ret|].
rewrite fmap_cons. cbn [sum_list subs_loop_adb].
apply scans_unless_cancelled. intros n.
eapply hoare_bind_value; [apply probe_answers|].
unfold files_in_remote_dir at 1.
destruct (present (root +:+ "/" +:+ sub)); cbn [negb].
- eapply hoare_bind_survived with
    (a := match listing (root +:+ "/" +:+ sub) with
          | Ok remote_files => Some remote_files
          | Raise _ => None
          end); [| |done].
  + intros s Hs.
    unfold outcome, exec, try_except, bind, adb_find_files_io, ask_r.
    simpl. rewrite (proj2 (proj2 answers)).
    by destruct (listing _) as [fs|[m|m]].
  + destruct (listing _) as [fs|e].
    * apply (scans_bind _ _ _ _ (files_loop_adb_scans _ _ _ _ _ fs)
               (λ _, IH) n).
    * apply (IH n).
- apply (scans_bind _ _ 0 _ (scans_put _) (λ _, IH) n).
Qed.

Lemma roots_loop_adb_scans dest_root start_dt end_dt subs roots :
scans (roots_loop_adb w device dest_root start_dt end_dt subs roots)
      (sum_list
         ((λ root,
             sum_list
               ((λ sub, files_in_remote_dir present listing
                          (root +:+ "/" +:+ sub)) <$> subs))
          <$> roots)).
Proof.
induction roots as [|root roots IH]; [apply scans_ret|].
rewrite fmap_cons. cbn [sum_list roots_loop_adb].
apply scans_unless_cancelled, scans_bind; [|done].
apply subs_loop_adb_scans.
Qed.

Lemma find_roots_loop_answers cands roots n :
hoare (λ s, scanned s = n) (find_roots_loop w device cands roots)
  (λ r s, r = Ok (roots ++ filter (λ c, present c = true) cands) ∧
          scanned s = n).
Proof.
revert roots. induction cands as [|c cands IH]; intros roots; simpl.
- intros s Hs. by rewrite app_nil_r.
- eapply hoare_bind_value; [apply probe_answers|]. rewrite filter_cons.
  destruct (decide (present c = true)) as [Hc|Hc].
  + rewrite Hc. eapply hoare_conseq; [apply (IH (roots ++ [c]))|done|].
    intros r s. by rewrite <- app_assoc.
  + apply not_true_is_false in Hc. rewrite Hc. apply IH.
Qed.

Lemma estimate_adb_subs_returns root subs total n :
hoare (λ s, scanned s = n) (estimate_adb_subs w device root subs total)
  (λ r s, (∃ total', r = Ok total') ∧ scanned s = n).
Proof.
revert total. induction subs as [|sub subs IH]; intros total; simpl.
- intros s Hs. split; [by eexists|done].
- eapply hoare_bind_value; [apply probe_answers|].
  destruct (present (root +:+ "/" +:+ sub)); [|apply IH].
  eapply hoare_bind with
    (R := λ r s, (∃ k, r = Ok k) ∧ scanned s = n).
  + intros s Hs. unfold outcome, exec, adb_count_files_io, ask_r. simpl.
    split; [|done].
    apply (proj1 (proj2 answers)).
  + intros k. eapply hoare_conseq; [apply IH| |done]. by intros s [_ ?].
  + by intros e s [[k ?] _].
Qed.

Lemma estimate_adb_returns roots subs total n :
hoare (λ s, scanned s = n) (estimate_adb w device roots subs total)
  (λ r s, (∃ total', r = Ok total') ∧ scanned s = n).
Proof.
revert total. induction roots as [|root roots IH]; intros total; simpl.
- intros s Hs. split; [by eexists|done].
- eapply hoare_bind; [apply estimate_adb_subs_returns| |].
  + intros total'. eapply hoare_conseq; [apply IH| |done]. by intros s [_ ?].
  + by intros e s [[k ?] _].
Qed.

Lemma scans_announce total : scans (announce_total total) 0.
Proof.
unfold announce_total.
destruct (0 <? total)%Z;
  apply (scans_bind _ _ 0 0 (scans_put _) (λ _, scans_put _)).
Qed.

Lemma scan_adb_scans dest_root start_dt end_dt subs roots :
scans
  (match roots with
   | [] =>
       put (EvLog "ERROR: Could not find WhatsApp Media folder on the device.") >>
       put (EvLog "Tried: /storage/emulated/0/Android/media/com.whatsapp/WhatsApp/Media and /storage/emulated/0/WhatsApp/Media")
   | _ =>
       put (EvLog ("Using WhatsApp Media root(s): "
                   +:+ str_join ", " roots)) >>
       let* total := estimate_adb w device roots subs 0%Z in
       announce_total total >>
       roots_loop_adb w device dest_root start_dt end_dt subs roots >>
       let* cancelled := is_set w in
       put (EvLog (if cancelled then "Cancelled by user."
                   else "Export complete (ADB mode)."))
   end)
  (sum_list
     ((λ root,
         sum_list
           ((λ sub, files_in_remote_dir present listing
                      (root +:+ "/" +:+ sub)) <$> subs))
      <$> roots)).
Proof.
destruct roots as [|root roots].
- apply (scans_bind _ _ 0 0 (scans_put _) (λ _, scans_put _)).
- set (k := sum_list _).
  apply (scans_bind _ _ 0 k (scans_put _)). intros _.
  apply (scans_bind _ _ 0 k
           (scans_returns _ (estimate_adb_returns _ _ _))).
  intros total.
  apply (scans_bind _ _ 0 k (scans_announce _)). intros _.
  replace k with (k + 0) by lia.
  apply scans_bind; [apply roots_loop_adb_scans|].
  intros _. apply (scans_closing (λ cancelled : bool,
    if cancelled then "Cancelled by user."
    else "Export complete (ADB mode).")).
Qed.

Lemma worker_adb_scans dest_root start_dt end_dt subs :
scans (_worker_adb w device dest_root start_dt end_dt subs)
      (files_on_device present listing subs).
Proof.
intros n. unfold _worker_adb, adb_find_whatsapp_media_roots.
eapply hoare_try_except with
  (R := λ r s, survived r → (∃ a, r = Ok a) ∧
          scanned s = n + files_on_device present listing subs);
  [|done| |done].
2: { intros msg s Hs. by destruct (Hs I) as [[a ?] _]. }
eapply hoare_bind_value; [apply find_roots_loop_answers|].
apply (scan_adb_scans dest_root start_dt end_dt subs
         ([] ++ filter (λ c, present c = true) media_root_candidates) n).
Qed.

End Device.

Section Folder.
Variables (isdir : string → bool) (tree : string → list (string * list string)).
Hypothesis answers : folder_answers w isdir tree.

Lemma isdir_answers p n :
hoare (λ s, scanned s = n) (os_path_isdir w p)
  (λ r s, r = Ok (isdir p) ∧ scanned s = n).
Proof.
intros s Hs. unfold outcome, exec, os_path_isdir, ask. simpl.
by rewrite (proj1 answers).
Qed.

Lemma subs_loop_local_scans media_root dest_root start_dt end_dt mode subs :
scans (subs_loop_local w media_root dest_root start_dt end_dt mode subs)
      (sum_list
         ((λ sub, files_in_dir isdir tree (path_join media_root sub))
          <$> subs)).
Proof.
induction subs as [|sub subs IH]; [apply scans_ret|].
rewrite fmap_cons. cbn [sum_list subs_loop_local].
apply scans_unless_cancelled. intros n.
eapply hoare_bind_value; [apply isdir_answers|].
unfold files_in_dir at 1.
destruct (isdir (path_join media_root sub)); cbn [negb].
- eapply hoare_bind_value with (a := tree (path_join media_root sub)).
  + intros s Hs. unfold outcome, exec, ask. simpl.
    by rewrite (proj2 answers).
  + apply (scans_bind _ _ _ _ (walk_loop_local_scans _ _ _ _ _ _)
             (λ _, IH) n).
- apply (scans_bind _ _ 0 _ (scans_put _) (λ _, IH) n).
Qed.

Lemma estimate_local_subs_returns media_root subs total n :
hoare (λ s, scanned s = n) (estimate_local_subs w media_root subs total)
  (λ r s, (∃ total', r = Ok total') ∧ scanned s = n).
Proof.
revert total. induction subs as [|sub subs IH]; intros total; simpl.
- intros s Hs. split; [by eexists|done].
- intros s Hs. unfold outcome, exec, bind, os_path_isdir, ask in *. simpl.
  destruct (os_isdir _ _ _); simpl; [|by apply IH].
  destruct (estimate_walk _ _) as [total' [|]]; [by split; [eexists|]|].
  by apply IH.
Qed.

Lemma scan_local_scans media_root dest_root start_dt end_dt subs mode :
scans
  (put (EvLog ("Media root detected: " +:+ media_root)) >>
   let* total := _estimate_total_files_local w media_root subs in
   announce_total total >>
   subs_loop_local w media_root dest_root start_dt end_dt mode subs >>
   let* cancelled := is_set w in
   put (EvLog (if cancelled then "Cancelled by user."
               else "Export complete (Local Folder mode).")))
  (sum_list
     ((λ sub, files_in_dir isdir tree (path_join media_root sub))
      <$> subs)).
Proof.
set (k := sum_list _).
apply (scans_bind _ _ 0 k (scans_put _)). intros _.
apply (scans_bind _ _ 0 k
         (scans_returns _ (estimate_local_subs_returns _ _ _))).
intros total.
apply (scans_bind _ _ 0 k (scans_announce _)). intros _.
replace k with (k + 0) by lia.
apply scans_bind; [apply subs_loop_local_scans|].
intros _. apply (scans_closing (λ cancelled : bool,
  if cancelled then "Cancelled by user."
  else "Export complete (Local Folder mode).")).
Qed.

Lemma worker_local_scans source_root dest_root start_dt end_dt subs mode :
scans (_worker_local w source_root dest_root start_dt end_dt subs mode)
      (files_in_folder isdir tree source_root subs).
Proof.
intros n. unfold _worker_local, detect_media_root.
eapply hoare_try_except with
  (R := λ r s, survived r → (∃ a, r = Ok a) ∧
          scanned s = n + files_in_folder isdir tree source_root subs);
  [|done| |done].
2: { intros msg s Hs. by destruct (Hs I) as [[a ?] _]. }
eapply hoare_bind_value with
  (a := if isdir (path_join source_root "Media")
        then path_join source_root "Media" else source_root).
- eapply hoare_bind_value; [apply isdir_answers|].
  intros s Hs. by destruct (isdir _).
- apply (scan_local_scans _ dest_root start_dt end_dt subs mode n).
Qed.

End Folder.

(** C8: take a run, remote or local, during which the latch is never
  set and which returns (no exception outside [Exception] ends it),
  in an environment that answers in the same way during the whole run:
  a device whose probes answer [present], whose listings answer
  [listing] and whose counts return, or a file system whose
  [os.path.isdir] answers [isdir] and whose [os.walk] answers [tree].
  Then the run adds to the scanned counter the number of files of all
  the selected subfolders that exist (over all the media roots that
  exist, on a device), a subfolder that is missing or whose listing
  fails counting for none, whatever the time stamps, the date filter
  and the transfers do. *)
Theorem scanned_count_is_enumerated_count
  (src_mode src_value dest_root : string) (start_dt end_dt : datetime)
  (subfolders : list string) (mode : string)
  (present : string → bool) (listing : string → result (list string))
  (isdir : string → bool) (tree : string → list (string * list string))
  (s : AppState) :
let run := _worker_dispatch w src_mode src_value dest_root start_dt end_dt
             subfolders mode in
(if String.eqb src_mode "adb"
 then device_answers w src_value present listing
 else folder_answers w isdir tree) →
outcome run s = Ok tt →
scanned (exec run s)
= scanned s
  + (if String.eqb src_mode "adb"
     then files_on_device present listing subfolders
     else files_in_folder isdir tree src_value subfolders).
Proof.
intros run Hanswers Hok. subst run. unfold _worker_dispatch in *.
assert (scans
          (if String.eqb src_mode "adb"
           then _worker_adb w src_value dest_root start_dt end_dt subfolders
           else _worker_local w src_value dest_root start_dt end_dt
                  subfolders mode)
          (if String.eqb src_mode "adb"
           then files_on_device present listing subfolders
           else files_in_folder isdir tree src_value subfolders)) as Hw.
{ destruct (String.eqb src_mode "adb");
    [by apply worker_adb_scans | by apply worker_local_scans]. }
specialize (Hw (scanned s) s eq_refl).
unfold outcome, exec, try_finally in *.
destruct (if String.eqb src_mode "adb" then _ else _) as [r s']; simpl in *.
subst r. by apply Hw.
Qed.
End Scanned.

(** ** Cancellation *)

Lemma phase_of_app tl l :
  phase_of (tl ++ l)
  = foldl (λ oq a, q ← oq; protocol_step q a) (phase_of tl) l.
Proof. unfold phase_of. by rewrite foldl_app. Qed.

Lemma at_phase_record q q' a s :
  at_phase q s → protocol_step q a = Some q' → at_phase q' (record a s).
Proof.
  unfold at_phase. intros Hq Hstep. simpl. rewrite phase_of_app, Hq. done.
Qed.

Lemma at_phase_extend q q' l s s' :
  at_phase q s → timeline s' = timeline s ++ l →
  foldl (λ oq a, q ← oq; protocol_step q a) (Some q) l = Some q' →
  at_phase q' s'.
Proof.
  unfold at_phase. intros Hq -> Hl. by rewrite phase_of_app, Hq.
Qed.

Lemma at_phase_call q q' c s :
  at_phase q s → protocol_step q (ACall c) = Some q' →
  at_phase q' (tick (record (ACall c) s)).
Proof. apply at_phase_record. Qed.

Lemma at_phase_file_actions l s s' :
  at_phase InFile s → timeline s' = timeline s ++ l →
  Forall (λ a, file_action a = true) l → at_phase InFile s'.
Proof.
  unfold at_phase. intros Hq -> Hl. rewrite phase_of_app, Hq. clear Hq.
  induction Hl as [|a l Ha _ IH]; [done|]. simpl.
  replace (protocol_step InFile a) with (Some InFile); [done|].
  by destruct a as [[]|[]|].
Qed.

Lemma latch_set_mono w t t' :
  latch_set w t = true → t ≤ t' → latch_set w t' = true.
Proof.
  unfold latch_set. destruct (cancel_at w) as [c|]; [|done].
  rewrite !bool_decide_eq_true. lia.
Qed.

Lemma snoc_split {A} (tl pre post : list A) (x y : A) :
  tl ++ [x] = pre ++ y :: post →
  (post = [] ∧ pre = tl ∧ y = x) ∨
  (∃ post', post = post' ++ [x] ∧ tl = pre ++ y :: post').
Proof.
  destruct post as [|z post' _] using rev_ind; intros E.
  - apply app_inj_tail in E as [-> ->]. by left.
  - right. exists post'.
    rewrite app_comm_cons, app_assoc in E.
    apply app_inj_tail in E as [-> ->]. done.
Qed.

Lemma count_app p tl l : count p (tl ++ l) = count p tl + count p l.
Proof. induction tl as [|a tl IH]; simpl; [done|]. rewrite IH. lia. Qed.

Lemma truthful_record_other w a s :
  match a with ACall _ => False | _ => True end →
  truthful w s → truthful w (record a s).
Proof.
  intros Ha [Hc Ht]. split; simpl.
  - unfold clock_after in *. rewrite count_app. simpl.
    destruct a; [done|simpl; lia..].
  - intros pre b post E. apply snoc_split in E as [(_ & _ & <-)|(post' & _ & E)];
      [done|]. by eapply Ht.
Qed.

Lemma truthful_call w c s :
  match c with CIsSet b => b = latch_set w (clock s) | _ => True end →
  truthful w s → truthful w (tick (record (ACall c) s)).
Proof.
  intros Hcall [Hc Ht]. split; simpl.
  - unfold clock_after. rewrite count_app. simpl.
    unfold clock_after in Hc. lia.
  - intros pre b post E.
    apply snoc_split in E as [(_ & -> & E)|(post' & _ & E)];
      [|by eapply Ht].
    injection E as <-. by rewrite <- Hc.
Qed.

Lemma truthful_counters w s n m e :
  truthful w s → truthful w (mk_state n m e (timeline s) (clock s)).
Proof. done. Qed.

(** *** What the protocol says in plain terms *)

Lemma phase_of_snoc tl a :
  phase_of (tl ++ [a]) = q ← phase_of tl; protocol_step q a.
Proof. by rewrite phase_of_app. Qed.

Lemma stuck_stays (l : list Action) :
  foldl (λ oq a, q ← oq; protocol_step q a) None l = None.
Proof. by induction l. Qed.

(** A prefix of a timeline that follows the protocol follows it. *)
Lemma follows_protocol_prefix tl l :
  follows_protocol (tl ++ l) → follows_protocol tl.
Proof.
  unfold follows_protocol. rewrite phase_of_app.
  destruct (phase_of tl); [by eexists|]. rewrite stuck_stays.
  by intros [? ?].
Qed.

(** [Armed] means: the last action was a check that read unset. *)
Lemma armed_after_check tl :
  phase_of tl = Some Armed → ∃ tl', tl = tl' ++ [ACall (CIsSet false)].
Proof.
  destruct tl as [|a tl' _] using rev_ind; [done|].
  rewrite phase_of_snoc. intros Hq. exists tl'. f_equal. f_equal.
  destruct (phase_of tl') as [q|]; [|done]. simpl in Hq.
  destruct a as [[[|]| | | | | | | | | | | | |]|[]|]; destruct q; done.
Qed.

(** [InFile] means: a file was counted as scanned and no check of the
    latch came since. *)
Lemma in_file_since_scanned tl :
  phase_of tl = Some InFile →
  ∃ pre n rest, tl = pre ++ APut (EvScanned n) :: rest ∧
                Forall (λ a, ∀ b, a ≠ ACall (CIsSet b)) rest.
Proof.
  induction tl as [|a tl' IH] using rev_ind; [done|].
  rewrite phase_of_snoc. intros Hq.
  destruct (phase_of tl') as [q|] eqn:Hq'; [|done]. simpl in Hq.
  destruct (decide (q = InFile)) as [->|Hne].
  - destruct (IH eq_refl) as (pre & n & rest & -> & Hrest).
    exists pre, n, (rest ++ [a]). split; [by rewrite <- app_assoc|].
    apply Forall_app. split; [done|]. constructor; [|done].
    intros b ->. by destruct b.
  - assert (∃ n, a = APut (EvScanned n)) as [n ->].
    { destruct a as [[[|]| | | | | | | | | | | | |]|[]|]; destruct q;
        try done; by eexists. }
    exists tl', n, []. split; [done|constructor].
Qed.

Lemma stopped_only_checks (l : list Action) :
  is_Some (foldl (λ oq a, q ← oq; protocol_step q a) (Some Stopped) l) →
  Forall after_stop l.
Proof.
  induction l as [|a l IH]; [constructor|]. simpl.
  destruct (protocol_step Stopped a) as [q|] eqn:Hstep;
    [|rewrite stuck_stays; by intros [? ?]].
  assert (q = Stopped ∧ after_stop a) as [-> Ha].
  { unfold after_stop.
    destruct a as [[[|]| | | | | | | | | | | | |]|[]|]; simpl in Hstep;
      try done; injection Hstep as <-; eauto. }
  intros Hl. constructor; [done|]. by apply IH.
Qed.

Section Cancellation.
Context `{PyRuntime} (w : World).

Lemma is_set_phase :
hoare (scanning w) (is_set w)
  (λ r s, match r with
          | Ok true => at_phase Stopped s ∧ latched w s
          | Ok false => at_phase Armed s
          | Raise _ => False
          end).
Proof.
intros s Hs. unfold outcome, exec, is_set, ask. simpl.
destruct (latch_set w (clock s)) eqn:Hl.
- split.
  + destruct Hs as [Hq|[Hq|[Hq|[Hq _]]]];
      by apply (at_phase_call _ Stopped _ _ Hq).
  + unfold latched. simpl. eapply latch_set_mono; [done|lia].
- destruct Hs as [Hq|[Hq|[Hq|[Hq Hset]]]];
    [by apply (at_phase_call _ Armed _ _ Hq)..|].
  unfold latched in Hset. congruence.
Qed.

Lemma file_summary_phase s r s' :
file_summary s r s' → at_phase Armed s → at_phase InFile s'.
Proof.
intros (delta & Htl & Hfa & _) Hq.
eapply (at_phase_file_actions delta (record (APut (EvProgressTick 1))
          (record (APut (EvScanned (S (scanned s)))) s))).
- apply (at_phase_record InFile); [|done].
  by apply (at_phase_record Armed).
- rewrite Htl. simpl. by rewrite <- !app_assoc.
- done.
Qed.

Lemma files_loop_adb_phase device dest_root start_dt end_dt root fs :
hoare (scanning w)
  (files_loop_adb w device dest_root start_dt end_dt root fs)
  (scan_post w).
Proof.
induction fs as [|f fs IH]; simpl.
- by apply hoare_ret.
- eapply hoare_bind; [apply is_set_phase| |done].
  intros [|].
  + apply hoare_ret. intros s Hs. by right; right; right.
  + eapply hoare_bind with (R := λ _ s, at_phase InFile s).
    * intros s Hs.
      by eapply file_summary_phase; [apply process_file_adb_summary|].
    * intros []. eapply hoare_conseq; [apply IH| |done].
      intros s Hs. by right; left.
    * intros e s Hs. by right; right.
Qed.

Lemma files_loop_local_phase media_root dest_root start_dt end_dt mode root
  fs :
hoare (scanning w)
  (files_loop_local w media_root dest_root start_dt end_dt mode root fs)
  (scan_post w).
Proof.
induction fs as [|f fs IH]; simpl.
- by apply hoare_ret.
- eapply hoare_bind; [apply is_set_phase| |done].
  intros [|].
  + apply hoare_ret. intros s Hs. by right; right; right.
  + eapply hoare_bind with (R := λ _ s, at_phase InFile s).
    * intros s Hs.
      by eapply file_summary_phase; [apply process_file_local_summary|].
    * intros []. eapply hoare_conseq; [apply IH| |done].
      intros s Hs. by right; left.
    * intros e s Hs. by right; right.
Qed.

Lemma adb_listing_phase device remote_dir msg :
hoare (at_phase Probed)
  (try_except
     (let* remote_files := adb_find_files_io w device remote_dir in
      ret (Some remote_files))
     (λ e, count_error (msg e) >> ret None))
  (λ _ s, at_phase Idle s).
Proof.
intros s Hs. unfold outcome, exec, try_except, bind, adb_find_files_io, ask_r.
simpl. destruct (adb_find_files _ _ _ _) as [fs|[m|m]]; simpl.
- by apply (at_phase_call Probed).
- do 2 (apply (at_phase_record Idle); [|done]).
  by apply (at_phase_call Probed).
- by apply (at_phase_call Probed).
Qed.

Lemma subs_loop_adb_phase device dest_root start_dt end_dt root subs :
hoare (scanning w)
  (subs_loop_adb w device dest_root start_dt end_dt root subs)
  (scan_post w).
Proof.
induction subs as [|sub subs IH]; simpl.
- by apply hoare_ret.
- eapply hoare_bind; [apply is_set_phase| |done].
  intros [|].
  { apply hoare_ret. intros s Hs. by right; right; right. }
  eapply hoare_bind with (R := λ _ s, at_phase Probed s).
  + intros s Hs. by apply (at_phase_call Armed).
  + intros [|]; simpl.
    * eapply hoare_bind; [apply adb_listing_phase| |].
      -- intros [fs|].
         ++ eapply hoare_bind with (R := scan_post w); [|intros []; apply IH|done].
            eapply hoare_conseq; [apply files_loop_adb_phase| |done].
            intros s Hs. by left.
         ++ eapply hoare_conseq; [apply IH| |done]. intros s Hs. by left.
      -- intros e s Hs. by right; left.
    * eapply hoare_bind with (R := λ _ s, at_phase Idle s).
      -- intros s Hs. by apply (at_phase_record Probed).
      -- intros []. eapply hoare_conseq; [apply IH| |done].
         intros s Hs. by left.
      -- intros e s Hs. by right; left.
  + intros e s Hs. by left.
Qed.

Lemma roots_loop_adb_phase device dest_root start_dt end_dt subs roots :
hoare (scanning w)
  (roots_loop_adb w device dest_root start_dt end_dt subs roots)
  (scan_post w).
Proof.
induction roots as [|root roots IH]; simpl.
- by apply hoare_ret.
- eapply hoare_bind; [apply is_set_phase| |done].
  intros [|].
  { apply hoare_ret. intros s Hs. by right; right; right. }
  eapply hoare_bind with (R := scan_post w); [|intros []; apply IH|done].
  eapply hoare_conseq; [apply subs_loop_adb_phase| |done].
  intros s Hs. by right; right; left.
Qed.

Lemma walk_loop_local_phase media_root dest_root start_dt end_dt mode walked :
hoare (scanning w)
  (walk_loop_local w media_root dest_root start_dt end_dt mode walked)
  (scan_post w).
Proof.
induction walked as [|[root files] walked IH]; simpl.
- by apply hoare_ret.
- eapply hoare_bind; [apply is_set_phase| |done].
  intros [|].
  { apply hoare_ret. intros s Hs. by right; right; right. }
  eapply hoare_bind with (R := scan_post w); [|intros []; apply IH|done].
  eapply hoare_conseq; [apply files_loop_local_phase| |done].
  intros s Hs. by right; right; left.
Qed.

Lemma subs_loop_local_phase media_root dest_root start_dt end_dt mode subs :
hoare (scanning w)
  (subs_loop_local w media_root dest_root start_dt end_dt mode subs)
  (scan_post w).
Proof.
induction subs as [|sub subs IH]; simpl.
- by apply hoare_ret.
- eapply hoare_bind; [apply is_set_phase| |done].
  intros [|].
  { apply hoare_ret. intros s Hs. by right; right; right. }
  eapply hoare_bind with
    (R := λ r s, match r with Ok _ => at_phase Probed s | _ => False end).
  + intros s Hs. by apply (at_phase_call Armed).
  + intros [|]; simpl.
    * eapply hoare_bind with
        (R := λ r s, match r with Ok _ => at_phase Idle s | _ => False end).
      -- intros s Hs. by apply (at_phase_call Probed).
      -- intros walked. eapply hoare_bind with (R := scan_post w); [|intros []; apply IH|done].
         eapply hoare_conseq; [apply walk_loop_local_phase| |done].
         intros s Hs. by left.
      -- done.
    * eapply hoare_bind with
        (R := λ r s, match r with Ok _ => at_phase Idle s | _ => False end).
      -- intros s Hs. by apply (at_phase_record Probed).
      -- intros []. eapply hoare_conseq; [apply IH| |done].
         intros s Hs. by left.
      -- done.
  + done.
Qed.

(** The estimate stays in [Estimating]. *)
Lemma estimating_ask_r {A} (q : nat → result A) c :
(∀ r, protocol_step Estimating (ACall (c r)) = Some Estimating) →
preserves (at_phase Estimating) (ask_r q c).
Proof. intros Hc s Hs. by apply (at_phase_call Estimating). Qed.

Lemma estimating_ask {A} (q : nat → A) c :
(∀ r, protocol_step Estimating (ACall (c r)) = Some Estimating) →
preserves (at_phase Estimating) (ask q c).
Proof. intros Hc s Hs. by apply (at_phase_call Estimating). Qed.

Lemma estimating_log msg : preserves (at_phase Estimating) (put (EvLog msg)).
Proof. intros s Hs. by apply (at_phase_record Estimating). Qed.

Local Ltac estimating :=
repeat first
  [ preserves_step
  | apply estimating_ask_r; intros ?; reflexivity
  | apply estimating_ask; intros ?; reflexivity
  | apply estimating_log
  | assumption ].

Lemma find_roots_loop_estimating device cands roots :
preserves (at_phase Estimating) (find_roots_loop w device cands roots).
Proof.
revert roots. induction cands as [|c cands IH]; intros roots; simpl;
  unfold adb_path_exists_io; estimating. apply IH.
Qed.

Lemma estimate_adb_subs_estimating device root subs total :
preserves (at_phase Estimating) (estimate_adb_subs w device root subs total).
Proof.
revert total. induction subs as [|sub subs IH]; intros total; simpl;
  unfold adb_path_exists_io, adb_count_files_io; estimating; apply IH.
Qed.

Lemma estimate_adb_estimating device roots subs total :
preserves (at_phase Estimating) (estimate_adb w device roots subs total).
Proof.
revert total. induction roots as [|root roots IH]; intros total; simpl;
  estimating; [apply estimate_adb_subs_estimating | apply IH].
Qed.

Lemma estimate_local_subs_estimating media_root subs total :
preserves (at_phase Estimating)
  (estimate_local_subs w media_root subs total).
Proof.
revert total. induction subs as [|sub subs IH]; intros total; simpl;
  unfold os_path_isdir; estimating; apply IH.
Qed.

Lemma count_error_phase msg :
hoare leaves_scan (count_error msg)
  (λ _ s, follows_protocol (timeline s)).
Proof.
intros s Hs.
assert (timeline (exec (count_error msg) s)
        = timeline s ++ [APut (EvErrors (S (errors s))); APut (EvLog msg)])
  as Htl.
{ unfold exec, count_error. simpl. by rewrite <- app_assoc. }
destruct Hs as [Hq|[Hq|[Hq|Hq]]]; eexists;
  (eapply at_phase_extend; [exact Hq|exact Htl|reflexivity]).
Qed.

Lemma announce_total_phase total :
hoare (at_phase Estimating) (announce_total total)
  (λ r s, r = Ok tt ∧ scanning w s).
Proof.
intros s Hs. split; [by unfold announce_total; destruct (0 <? total)%Z|].
left. unfold announce_total.
destruct (0 <? total)%Z;
  (eapply at_phase_extend;
     [exact Hs|unfold exec; simpl; by rewrite <- app_assoc|reflexivity]).
Qed.

(** The end of both workers: the last check and the closing line. *)
Lemma closing_phase (msg : bool → string) :
hoare (scanning w)
  (let* cancelled := is_set w in put (EvLog (msg cancelled)))
  (λ r s, r = Ok tt ∧ follows_protocol (timeline s)).
Proof.
eapply hoare_bind; [apply is_set_phase| |done].
intros [|] s Hs; (split; [done|]); eexists.
- destruct Hs as [Hs _]. by apply (at_phase_record Stopped).
- by apply (at_phase_record Armed).
Qed.

Lemma worker_adb_phase device dest_root start_dt end_dt subs :
hoare (at_phase Estimating)
  (_worker_adb w device dest_root start_dt end_dt subs)
  (λ _ s, follows_protocol (timeline s)).
Proof.
unfold _worker_adb.
eapply hoare_try_except with (R := worker_post).
- eapply hoare_bind with (R := λ _ s, at_phase Estimating s).
  + apply preserves_hoare, find_roots_loop_estimating.
  + intros [|root roots].
    * intros s Hs. eexists.
      eapply at_phase_extend;
        [exact Hs|unfold exec; simpl; by rewrite <- app_assoc|reflexivity].
    * eapply hoare_bind with (R := λ _ s, at_phase Estimating s);
        [apply preserves_hoare, estimating_log| |by left].
      intros [].
      eapply hoare_bind with (R := λ _ s, at_phase Estimating s);
        [apply preserves_hoare, estimate_adb_estimating| |by left].
      intros total.
      eapply hoare_bind; [apply announce_total_phase| |by intros e s [? _]].
      intros [].
      eapply hoare_bind with (R := scan_post w).
      { eapply hoare_conseq; [apply roots_loop_adb_phase| |done].
        by intros s [_ ?]. }
      2: { intros e s Hs. by right. }
      intros [].
      eapply hoare_conseq; [apply closing_phase|done|].
      intros r s [-> Hs]. done.
  + by left.
- done.
- intros msg. apply count_error_phase.
- intros msg s [Hs|[Hs|[Hs|Hs]]]; by eexists.
Qed.

Lemma worker_local_phase source_root dest_root start_dt end_dt subs mode :
hoare (at_phase Estimating)
  (_worker_local w source_root dest_root start_dt end_dt subs mode)
  (λ _ s, follows_protocol (timeline s)).
Proof.
unfold _worker_local.
eapply hoare_try_except with (R := worker_post).
- eapply hoare_bind with (R := λ _ s, at_phase Estimating s).
  + apply preserves_hoare. unfold detect_media_root, os_path_isdir.
    apply preserves_bind; [by apply estimating_ask|].
    intros [|]; apply preserves_ret.
  + intros media_root.
    eapply hoare_bind with (R := λ _ s, at_phase Estimating s);
      [apply preserves_hoare, estimating_log| |by left].
    intros [].
    eapply hoare_bind with (R := λ _ s, at_phase Estimating s);
      [apply preserves_hoare, estimate_local_subs_estimating| |by left].
    intros total.
    eapply hoare_bind; [apply announce_total_phase| |by intros e s [? _]].
    intros [].
    eapply hoare_bind with (R := scan_post w).
    { eapply hoare_conseq; [apply subs_loop_local_phase| |done].
      by intros s [_ ?]. }
    2: { intros e s Hs. by right. }
    intros [].
    eapply hoare_conseq; [apply closing_phase|done|].
    intros r s [-> Hs]. done.
  + by left.
- done.
- intros msg. apply count_error_phase.
- intros msg s [Hs|[Hs|[Hs|Hs]]]; by eexists.
Qed.

Lemma dispatch_follows_protocol src_mode src_value dest_root start_dt end_dt
  subs mode :
follows_protocol
  (timeline (exec (_worker_dispatch w src_mode src_value dest_root start_dt
                     end_dt subs mode) init_state)).
Proof.
assert (hoare (at_phase Estimating)
          (if String.eqb src_mode "adb"
           then _worker_adb w src_value dest_root start_dt end_dt subs
           else _worker_local w src_value dest_root start_dt end_dt
                  subs mode)
          (λ _ s, follows_protocol (timeline s))) as Hw.
{ destruct (String.eqb src_mode "adb");
    [apply worker_adb_phase | apply worker_local_phase]. }
specialize (Hw init_state eq_refl).
unfold _worker_dispatch, exec, try_finally in *.
destruct (if String.eqb src_mode "adb" then _ else _) as [r s']; simpl in *.
destruct Hw as [q Hq]. unfold follows_protocol.
rewrite phase_of_app, Hq. simpl. destruct q; by eexists.
Qed.

Lemma dispatch_truthful src_mode src_value dest_root start_dt end_dt subs
  mode :
truthful w
  (exec (_worker_dispatch w src_mode src_value dest_root start_dt end_dt
           subs mode) init_state).
Proof.
assert (preserves (truthful w)
          (_worker_dispatch w src_mode src_value dest_root start_dt end_dt
             subs mode)) as Hrun.
{ unfold _worker_dispatch. apply preserves_try_finally.
  - apply worker_keeps.
    + intros c s Hc. apply truthful_call. by destruct c.
    + intros s. by apply truthful_call.
    + intros msg s. by apply truthful_record_other.
    + intros n s. by apply truthful_record_other.
    + intros s. by apply truthful_record_other.
    + intros s Hs. unfold exec, count_scanned. simpl.
      do 2 (apply truthful_record_other; [done|]).
      by apply truthful_counters.
    + intros rel mtime s Hs. unfold exec, count_matched. simpl.
      do 2 (apply truthful_record_other; [done|]).
      by apply truthful_counters.
    + intros msg s Hs. unfold exec, count_error. simpl.
      do 2 (apply truthful_record_other; [done|]).
      by apply truthful_counters.
  - intros s. by apply truthful_record_other. }
apply Hrun. split; [done|]. by intros [|??] b post E.
Qed.

Lemma loops_stop_when_latched s :
latched w s →
(∀ device dest_root start_dt end_dt subs root roots,
   stops_at_once (roots_loop_adb w device dest_root start_dt end_dt subs
                    (root :: roots)) s) ∧
(∀ device dest_root start_dt end_dt root sub subs,
   stops_at_once (subs_loop_adb w device dest_root start_dt end_dt root
                    (sub :: subs)) s) ∧
(∀ device dest_root start_dt end_dt root f fs,
   stops_at_once (files_loop_adb w device dest_root start_dt end_dt root
                    (f :: fs)) s) ∧
(∀ media_root dest_root start_dt end_dt mode sub subs,
   stops_at_once (subs_loop_local w media_root dest_root start_dt end_dt
                    mode (sub :: subs)) s) ∧
(∀ media_root dest_root start_dt end_dt mode dir walked,
   stops_at_once (walk_loop_local w media_root dest_root start_dt end_dt
                    mode (dir :: walked)) s) ∧
(∀ media_root dest_root start_dt end_dt mode root f fs,
   stops_at_once (files_loop_local w media_root dest_root start_dt end_dt
                    mode root (f :: fs)) s).
Proof.
intros Hl. unfold latched in Hl. unfold stops_at_once.
repeat split; intros; try destruct dir as [root files]; simpl;
  unfold bind at 1, is_set, ask; by rewrite Hl.
Qed.

(** C4: cancellation is cooperative.  For the timeline of a run of
  [_worker_dispatch], remote or local:
  - it follows the cancellation protocol ([protocol_step]);
  - every check of the latch in it read the latch as it was at that
    moment;
  - a file is counted as scanned only directly after a check that read
    the latch unset;
  - before a transfer call the file was counted as scanned, and no
    check of the latch lies between the two: the latch is not looked at
    while a file is processed;
  - after a check that read the latch set, the run only checks the
    latch again, reading it set, and puts the closing log line and
    [Done]: no further file is scanned, no subfolder probed or listed;
  and from a state in which the latch is set, the loop over the roots,
  the loops over the subfolders, the walked directories and the files
  do one check each and skip what remains. *)
Theorem cancellation_is_cooperative
  (src_mode src_value dest_root : string) (start_dt end_dt : datetime)
  (subfolders : list string) (mode : string) :
let tl := timeline (exec (_worker_dispatch w src_mode src_value dest_root
                            start_dt end_dt subfolders mode) init_state) in
follows_protocol tl ∧
checks_truthful w tl ∧
(∀ pre n post, tl = pre ++ APut (EvScanned n) :: post →
   ∃ pre', pre = pre' ++ [ACall (CIsSet false)]) ∧
(∀ pre a post, tl = pre ++ a :: post → is_transfer_call a = true →
   ∃ before n since, pre = before ++ APut (EvScanned n) :: since ∧
                     Forall (λ a, ∀ b, a ≠ ACall (CIsSet b)) since) ∧
(∀ pre post, tl = pre ++ ACall (CIsSet true) :: post →
   Forall after_stop post) ∧
(∀ s, latched w s →
   (∀ device subs root roots,
      stops_at_once (roots_loop_adb w device dest_root start_dt end_dt subs
                       (root :: roots)) s) ∧
   (∀ device root sub subs,
      stops_at_once (subs_loop_adb w device dest_root start_dt end_dt root
                       (sub :: subs)) s) ∧
   (∀ device root f fs,
      stops_at_once (files_loop_adb w device dest_root start_dt end_dt root
                       (f :: fs)) s) ∧
   (∀ media_root sub subs,
      stops_at_once (subs_loop_local w media_root dest_root start_dt end_dt
                       mode (sub :: subs)) s) ∧
   (∀ media_root dir walked,
      stops_at_once (walk_loop_local w media_root dest_root start_dt end_dt
                       mode (dir :: walked)) s) ∧
   (∀ media_root root f fs,
      stops_at_once (files_loop_local w media_root dest_root start_dt end_dt
                       mode root (f :: fs)) s)).
Proof.
intros tl.
pose proof (dispatch_follows_protocol src_mode src_value dest_root start_dt
              end_dt subfolders mode) as Hp. fold tl in Hp.
split; [done|]. split; [apply dispatch_truthful|].
split; [|split; [|split]].
- intros pre n post E. rewrite E in Hp.
  change (pre ++ APut (EvScanned n) :: post)
    with (pre ++ [APut (EvScanned n)] ++ post) in Hp.
  rewrite app_assoc in Hp. apply follows_protocol_prefix in Hp.
  destruct Hp as [q Hq]. rewrite phase_of_snoc in Hq.
  destruct (phase_of pre) as [q0|] eqn:Hpre; [|done].
  apply armed_after_check. rewrite Hpre. f_equal.
  simpl in Hq. by destruct q0.
- intros pre a post E Ha. rewrite E in Hp.
  change (pre ++ a :: post) with (pre ++ [a] ++ post) in Hp.
  rewrite app_assoc in Hp. apply follows_protocol_prefix in Hp.
  destruct Hp as [q Hq]. rewrite phase_of_snoc in Hq.
  destruct (phase_of pre) as [q0|] eqn:Hpre; [|done].
  apply in_file_since_scanned. rewrite Hpre. f_equal.
  simpl in Hq. destruct a as [[]|[]|]; try done; by destruct q0.
- intros pre post E. rewrite E in Hp.
  change (pre ++ ACall (CIsSet true) :: post)
    with (pre ++ [ACall (CIsSet true)] ++ post) in Hp.
  rewrite app_assoc in Hp. unfold follows_protocol in Hp.
  rewrite phase_of_app in Hp.
  destruct (phase_of (pre ++ [ACall (CIsSet true)])) as [q|] eqn:Hq;
    [|rewrite stuck_stays in Hp; by destruct Hp].
  rewrite phase_of_snoc in Hq.
  destruct (phase_of pre) as [q0|]; [|done]. simpl in Hq.
  assert (q = Stopped) as -> by (destruct q0; simpl in Hq; congruence).
  by apply stopped_only_checks.
- intros s Hs.
  destruct (loops_stop_when_latched s Hs) as (H1 & H2 & H3 & H4 & H5 & H6).
  repeat split; intros; auto.
Qed.
End Cancellation.

(** ** Validation *)

Ltac unfold_validation :=
  unfold _on_start, _validate_inputs, value_error, raise, lift;
  unfold_monad.

Section Validation.
Context `{PyRuntime} (w : World).

Local Ltac literals := cbn [String.eqb Ascii.eqb Bool.eqb negb orb andb].

Local Ltac refused :=
first [ by eexists
      | by (eexists; split; [simpl_run; reflexivity|repeat constructor]) ].

Lemma adb_move_validation_raises (f : Form) (s : AppState) :
strip (var_source_mode f) = "adb" → var_mode f = "move" →
∃ e, outcome (_validate_inputs w f) s = Raise e.
Proof.
intros Hsrc Hmode. unfold_validation. rewrite Hsrc, Hmode. literals.
destruct (String.eqb (strip (var_dest f)) EmptyString); [refused|].
destruct (bool_decide _); simpl_run;
  [|destruct (os_makedirs _ _ _); simpl_run; [|refused]];
  (destruct (parse_yyyy_mm_dd (var_start f)); [|refused]);
  (destruct (parse_yyyy_mm_dd (var_end f)); [|refused]);
  (destruct (dt_ltb _ _); [refused|]);
  (destruct ((filter _ _).*1); [refused|]); literals;
  destruct (String.eqb (strip (var_device f)) EmptyString); refused.
Qed.

Lemma adb_move_start_refused (f : Form) (s : AppState) :
strip (var_source_mode f) = "adb" → var_mode f = "move" →
∃ delta, timeline (exec (_on_start w f) s) = timeline s ++ delta ∧
         Forall (λ a, refusal_action a = true) delta.
Proof.
intros Hsrc Hmode. unfold_validation. rewrite Hsrc, Hmode. literals.
destruct (String.eqb (strip (var_dest f)) EmptyString); [refused|].
destruct (bool_decide _); simpl_run;
  [|destruct (os_makedirs _ _ _) as [[]|[?|?]]; simpl_run; [|refused..]];
  (destruct (parse_yyyy_mm_dd (var_start f)) as [?|[?|?]]; [|refused..]);
  (destruct (parse_yyyy_mm_dd (var_end f)) as [?|[?|?]]; [|refused..]);
  (destruct (dt_ltb _ _); [refused|]);
  (destruct ((filter _ _).*1); [refused|]); literals;
  destruct (String.eqb (strip (var_device f)) EmptyString); refused.
Qed.

Lemma adb_move_counters_kept (f : Form) (s : AppState) :
strip (var_source_mode f) = "adb" → var_mode f = "move" →
let s' := exec (_on_start w f) s in
scanned s' = scanned s ∧ matched s' = matched s ∧ errors s' = errors s.
Proof.
intros Hsrc Hmode. unfold_validation. rewrite Hsrc, Hmode. literals.
destruct (String.eqb (strip (var_dest f)) EmptyString); [done|].
destruct (bool_decide _); simpl_run;
  [|destruct (os_makedirs _ _ _) as [[]|[?|?]]; simpl_run; [|done..]];
  (destruct (parse_yyyy_mm_dd (var_start f)) as [?|[?|?]]; [|done..]);
  (destruct (parse_yyyy_mm_dd (var_end f)) as [?|[?|?]]; [|done..]);
  (destruct (dt_ltb _ _); [done|]);
  (destruct ((filter _ _).*1); [done|]); literals;
  destruct (String.eqb (strip (var_device f)) EmptyString); done.
Qed.

Lemma adb_move_message (f : Form) (s : AppState) start_dt end_day sub subs :
strip (var_source_mode f) = "adb" → var_mode f = "move" →
strip (var_dest f) ≠ EmptyString →
outcome (ensure_dir w (strip (var_dest f))) s = Ok tt →
parse_yyyy_mm_dd (var_start f) = Ok start_dt →
parse_yyyy_mm_dd (var_end f) = Ok end_day →
dt_ltb (replace_end_of_day end_day) start_dt = false →
(filter (λ nv, nv.2 = true) (subfolder_vars f)).*1 = sub :: subs →
strip (var_device f) ≠ EmptyString →
outcome (_validate_inputs w f) s
= Raise (Exception
    "Move mode is not supported in USB Device (ADB) mode. Use Copy.").
Proof.
intros Hsrc Hmode Hdst Hdir Hstart Hend Hrange Hsubs Hdev.
apply String.eqb_neq in Hdst, Hdev.
revert Hdir. unfold_validation.
rewrite Hsrc, Hmode, Hdst, Hstart, Hend, Hsubs. literals.
destruct (bool_decide _); simpl_run.
- intros _. by rewrite Hrange, Hdev.
- destruct (os_makedirs _ _ _); simpl_run; [|done].
  intros _. by rewrite Hrange, Hdev.
Qed.

(** C6: when the form asks for move mode and the USB device (ADB)
  source, [_validate_inputs] raises, whatever else the form holds;
  [_on_start] then does nothing but the directory check of the
  destination and the error box: no device-bridge call, no thread, no
  event, and the counters keep their values.  When nothing else is wrong
  with the form, the exception is the [ValueError] about move mode. *)
Theorem move_mode_with_adb_is_refused (f : Form) (s : AppState) :
strip (var_source_mode f) = "adb" → var_mode f = "move" →
(∃ e, outcome (_validate_inputs w f) s = Raise e) ∧
(∃ delta, timeline (exec (_on_start w f) s) = timeline s ++ delta ∧
          Forall (λ a, refusal_action a = true) delta) ∧
(let s' := exec (_on_start w f) s in
 scanned s' = scanned s ∧ matched s' = matched s ∧ errors s' = errors s) ∧
(∀ start_dt end_day sub subs,
   strip (var_dest f) ≠ EmptyString →
   outcome (ensure_dir w (strip (var_dest f))) s = Ok tt →
   parse_yyyy_mm_dd (var_start f) = Ok start_dt →
   parse_yyyy_mm_dd (var_end f) = Ok end_day →
   dt_ltb (replace_end_of_day end_day) start_dt = false →
   (filter (λ nv, nv.2 = true) (subfolder_vars f)).*1 = sub :: subs →
   strip (var_device f) ≠ EmptyString →
   outcome (_validate_inputs w f) s
   = Raise (Exception
       "Move mode is not supported in USB Device (ADB) mode. Use Copy.")).
Proof.
intros Hsrc Hmode. repeat split.
- by apply adb_move_validation_raises.
- by apply adb_move_start_refused.
- by apply adb_move_counters_kept.
- by apply adb_move_counters_kept.
- by apply adb_move_counters_kept.
- intros. by eapply adb_move_message.
Qed.
End Validation.

Section ValidationSideEffect.
Context `{PyRuntime} (w : World).

Local Ltac literals := cbn [String.eqb Ascii.eqb Bool.eqb negb orb andb].

Local Ltac only_isdir :=
first [ by (exists []; split; [simpl_run; reflexivity|constructor])
      | by (eexists [_]; split; [simpl_run; reflexivity|];
            repeat constructor; by eexists _, _) ].

Lemma ensure_dir_comes_first (f : Form) (s : AppState) :
let dst := strip (var_dest f) in
let found := bool_decide (dst ∈ fs_paths w (clock s)) in
let made := os_makedirs w (S (clock s)) dst in
strip (var_source_mode f) = "adb" ∨ strip (var_source_mode f) = "local" →
dst ≠ EmptyString →
∃ rest,
  timeline (exec (_validate_inputs w f) s)
  = timeline s ++ ACall (CExists dst found)
      :: (if found then [] else [ACall (CMakedirs dst made)]) ++ rest ∧
  Forall (λ a, ∃ p b, a = ACall (CIsDir p b)) rest.
Proof.
intros dst found made Hsrc Hdst. subst dst found made.
apply String.eqb_neq in Hdst.
unfold_validation. rewrite Hdst.
destruct Hsrc as [-> | ->]; literals.
- destruct (bool_decide _); simpl_run;
    [|destruct (os_makedirs _ _ _) as [[]|[?|?]]; simpl_run; [|only_isdir..]];
    (destruct (parse_yyyy_mm_dd (var_start f)) as [?|[?|?]]; [|only_isdir..]);
    (destruct (parse_yyyy_mm_dd (var_end f)) as [?|[?|?]]; [|only_isdir..]);
    (destruct (dt_ltb _ _); [only_isdir|]);
    (destruct ((filter _ _).*1); [only_isdir|]);
    (destruct (_ || _); simpl_run; [|only_isdir]);
    (destruct (String.eqb (strip (var_device f)) EmptyString); [only_isdir|]);
    destruct (String.eqb (var_mode f) "move"); only_isdir.
- destruct (bool_decide _); simpl_run;
    [|destruct (os_makedirs _ _ _) as [[]|[?|?]]; simpl_run; [|only_isdir..]];
    (destruct (parse_yyyy_mm_dd (var_start f)) as [?|[?|?]]; [|only_isdir..]);
    (destruct (parse_yyyy_mm_dd (var_end f)) as [?|[?|?]]; [|only_isdir..]);
    (destruct (dt_ltb _ _); [only_isdir|]);
    (destruct ((filter _ _).*1); [only_isdir|]);
    (destruct (_ || _); simpl_run; [|only_isdir]);
    (destruct (String.eqb (strip (var_source_folder f)) EmptyString); simpl_run;
     [only_isdir|]);
    destruct (os_isdir _ _ _); simpl_run; only_isdir.
Qed.

Lemma rejected_after_creating (f : Form) (s : AppState) :
let dst := strip (var_dest f) in
let r := outcome (_validate_inputs w f) s in
strip (var_source_mode f) = "adb" ∨ strip (var_source_mode f) = "local" →
dst ≠ EmptyString →
dst ∉ fs_paths w (clock s) →
os_makedirs w (S (clock s)) dst = Ok tt →
(∀ e, parse_yyyy_mm_dd (var_start f) = Raise e → r = Raise e) ∧
(∀ d e, parse_yyyy_mm_dd (var_start f) = Ok d →
        parse_yyyy_mm_dd (var_end f) = Raise e → r = Raise e) ∧
(∀ d1 d2, parse_yyyy_mm_dd (var_start f) = Ok d1 →
          parse_yyyy_mm_dd (var_end f) = Ok d2 →
          dt_ltb (replace_end_of_day d2) d1 = true →
          r = Raise (Exception
                "End date must be the same as or later than start date.")) ∧
(∀ d1 d2, parse_yyyy_mm_dd (var_start f) = Ok d1 →
          parse_yyyy_mm_dd (var_end f) = Ok d2 →
          dt_ltb (replace_end_of_day d2) d1 = false →
          (filter (λ nv, nv.2 = true) (subfolder_vars f)).*1 = [] →
          r = Raise (Exception
                "Please select at least one subfolder to scan.")) ∧
(strip (var_source_mode f) = "adb" → var_mode f = "move" →
 ∃ e, r = Raise e).
Proof.
intros dst r Hsrc Hdst Hfree Hmade. subst r.
split; [|split; [|split; [|split]]];
  [..|intros; by apply adb_move_validation_raises];
  subst dst; apply String.eqb_neq in Hdst.
- intros e He. unfold_validation. rewrite Hdst.
  destruct Hsrc as [-> | ->]; literals;
    (destruct (bool_decide _) eqn:E; [by apply bool_decide_eq_true in E|]);
    simpl_run; by rewrite Hmade, He.
- intros d e Hd He. unfold_validation. rewrite Hdst.
  destruct Hsrc as [-> | ->]; literals;
    (destruct (bool_decide _) eqn:E; [by apply bool_decide_eq_true in E|]);
    simpl_run; by rewrite Hmade, Hd, He.
- intros d1 d2 H1 H2 Hlt. unfold_validation. rewrite Hdst.
  destruct Hsrc as [-> | ->]; literals;
    (destruct (bool_decide _) eqn:E; [by apply bool_decide_eq_true in E|]);
    simpl_run; by rewrite Hmade, H1, H2, Hlt.
- intros d1 d2 H1 H2 Hlt Hnone. unfold_validation. rewrite Hdst.
  destruct Hsrc as [-> | ->]; literals;
    (destruct (bool_decide _) eqn:E; [by apply bool_decide_eq_true in E|]);
    simpl_run; by rewrite Hmade, H1, H2, Hlt, Hnone.
Qed.

(** C10: [_validate_inputs] runs [ensure_dir] on the destination before
  it reads the dates, the subfolder selection, the mode and the device
  or source folder.  For a form with a valid source type and a
  destination that is not empty, the first actions of the validation
  are the existence check of the destination and, if it does not exist,
  [os.makedirs] on it; all that can follow is the [isdir] check of the
  source folder.  When the destination did not exist and was created,
  the validation still raises for an unparsable start or end date, an
  inverted range, an empty subfolder selection, and move mode with
  ADB: the directory has been created although the request is
  refused. *)
Theorem validation_creates_destination_first (f : Form) (s : AppState) :
let dst := strip (var_dest f) in
let found := bool_decide (dst ∈ fs_paths w (clock s)) in
let made := os_makedirs w (S (clock s)) dst in
let r := outcome (_validate_inputs w f) s in
strip (var_source_mode f) = "adb" ∨ strip (var_source_mode f) = "local" →
dst ≠ EmptyString →
(∃ rest,
   timeline (exec (_validate_inputs w f) s)
   = timeline s ++ ACall (CExists dst found)
       :: (if found then [] else [ACall (CMakedirs dst made)]) ++ rest ∧
   Forall (λ a, ∃ p b, a = ACall (CIsDir p b)) rest) ∧
(dst ∉ fs_paths w (clock s) → made = Ok tt →
 (∀ e, parse_yyyy_mm_dd (var_start f) = Raise e → r = Raise e) ∧
 (∀ d e, parse_yyyy_mm_dd (var_start f) = Ok d →
         parse_yyyy_mm_dd (var_end f) = Raise e → r = Raise e) ∧
 (∀ d1 d2, parse_yyyy_mm_dd (var_start f) = Ok d1 →
           parse_yyyy_mm_dd (var_end f) = Ok d2 →
           dt_ltb (replace_end_of_day d2) d1 = true →
           r = Raise (Exception
                 "End date must be the same as or later than start date.")) ∧
 (∀ d1 d2, parse_yyyy_mm_dd (var_start f) = Ok d1 →
           parse_yyyy_mm_dd (var_end f) = Ok d2 →
           dt_ltb (replace_end_of_day d2) d1 = false →
           (filter (λ nv, nv.2 = true) (subfolder_vars f)).*1 = [] →
           r = Raise (Exception
                 "Please select at least one subfolder to scan.")) ∧
 (strip (var_source_mode f) = "adb" → var_mode f = "move" →
  ∃ e, r = Raise e)).
Proof.
intros dst found made r Hsrc Hdst. split.
- by apply ensure_dir_comes_first.
- intros Hfree Hmade. by apply rejected_after_creating.
Qed.
End ValidationSideEffect.

(** ** The local estimate *)






Section Estimate.
Context `{PyRuntime} (w : World).











End Estimate.

(** * Further properties *)

(** ** Strings *)

Lemma append_cons (a : ascii) (s t : string) :
  String a s +:+ t = String a (s +:+ t).
Proof. reflexivity. Qed.

Lemma append_nil_l (t : string) : EmptyString +:+ t = t.
Proof. reflexivity. Qed.

Lemma append_nil_r (s : string) : s +:+ EmptyString = s.
Proof.
  induction s as [|a s IH]; [done|]. by rewrite append_cons, IH.
Qed.

Lemma append_assoc (s t u : string) : (s +:+ t) +:+ u = s +:+ (t +:+ u).
Proof.
  induction s as [|a s IH]; [done|]. by rewrite !append_cons, IH.
Qed.

Lemma string_rev_app_append (s u : string) :
  String.rev_app s u = String.rev s +:+ u.
Proof.
  unfold String.rev. revert u.
  induction s as [|a s IH]; intros u; simpl; [done|].
  rewrite (IH (String a u)), (IH (String a EmptyString)), append_assoc. done.
Qed.

Lemma string_rev_cons (a : ascii) (s : string) :
  String.rev (String a s) = String.rev s +:+ String a EmptyString.
Proof. unfold String.rev at 1. simpl. apply string_rev_app_append. Qed.

Lemma string_rev_app_twice (s u v : string) :
  String.rev_app (String.rev_app s u) v = String.rev_app u (s +:+ v).
Proof.
  revert u. induction s as [|a s IH]; intros u; simpl; [done|].
  by rewrite IH.
Qed.

Lemma string_rev_involutive (s : string) : String.rev (String.rev s) = s.
Proof. unfold String.rev. rewrite string_rev_app_twice. simpl. apply append_nil_r. Qed.

Lemma string_rev_snoc (a : ascii) (s : string) :
  String.rev (s +:+ String a EmptyString) = String a (String.rev s).
Proof.
  rewrite <- (string_rev_involutive (String a (String.rev s))).
  by rewrite string_rev_cons, string_rev_involutive.
Qed.

Lemma lstrip_head (s : string) (a : ascii) (t : string) :
  lstrip s = String a t → py_isspace a = false.
Proof.
  induction s as [|c s IH]; simpl; [done|].
  destruct (py_isspace c) eqn:Hc; [done|]. intros [= <- _]. done.
Qed.

Lemma lstrip_idemp (s : string) : lstrip (lstrip s) = lstrip s.
Proof.
  induction s as [|c s IH]; simpl; [done|].
  destruct (py_isspace c) eqn:Hc; [done|]. simpl. by rewrite Hc.
Qed.

Lemma lstrip_snoc (s : string) (a : ascii) :
  py_isspace a = false →
  lstrip (s +:+ String a EmptyString) = lstrip s +:+ String a EmptyString.
Proof.
  intros Ha. induction s as [|c s IH].
  - rewrite append_nil_l. simpl. by rewrite Ha.
  - rewrite append_cons. simpl. by destruct (py_isspace c).
Qed.

Lemma strip_stripped (s : string) : stripped (strip s).
Proof.
  unfold stripped, strip. rewrite string_rev_involutive, lstrip_idemp.
  split; [|done].
  destruct (lstrip s) as [|a t] eqn:Hs; [done|].
  pose proof (lstrip_head _ _ _ Hs) as Ha.
  rewrite string_rev_cons, lstrip_snoc, string_rev_snoc by done. simpl. by rewrite Ha.
Qed.

Lemma stripped_strip (s : string) : stripped s → strip s = s.
Proof.
  intros [Hl Hr]. unfold strip. by rewrite Hl, Hr, string_rev_involutive.
Qed.

Lemma strip_idemp (s : string) : strip (strip s) = strip s.
Proof. apply stripped_strip, strip_stripped. Qed.

Lemma no_space_append (s t : string) :
  no_space (s +:+ t) = no_space s && no_space t.
Proof.
  induction s as [|c s IH]; [done|].
  rewrite append_cons. simpl. by rewrite IH, andb_assoc.
Qed.

Lemma no_space_rev (s : string) : no_space (String.rev s) = no_space s.
Proof.
  induction s as [|c s IH]; [done|].
  rewrite string_rev_cons, no_space_append, IH. simpl.
  rewrite andb_true_r. apply andb_comm.
Qed.

Lemma no_space_lstrip (s : string) : no_space s = true → lstrip s = s.
Proof.
  destruct s as [|c s]; simpl; [done|].
  by destruct (py_isspace c).
Qed.

Lemma no_space_strip (s : string) : no_space s = true → strip s = s.
Proof.
  intros Hs. apply stripped_strip. split.
  - by apply no_space_lstrip.
  - apply no_space_lstrip. by rewrite no_space_rev.
Qed.

(** The runs that [str.split] reports are not empty and hold no white
    space. *)
Lemma split_runs_tokens (s cur t : string) :
  no_space cur = true → t ∈ split_runs cur s →
  t ≠ EmptyString ∧ no_space t = true.
Proof.
  revert cur. induction s as [|c s IH]; intros cur Hcur; simpl.
  - destruct cur; [by intros ?%elem_of_nil|].
    intros ->%list_elem_of_singleton. done.
  - destruct (py_isspace c) eqn:Hc.
    + destruct cur.
      * by apply IH.
      * intros [->|Ht]%elem_of_cons; [done|]. by apply (IH EmptyString).
    + apply IH. rewrite no_space_append, Hcur. simpl. by rewrite Hc.
Qed.

Lemma split_tokens (s t : string) :
  t ∈ split s → t ≠ EmptyString ∧ strip t = t.
Proof.
  intros Ht. apply split_runs_tokens in Ht as [? ?]; [|done].
  split; [done|]. by apply no_space_strip.
Qed.

(** ** Decimal numerals *)

Lemma digit_val_pretty_N_char (d : N) :
  (d < 10)%N → Posix.digit_val (pretty_N_char d) = Some (Z.of_N d).
Proof.
  intros Hd.
  assert (d = 0 ∨ d = 1 ∨ d = 2 ∨ d = 3 ∨ d = 4 ∨ d = 5 ∨ d = 6 ∨ d = 7
          ∨ d = 8 ∨ d = 9)%N as Hcases by lia.
  repeat (destruct Hcases as [->|Hcases]; [reflexivity|]).
  by subst d.
Qed.

Lemma py_isspace_pretty_N_char (d : N) : py_isspace (pretty_N_char d) = false.
Proof. unfold pretty_N_char. by repeat case_match. Qed.

Lemma pretty_N_go_append (x : N) (s : string) :
  pretty_N_go x s = pretty_N_go x EmptyString +:+ s.
Proof.
  revert s. induction (N.lt_wf_0 x) as [x _ IH]; intros s.
  assert (x = 0 ∨ 0 < x)%N as [->|Hx] by lia; [done|].
  rewrite !(pretty_N_go_step x) by done.
  pose proof (N.div_lt x 10 Hx eq_refl) as Hlt.
  rewrite (IH _ Hlt (String _ s)), (IH _ Hlt (String _ EmptyString)).
  by rewrite append_assoc.
Qed.

(** The numeral of [x] ends with the digit of [x mod 10]. *)
Lemma pretty_N_last (x : N) :
  ∃ front, pretty x = front +:+ String (pretty_N_char (x `mod` 10)) EmptyString.
Proof.
  unfold pretty, pretty_N. case_decide as Hx.
  - subst x. by exists EmptyString.
  - rewrite pretty_N_go_step by lia. rewrite pretty_N_go_append. eauto.
Qed.

Lemma no_space_pretty_N_go (x : N) (s : string) :
  no_space (pretty_N_go x s) = no_space s.
Proof.
  revert s. induction (N.lt_wf_0 x) as [x _ IH]; intros s.
  assert (x = 0 ∨ 0 < x)%N as [->|Hx] by lia; [done|].
  rewrite pretty_N_go_step, IH by (done || by apply N.div_lt).
  simpl. by rewrite py_isspace_pretty_N_char.
Qed.

Lemma no_space_pretty_N (x : N) : no_space (pretty x) = true.
Proof.
  unfold pretty, pretty_N. case_decide; [done|].
  by rewrite no_space_pretty_N_go.
Qed.

Lemma int_digits_pretty_N_go (x : N) (s : string) :
  (0 < x)%N →
  int_digits false 0 (pretty_N_go x s) = int_digits true (Z.of_N x) s ∧
  ∃ d t, (d < 10)%N ∧ pretty_N_go x s = String (pretty_N_char d) t.
Proof.
  revert s. induction (N.lt_wf_0 x) as [x _ IH]; intros s Hx.
  rewrite pretty_N_go_step by done.
  destruct (N.eq_0_gt_0_cases (x `div` 10)%N) as [Hq|Hq].
  - rewrite Hq, pretty_N_go_0. simpl.
    rewrite digit_val_pretty_N_char by (by apply N.mod_lt).
    split.
    + f_equal. pose proof (N.div_mod x 10). lia.
    + eexists _, _. split; [|done]. by apply N.mod_lt.
  - destruct (IH (x `div` 10)%N (N.div_lt x 10 Hx eq_refl)
                (String (pretty_N_char (x `mod` 10)) s) Hq) as [-> Hhead].
    split; [|done]. simpl.
    rewrite digit_val_pretty_N_char by (by apply N.mod_lt).
    f_equal. pose proof (N.div_mod x 10). lia.
Qed.

Lemma pretty_N_char_not_sign (d : N) :
  pretty_N_char d ≠ "+"%char ∧ pretty_N_char d ≠ "-"%char.
Proof. unfold pretty_N_char. by repeat case_match. Qed.

Lemma count_digits_pretty_N_go (x : N) (s : string) :
  count_digits s = String.length s →
  count_digits (pretty_N_go x s) = String.length (pretty_N_go x s).
Proof.
  revert s. induction (N.lt_wf_0 x) as [x _ IH]; intros s Hs.
  assert (x = 0 ∨ 0 < x)%N as [->|Hx] by lia; [done|].
  rewrite pretty_N_go_step by done.
  apply IH; [by apply N.div_lt|]. simpl.
  rewrite digit_val_pretty_N_char by (by apply N.mod_lt). by rewrite Hs.
Qed.

(** A numeral has as many digits as characters. *)
Lemma count_digits_pretty_N (x : N) :
  count_digits (pretty x) = String.length (pretty x).
Proof.
  unfold pretty, pretty_N. case_decide; [done|].
  by apply count_digits_pretty_N_go.
Qed.

(** [int] reads a decimal numeral back, with white space around it or
    without, unless the numeral has more digits than [int] converts. *)
Lemma py_int_pretty_N (max_str_digits : nat) (x : N) (s : string) :
  strip s = pretty x →
  py_int max_str_digits s
  = if exceeds_max_str_digits max_str_digits (String.length (pretty x))
    then None else Some (Z.of_N x).
Proof.
  unfold py_int. intros ->.
  assert (int_magnitude max_str_digits (pretty x)
          = if exceeds_max_str_digits max_str_digits
                 (String.length (pretty x))
            then None else Some (Z.of_N x)) as <-.
  { unfold int_magnitude. rewrite count_digits_pretty_N.
    replace (int_digits false 0 (pretty x)) with (Some (Z.of_N x)); [done|].
    unfold pretty, pretty_N. case_decide as Hx; [by subst x|].
    destruct (int_digits_pretty_N_go x EmptyString) as [-> _]; [lia|done]. }
  assert (∃ d t, (d < 10)%N ∧ pretty x = String (pretty_N_char d) t)
    as (d & t & Hd & ->).
  { unfold pretty, pretty_N. case_decide as Hx; [by exists 0%N, EmptyString|].
    destruct (int_digits_pretty_N_go x EmptyString) as [_ Hhead]; [lia|done]. }
  destruct (pretty_N_char_not_sign d) as [Hplus Hminus].
  destruct (pretty_N_char d) as [[] [] [] [] [] [] [] []]; try done.
Qed.

Lemma endswith_snoc (c a : ascii) (front : string) :
  endswith (String c EmptyString) (front +:+ String a EmptyString) = bool_decide (c = a).
Proof.
  unfold endswith. rewrite string_rev_snoc. simpl.
  destruct (ascii_dec c a), (bool_decide_reflect (c = a)); try done.
  by destruct (String.rev front).
Qed.

(** A numeral ends with the digit 0 exactly if the number is a multiple
    of ten. *)
Lemma endswith_0_pretty_N (x : N) :
  endswith "0" (pretty x) = bool_decide (x `mod` 10 = 0)%N.
Proof.
  destruct (pretty_N_last x) as [front ->]. rewrite endswith_snoc.
  pose proof (N.mod_lt x 10) as Hd.
  apply bool_decide_ext. split.
  - intros Hc. symmetry.
    apply (pretty_N_char_inj 0 (x `mod` 10)); [done|lia|done].
  - by intros ->.
Qed.

(** ** The device helpers *)

Section DeviceHelpers.
Variable subprocess_run : list string → result CompletedProcess.
Variable int_max_str_digits : nat.

Lemma devices_loop_omap (lines devices : list string) :
Adb.devices_loop lines devices
= devices ++ omap Adb.device_of_line lines.
Proof.
revert devices. induction lines as [|line lines IH]; intros devices; simpl.
- by rewrite app_nil_r.
- rewrite IH. destruct (Adb.device_of_line line); [|done].
  by rewrite <- app_assoc.
Qed.

Lemma device_of_line_Some (line serial : string) :
Adb.device_of_line line = Some serial
↔ ∃ rest, split (strip line) = serial :: "device" :: rest.
Proof.
unfold Adb.device_of_line. split.
- destruct (split (strip line)) as [|a [|b rest]]; [done..|].
  destruct (String.eqb_spec b "device") as [->|]; [|done].
  intros [= ->]. by exists rest.
- intros [rest ->]. done.
Qed.

Lemma listed_serial_iff (p : CompletedProcess) (serial : string) :
serial ∈ Adb.devices_loop (drop 1 (splitlines (strip (stdout p)))) []
↔ ∃ line rest, line ∈ drop 1 (splitlines (strip (stdout p))) ∧
               split (strip line) = serial :: "device" :: rest.
Proof.
rewrite devices_loop_omap. simpl. rewrite list_elem_of_omap. split.
- intros (line & Hline & (rest & Hs)%device_of_line_Some). eauto.
- intros (line & rest & Hline & Hs). exists line. split; [done|].
  apply device_of_line_Some. eauto.
Qed.

Lemma listed_serial_stripped (adb : string) (devices : list string)
  (serial : string) :
Adb.adb_list_devices subprocess_run adb = Ok devices →
serial ∈ devices → serial ≠ EmptyString ∧ strip serial = serial.
Proof.
unfold Adb.adb_list_devices, Adb.adb_run.
destruct (subprocess_run [adb; "devices"]) as [p|e]; [|done].
destruct (negb _); [done|]. intros [= <-].
intros (line & rest & _ & Hs)%listed_serial_iff.
apply (split_tokens (strip line)). rewrite Hs. left.
Qed.

(** X1: when [adb_list_devices] returns, [adb devices] ended with code 0,
  and a serial is in the list exactly if some line of the stripped
  output other than the first has it as first field and [device] as
  second field (a line with another state, such as [unauthorized] or
  [offline], and the first line give no serial).  Every serial of the
  list is non-empty and has no white space around it, so the [strip] of
  [_validate_inputs] leaves it as it is. *)
Theorem adb_list_devices_serials (adb : string) (devices : list string) :
Adb.adb_list_devices subprocess_run adb = Ok devices →
∃ p, subprocess_run [adb; "devices"] = Ok p ∧ returncode p = 0%Z ∧
  (∀ serial, serial ∈ devices ↔
     ∃ line rest, line ∈ drop 1 (splitlines (strip (stdout p))) ∧
                  split (strip line) = serial :: "device" :: rest) ∧
  (∀ serial, serial ∈ devices → serial ≠ EmptyString ∧ strip serial = serial).
Proof.
intros Hlist. pose proof (listed_serial_stripped adb devices) as Hs.
revert Hlist Hs. unfold Adb.adb_list_devices, Adb.adb_run.
destruct (subprocess_run [adb; "devices"]) as [p|e]; [|done].
destruct (Z.eqb_spec (returncode p) 0) as [Hcode|]; [|done].
simpl. intros [= <-] Hs. exists p. split; [done|]. split; [done|].
split; [apply listed_serial_iff|]. intros serial. by apply Hs.
Qed.

(** X2: when [adb_find_files] returns, a path is in the list exactly if
  it is the [strip] of a line of the output of [find] and is not empty;
  so no path of the list is empty or has white space around it, and
  there are at most as many paths as lines. *)
Theorem adb_find_files_paths (adb device remote_dir : string)
  (remote_files : list string) :
Adb.adb_find_files subprocess_run adb device remote_dir = Ok remote_files →
∃ out,
  Adb.adb_shell_sh subprocess_run adb device
    ("find " +:+ Adb.quoted (replace_dquote remote_dir)
     +:+ " -type f 2>/dev/null") = Ok out ∧
  (∀ f, f ∈ remote_files ↔
        f ≠ EmptyString ∧ ∃ line, line ∈ splitlines out ∧ f = strip line) ∧
  (∀ f, f ∈ remote_files → strip f = f) ∧
  length remote_files ≤ length (splitlines out).
Proof.
unfold Adb.adb_find_files.
destruct (Adb.adb_shell_sh _ _ _ _) as [out|e]; [|done].
intros [= <-]. exists out. split; [done|].
assert (∀ f, f ∈ strip <$> filter (λ line, strip line ≠ EmptyString) (splitlines out)
             ↔ f ≠ EmptyString ∧ ∃ line, line ∈ splitlines out ∧ f = strip line)
  as Hin.
{ intros f. rewrite list_elem_of_fmap. split.
  - intros (line & -> & [Hne Hline]%list_elem_of_filter). eauto.
  - intros (Hne & line & Hline & ->). exists line. split; [done|].
    by apply list_elem_of_filter. }
split; [done|]. split.
- intros f (_ & line & _ & ->)%Hin. apply strip_idemp.
- rewrite length_fmap. apply length_filter.
Qed.

(** X3: [adb_count_files] raises only if running the shell command
  does.  Whatever the command prints, the function returns: when the
  output is the decimal numeral of a number, with or without white
  space around it, that number, or 0 if the numeral has more digits
  than [int] converts (more than 640 and more than the limit of the
  interpreter, if it has one); and 0 whenever [int] refuses the
  output. *)
Theorem adb_count_files_reads_count (adb device remote_dir : string)
  (out : string) :
Adb.adb_shell_sh subprocess_run adb device
  ("find " +:+ Adb.quoted (replace_dquote remote_dir)
   +:+ " -type f 2>/dev/null | wc -l") = Ok out →
(∃ n, Adb.adb_count_files subprocess_run int_max_str_digits adb device
        remote_dir = Ok n) ∧
(∀ x : N, strip out = pretty x →
   Adb.adb_count_files subprocess_run int_max_str_digits adb device
     remote_dir
   = Ok (if exceeds_max_str_digits int_max_str_digits
              (String.length (pretty x))
         then 0%Z else Z.of_N x)) ∧
(py_int int_max_str_digits (strip out) = None →
   Adb.adb_count_files subprocess_run int_max_str_digits adb device
     remote_dir = Ok 0%Z).
Proof.
unfold Adb.adb_count_files. intros ->. repeat split.
- destruct (py_int _ _); eauto.
- intros x Hx. rewrite (py_int_pretty_N _ x) by (by rewrite strip_idemp).
  by destruct (exceeds_max_str_digits _ _).
- by intros ->.
Qed.

(** X4: when the shell command returns, [adb_stat_mtime_epoch] gives
  the number that [stat] printed, read back from its decimal numeral
  with or without white space around it, unless the numeral has more
  digits than [int] converts (more than 640 and more than the limit of
  the interpreter, if it has one); then, and whenever [int] refuses
  the output, it raises the [ValueError] of [int], an [Exception], the
  kind that the [except] clauses of the workers catch. *)
Theorem adb_stat_mtime_epoch_reads_epoch (int_value_error : string → string)
  (adb device remote_path : string) (out : string) :
Adb.adb_shell_sh subprocess_run adb device
  ("toybox stat -c %Y " +:+ Adb.quoted (replace_dquote remote_path)
   +:+ " 2>/dev/null || stat -c %Y "
   +:+ Adb.quoted (replace_dquote remote_path)) = Ok out →
(∀ x : N, strip out = pretty x →
   Adb.adb_stat_mtime_epoch subprocess_run int_max_str_digits
     int_value_error adb device remote_path
   = if exceeds_max_str_digits int_max_str_digits
          (String.length (pretty x))
     then Raise (Exception (int_value_error (strip out)))
     else Ok (Z.of_N x)) ∧
(py_int int_max_str_digits (strip out) = None →
   Adb.adb_stat_mtime_epoch subprocess_run int_max_str_digits
     int_value_error adb device remote_path
   = Raise (Exception (int_value_error (strip out)))).
Proof.
unfold Adb.adb_stat_mtime_epoch. intros ->. split.
- intros x Hx. rewrite (py_int_pretty_N _ x) by (by rewrite strip_idemp).
  by destruct (exceeds_max_str_digits _ _).
- by intros ->.
Qed.

(** X5: [adb_path_exists] answers by the last character of what the
  device printed for [echo $?]: when that is the decimal numeral of the
  exit status of [ls], the answer is [True] exactly if the status is a
  multiple of ten (0 among them), so a status of 1 or 2 reads as
  missing. *)
Theorem adb_path_exists_reads_status (adb device remote_path : string)
  (out : string) (status : N) :
Adb.adb_shell_sh subprocess_run adb device
  ("ls " +:+ Adb.quoted (replace_dquote remote_path)
   +:+ " >/dev/null 2>&1; echo $?") = Ok out →
strip out = pretty status →
Adb.adb_path_exists subprocess_run adb device remote_path
= Ok (bool_decide (status `mod` 10 = 0)%N).
Proof.
unfold Adb.adb_path_exists. intros -> ->.
by rewrite endswith_0_pretty_N.
Qed.

End DeviceHelpers.

(** ** The device list of the window *)

Section RefreshDevices.
Variable strftime_now : nat → string.
Variable adb : string.
Variable subprocess_run : list string → result CompletedProcess.

(** X6: after [_refresh_devices], however [adb devices] went: either no
  device is selected and the list of the combobox is empty, or the
  selected device is one of the list, is not empty and has no white
  space around it; a device that was selected before and is still
  listed stays selected.  One line is added to the log. *)
Theorem refresh_devices_selection (win : Window.Widgets) :
let run := Window._refresh_devices strftime_now adb subprocess_run win in
run.1 = Ok tt →
((Window.var_device run.2 = EmptyString ∧ Window.cmb_device run.2 = [])
 ∨ (Window.var_device run.2 ∈ Window.cmb_device run.2 ∧
    Window.var_device run.2 ≠ EmptyString ∧
    strip (Window.var_device run.2) = Window.var_device run.2)) ∧
(Window.var_device win ∈ Window.cmb_device run.2 →
 Window.var_device run.2 = Window.var_device win) ∧
Window.logged run.2 = S (Window.logged win).
Proof.
unfold Window._refresh_devices.
destruct (Adb.adb_list_devices subprocess_run adb) as [devices|[msg|msg]]
  eqn:Hlist; simpl; [| |done].
- destruct devices as [|first rest]; simpl.
  + intros _. split; [by left|]. split; [|done]. by intros ?%elem_of_nil.
  + intros _.
    pose proof (λ serial,
      listed_serial_stripped subprocess_run adb _ serial Hlist) as Hserial.
    clear Hlist.
    destruct (bool_decide_reflect
                (Window.var_device win ∈ first :: rest)) as [Hin|Hin];
      simpl.
    * split; [|done]. right. split; [done|]. by apply Hserial.
    * split; [|done]. right. split; [left|]. apply Hserial. left.
- intros _. split; [by left|]. split; [|done]. by intros ?%elem_of_nil.
Qed.

End RefreshDevices.

(** ** The window and the queue *)

Section WindowEvents.
Variable strftime_now : nat → string.

Lemma process_app app q1 q2 win :
Window._process_ui_queue strftime_now app (q1 ++ q2) win
= Window._process_ui_queue strftime_now app q2
    (Window._process_ui_queue strftime_now app q1 win).
Proof. revert win. induction q1 as [|e q1 IH]; intros win; simpl; auto. Qed.



Lemma label_after_cons prefix n l before :
label_after prefix (n :: l) before
= label_after prefix l (prefix +:+ pretty n).
Proof.
unfold label_after. destruct l as [|m l]; [done|].
change (last (n :: m :: l)) with (last (m :: l)).
destruct (last (m :: l)) eqn:Hl; [done|]. by apply last_None in Hl.
Qed.

Lemma process_labels app q win :
let win' := Window._process_ui_queue strftime_now app q win in
Window.lbl_scanned win'
= label_after "Scanned: " (scanned_values q) (Window.lbl_scanned win) ∧
Window.lbl_matched win'
= label_after "Exported: " (matched_values q) (Window.lbl_matched win) ∧
Window.lbl_errors win'
= label_after "Errors: " (errors_values q) (Window.lbl_errors win).
Proof.
revert win. induction q as [|e q IH]; intros win; [done|].
simpl.
destruct (IH (Window._handle_ui_event strftime_now app e win))
  as (Hs & Hm & He).
rewrite Hs, Hm, He.
destruct e; simpl; rewrite ?label_after_cons; try done;
  by destruct (Window.mode (Window.progress win)).
Qed.

Lemma last_seq (n : nat) :
last (seq 1 n) = match n with O => None | S _ => Some n end.
Proof.
destruct n as [|n]; [done|]. by rewrite seq_S, last_snoc.
Qed.

Lemma label_after_seq prefix n before :
label_after prefix (seq 1 n) before
= match n with O => before | S _ => prefix +:+ pretty n end.
Proof. unfold label_after. rewrite last_seq. by destruct n. Qed.

Lemma handle_done app win :
let win' := Window._handle_ui_event strftime_now app EvDone win in
Window.btn_start win' = true ∧ Window.btn_cancel win' = false ∧
Window.mode (Window.progress win') = Window.Determinate ∧
Window.txt_log win'
= Window.txt_log win
  +:+ summary_line (strftime_now (Window.logged win)) app ∧
Window.lbl_scanned win' = Window.lbl_scanned win ∧
Window.lbl_matched win' = Window.lbl_matched win ∧
Window.lbl_errors win' = Window.lbl_errors win.
Proof.
simpl. unfold summary_line.
destruct (Window.mode (Window.progress win)) eqn:Hmode; simpl;
  rewrite ?Hmode; repeat split; try done.
Qed.

End WindowEvents.

Section RunAndWindow.
Context `{PyRuntime} (w : World).
Variable strftime_now : nat → string.

Lemma dispatch_queue src_mode src_value dest_root start_dt end_dt subfolders
  mode s :
ui_queue s = [] →
∃ q, ui_queue (exec (_worker_dispatch w src_mode src_value dest_root
                       start_dt end_dt subfolders mode) s)
     = q ++ [EvDone].
Proof.
intros Hq.
pose proof (no_done_since_worker w s src_mode src_value dest_root start_dt
              end_dt subfolders mode s) as Hw.
destruct Hw as (delta & Htl & _).
{ exists []. rewrite app_nil_r. split; [done|apply not_elem_of_nil]. }
exists (omap (λ a, match a with APut e => Some e | _ => None end) delta).
unfold _worker_dispatch, exec, try_finally in *.
destruct (if String.eqb src_mode "adb" then _ else _) as [r s']; simpl in *.
unfold ui_queue in *. simpl. rewrite Htl, !omap_app, Hq. done.
Qed.

(** X8: take a run of [_worker_dispatch] that starts with the counters
  at 0 and an empty queue, as [_on_start] starts it, and let the window
  handle all the events of the run, the last when the run has ended.
  Then Start is enabled and Cancel disabled, the bar is in determinate
  mode, the log ends with the line of the summary that holds the
  counters of the run, and each counter label shows the counter of the
  run if that is not 0; a label whose counter stayed 0 keeps the text
  it had before the run. *)
Theorem window_after_run (src_mode src_value dest_root : string)
  (start_dt end_dt : datetime) (subfolders : list string) (mode : string)
  (t : nat) (win : Window.Widgets) :
let s' := exec (_worker_dispatch w src_mode src_value dest_root start_dt
                  end_dt subfolders mode) (mk_state 0 0 0 [] t) in
let win' := Window._process_ui_queue strftime_now s' (ui_queue s') win in
Window.btn_start win' = true ∧ Window.btn_cancel win' = false ∧
Window.mode (Window.progress win') = Window.Determinate ∧
(∃ before ts, Window.txt_log win' = before +:+ summary_line ts s') ∧
Window.lbl_scanned win'
= match scanned s' with
  | O => Window.lbl_scanned win
  | S _ => "Scanned: " +:+ pretty (scanned s')
  end ∧
Window.lbl_matched win'
= match matched s' with
  | O => Window.lbl_matched win
  | S _ => "Exported: " +:+ pretty (matched s')
  end ∧
Window.lbl_errors win'
= match errors s' with
  | O => Window.lbl_errors win
  | S _ => "Errors: " +:+ pretty (errors s')
  end.
Proof.
intros s' win'.
destruct (dispatch_queue src_mode src_value dest_root start_dt end_dt
            subfolders mode (mk_state 0 0 0 [] t)) as [q Hq]; [done|].
destruct (counters_inv_dispatch w src_mode src_value dest_root start_dt
            end_dt subfolders mode (mk_state 0 0 0 [] t)) as (Hs & Hm & He);
  [done|].
fold s' in Hq, Hs, Hm, He. subst win'. rewrite Hq in *.
unfold scanned_values, matched_values, errors_values in Hs, Hm, He.
rewrite omap_app in Hs, Hm, He. simpl in Hs, Hm, He.
rewrite app_nil_r in Hs, Hm, He.
rewrite process_app. cbn [Window._process_ui_queue].
destruct (handle_done strftime_now s'
            (Window._process_ui_queue strftime_now s' q win))
  as (-> & -> & -> & -> & -> & -> & ->).
destruct (process_labels strftime_now s' q win) as (-> & -> & ->).
unfold scanned_values, matched_values, errors_values.
rewrite Hs, Hm, He, !label_after_seq.
repeat split; eauto.
Qed.

End RunAndWindow.

(** ** The request that validation lets through *)

Ltac compare_fields :=
  repeat match goal with
  | |- context [(?x <? ?y)%Z] => destruct (Z.ltb_spec x y)
  | H : context [(?x <? ?y)%Z] |- _ => destruct (Z.ltb_spec x y)
  end.

(** X9: for a start day [a] and an end day [b] as [parse_yyyy_mm_dd]
    gives them, the check of [_validate_inputs] on the end of day of [b]
    lets the pair through exactly if [a] is not after [b], so the same
    day twice is let through; and a time stamp of day [b] lies before the
    end of the range exactly if it is not later than 23:59:59 sharp: a
    time in the last second of [b] with a fraction is outside. *)
Theorem range_is_whole_days (a b : datetime) :
  midnight a → midnight b →
  (dt_ltb (replace_end_of_day b) a = false ↔ dt_leb a b = true) ∧
  (∀ m, same_day m b → time_of_day_valid m →
     dt_leb m (replace_end_of_day b) = true
     ↔ ¬ (hour m = 23 ∧ minute m = 59 ∧ second m = 59
          ∧ 0 < microsecond m)%Z).
Proof.
  intros (Ha1 & Ha2 & Ha3 & Ha4) (Hb1 & Hb2 & Hb3 & Hb4). split.
  - unfold dt_ltb, dt_leb, replace_end_of_day, dt_key. simpl.
    rewrite Ha1, Ha2, Ha3, Ha4, Hb1, Hb2, Hb3, Hb4.
    compare_fields; simpl; split; intros; try done; lia.
  - intros m (Hy & Hm & Hd) (Hh & Hmi & Hs & Hus).
    unfold dt_leb, replace_end_of_day, dt_key. simpl.
    rewrite Hy, Hm, Hd, Hb4.
    compare_fields; simpl; split; intros; try done; lia.
Qed.

Section Validated.
Context `{PyRuntime} (w : World).

Local Ltac literals := cbn [String.eqb Ascii.eqb Bool.eqb negb orb andb].

Lemma chosen_subfolders (vars : list (string * bool)) (name : string) :
name ∈ (filter (λ nv, nv.2 = true) vars).*1 ↔ (name, true) ∈ vars.
Proof.
rewrite list_elem_of_fmap. split.
- intros ([n v] & -> & [Hv Hin]%list_elem_of_filter). simpl in *. by subst v.
- intros Hin. exists (name, true). split; [done|].
  by apply list_elem_of_filter.
Qed.

(** X10: a request that [_validate_inputs] returns has a destination
  that is the stripped text of the form and is not empty, a start that
  is the parsed start of the form and is not after its end, an end at
  23:59:59 of the parsed end day, and the subfolders ticked in the
  form, at least one.  It is either a device request in copy mode
  whose device is the stripped text of the form and not empty, or a
  folder request in the mode of the form, copy or move, whose source is
  the stripped text of the form and not empty. *)
Theorem validated_request (f : Form) (s : AppState) (req : Request) :
outcome (_validate_inputs w f) s = Ok req →
req_dst req = strip (var_dest f) ∧ req_dst req ≠ EmptyString ∧
parse_yyyy_mm_dd (var_start f) = Ok (req_start_dt req) ∧
(∃ end_day, parse_yyyy_mm_dd (var_end f) = Ok end_day ∧
            req_end_dt req = replace_end_of_day end_day) ∧
dt_leb (req_start_dt req) (req_end_dt req) = true ∧
req_subfolders req ≠ [] ∧
(∀ name, name ∈ req_subfolders req ↔ (name, true) ∈ subfolder_vars f) ∧
((req_src_mode req = "adb" ∧ req_mode req = "copy" ∧
  req_src_value req = strip (var_device f) ∧ req_src_value req ≠ EmptyString)
 ∨ (req_src_mode req = "local" ∧ req_mode req = var_mode f ∧
    (req_mode req = "copy" ∨ req_mode req = "move") ∧
    req_src_value req = strip (var_source_folder f) ∧
    req_src_value req ≠ EmptyString)).
Proof.
unfold_validation.
destruct (String.eqb (strip (var_source_mode f)) "adb") eqn:Hadb;
  destruct (String.eqb (strip (var_source_mode f)) "local") eqn:Hlocal;
  literals; try done;
  (destruct (String.eqb_spec (strip (var_dest f)) EmptyString) as [|Hdst];
     [done|]);
  (destruct (bool_decide _); simpl_run;
     [|destruct (os_makedirs _ _ _) as [[]|?]; simpl_run; [|done]]);
  (destruct (parse_yyyy_mm_dd (var_start f)) as [start_dt|?]; [|done]);
  (destruct (parse_yyyy_mm_dd (var_end f)) as [end_day|?]; [|done]);
  unfold dt_ltb;
  (destruct (dt_leb start_dt (replace_end_of_day end_day)) eqn:Hrange;
     simpl_run; [|done]);
  pose proof (chosen_subfolders (subfolder_vars f)) as Hsubs;
  (destruct ((filter _ _).*1) as [|sub subs] eqn:Hchosen; [done|]);
  (destruct (String.eqb_spec (var_mode f) "copy") as [Hcopy|_];
     [|destruct (String.eqb_spec (var_mode f) "move") as [Hmove|_]]);
  literals; try done;
  try (destruct (String.eqb_spec (strip (var_device f)) EmptyString) as [|Hdev];
         [done|]);
  try (destruct (String.eqb_spec (strip (var_source_folder f)) EmptyString)
         as [|Hsrc]; simpl_run; [done|]);
  try (destruct (os_isdir _ _ _); simpl_run; [|done]);
  try rewrite Hcopy; try rewrite Hmove; literals; try done;
  intros [= <-]; simpl; repeat split; eauto 10;
  try (intros; by apply Hsubs); try (intros; by apply Hsubs).
Qed.

(** X11: white space around the source type, the device, the source
  folder, the destination and the two dates of the form makes no
  difference to [_validate_inputs]: with it and without it the function
  asks the same questions and returns the same request or raises the
  same exception.  (The mode is compared as it is.) *)
Theorem validation_ignores_surrounding_blanks (f : Form) (s : AppState) :
_validate_inputs w (strip_fields f) s = _validate_inputs w f s.
Proof.
unfold _validate_inputs, parse_yyyy_mm_dd, strip_fields.
cbn [var_source_mode var_device var_source_folder var_dest var_start
     var_end var_mode subfolder_vars].
by rewrite !strip_idemp.
Qed.

Lemma validating_refl s : validating s s.
Proof.
split; [|done]. exists []. by rewrite app_nil_r.
Qed.

Lemma validating_record s0 a s :
validation_action a = true → validating s0 s → validating s0 (record a s).
Proof.
intros Ha ((delta & Htl & Hd) & Hs & Hm & He & Hq). split.
- exists (delta ++ [a]). simpl. rewrite Htl, app_assoc. split; [done|].
  apply Forall_app. by repeat constructor.
- repeat split; try done. unfold ui_queue, record in *. simpl.
  rewrite omap_app, Hq. by destruct a as [[]|?|[]]; rewrite ?app_nil_r.
Qed.

Lemma validating_ask {A} s0 (q : nat → A) c :
(∀ a, validation_action (ACall (c a)) = true) →
preserves (validating s0) (ask q c).
Proof. intros Hc s Hs. by apply (validating_record s0 (ACall _)). Qed.

Lemma validating_ask_r {A} s0 (q : nat → result A) c :
(∀ r, validation_action (ACall (c r)) = true) →
preserves (validating s0) (ask_r q c).
Proof. intros Hc s Hs. by apply (validating_record s0 (ACall _)). Qed.

Lemma validate_inputs_validating s0 f :
preserves (validating s0) (_validate_inputs w f).
Proof.
unfold _validate_inputs, value_error, ensure_dir, os_path_exists,
  os_path_isdir.
repeat first
  [ preserves_step
  | apply preserves_raise
  | apply preserves_lift
  | apply validating_ask; intros ?; reflexivity
  | apply validating_ask_r; intros ?; reflexivity ].
Qed.

(** X12: whenever [_validate_inputs] raises an [Exception], for
  whatever reason, [_on_start] returns after showing one error box
  with the text of the exception: what it did before that is only to
  look at the destination and the source folder and to create the
  destination; no event is put, the counters keep their values, the
  buttons, the bar and the log are not touched, and no thread is
  started. *)
Theorem start_refused_without_side_effects (f : Form) (s : AppState)
  (msg : string) :
outcome (_validate_inputs w f) s = Raise (Exception msg) →
let s' := exec (_on_start w f) s in
outcome (_on_start w f) s = Ok tt ∧
timeline s'
= timeline (exec (_validate_inputs w f) s) ++ [AUi (UiShowError msg)] ∧
(∃ delta, timeline s' = timeline s ++ delta ∧
          Forall (λ a, validation_action a = true) delta) ∧
scanned s' = scanned s ∧ matched s' = matched s ∧ errors s' = errors s ∧
ui_queue s' = ui_queue s.
Proof.
intros Hraise s'.
pose proof (validate_inputs_validating s f s (validating_refl s)) as Hv.
apply (validating_record s (AUi (UiShowError msg))) in Hv; [|done].
subst s'. revert Hraise Hv.
unfold _on_start, outcome, exec, bind, try_except, ui, ret.
destruct (_validate_inputs w f s) as [[req|[m|m]] s1]; simpl; try done.
intros [= ->] (Hdelta & Hs & Hm & He & Hq). done.
Qed.

End Validated.

(** ** The device worker: media roots and destinations *)

Lemma startswith_append (p r : string) : startswith p (p +:+ r) = true.
Proof.
  unfold startswith. induction p as [|a p IH]; [by destruct r|].
  rewrite append_cons. simpl. by destruct (ascii_dec a a).
Qed.

Lemma str_drop_append (p r : string) : str_drop (String.length p) (p +:+ r) = r.
Proof.
  induction p as [|a p IH]; [by destruct r|]. by rewrite append_cons.
Qed.

Section DeviceWorker.
Context `{PyRuntime} (w : World).

Lemma rel_path_cases (prefix remote_file : string) :
let rel_path :=
  if startswith prefix remote_file
  then str_drop (String.length prefix) remote_file
  else path_basename remote_file in
(∀ rel, remote_file = prefix +:+ rel → rel_path = rel) ∧
(startswith prefix remote_file = false →
 rel_path = path_basename remote_file).
Proof.
simpl. split.
- intros rel ->. by rewrite startswith_append, str_drop_append.
- by intros ->.
Qed.

(** X13: when the device answers for both candidate folders that they
  do not exist, a device run asks nothing else: it puts the two log
  lines that name the folders tried and then [Done].  The error counter
  is not incremented, although the first line starts with [ERROR], and
  nothing is scanned or exported. *)
Theorem no_media_root_found (device dest_root : string)
  (start_dt end_dt : datetime) (subfolders : list string) (mode : string)
  (s : AppState) :
(∀ t c, c ∈ media_root_candidates →
        adb_path_exists w t device c = Ok false) →
let run := _worker_dispatch w "adb" device dest_root start_dt end_dt
             subfolders mode in
outcome run s = Ok tt ∧
timeline (exec run s)
= timeline s
  ++ ((λ c, ACall (CAdbPathExists c (Ok false))) <$> media_root_candidates)
  ++ [APut (EvLog "ERROR: Could not find WhatsApp Media folder on the device.");
      APut (EvLog "Tried: /storage/emulated/0/Android/media/com.whatsapp/WhatsApp/Media and /storage/emulated/0/WhatsApp/Media");
      APut EvDone] ∧
scanned (exec run s) = scanned s ∧ matched (exec run s) = matched s ∧
errors (exec run s) = errors s.
Proof.
intros Hno run. subst run.
unfold _worker_dispatch, _worker_adb, adb_find_whatsapp_media_roots,
  media_root_candidates in *.
cbn [String.eqb Ascii.eqb Bool.eqb find_roots_loop].
unfold try_finally. unfold_monad.
rewrite !Hno by (repeat constructor). simpl_run. done.
Qed.

(** X14: the destination that the device worker proposes for a file
  in the date range.  For a file listed below the media root, that is
  a remote path made of the root without trailing slashes, a slash and
  a relative path, the worker asks [unique_destination_path] for the
  destination root joined with that relative path, so the folders
  below the media root are kept; for any other remote path it asks
  for the destination root joined with the base name only. *)
Theorem adb_destination_keeps_relative_path (device dest_root : string)
  (start_dt end_dt : datetime) (root remote_file : string) (m : datetime)
  (s : AppState) :
adb_stat_mtime w (clock s) device remote_file = Ok m →
in_range start_dt end_dt m = true →
let prefix := rstrip_char "/" root +:+ "/" in
let s' := exec (process_file_adb w device dest_root start_dt end_dt root
                  remote_file) s in
∃ rel_path dst rest,
  timeline s'
  = timeline s
    ++ [APut (EvScanned (S (scanned s))); APut (EvProgressTick 1);
        ACall (CAdbStatMtime remote_file (Ok m));
        ACall (CUniqueDst (path_join dest_root rel_path) dst)]
    ++ rest ∧
  (∀ rel, remote_file = prefix +:+ rel → rel_path = rel) ∧
  (startswith prefix remote_file = false →
   rel_path = path_basename remote_file).
Proof.
intros Hstat Hrange prefix s'. subst s'. unfold process_file_adb.
unfold_monad. rewrite Hstat. simpl_run. rewrite Hrange. simpl_run.
fold prefix.
pose proof (rel_path_cases prefix remote_file) as Hrel.
match goal with |- context [CUniqueDst (path_join dest_root ?r) ?d] =>
  exists r, d; generalize d; intros dst end.
destruct (bool_decide _); simpl_run.
- destruct (adb_run_pull _ _ _ _ _) as [[]|[msg|msg]]; simpl_run;
    eexists; (split; [reflexivity|done]).
- destruct (os_makedirs _ _ _) as [[]|[msg|msg]]; simpl_run;
    [|eexists; (split; [reflexivity|done])..].
  destruct (adb_run_pull _ _ _ _ _) as [[]|[msg|msg]]; simpl_run;
    eexists; (split; [reflexivity|done]).
Qed.

End DeviceWorker.

(** ** Whole runs: what the transfers of a run are *)

Section RunInvariant.
Context `{PyRuntime} (w : World).
Variable I : AppState → Prop.
Hypothesis I_call :
  ∀ c s, outer_call c = true → I s → I (tick (record (ACall c) s)).
Hypothesis I_put :
  ∀ e s, outer_event e = true → I s → I (record (APut e) s).
Hypothesis I_error : ∀ msg, preserves I (count_error msg).
Hypothesis I_file_adb :
  ∀ device dest_root start_dt end_dt root f,
    preserves I (process_file_adb w device dest_root start_dt end_dt root f).
Variable mode : string.
Hypothesis I_file_local :
  ∀ media_root dest_root start_dt end_dt root name,
    preserves I (process_file_local w media_root dest_root start_dt end_dt
                   mode root name).

Local Lemma outer_ask {A} (q : nat → A) c :
  (∀ a, outer_call (c a) = true) → preserves I (ask q c).
Proof. intros Hc s Hs. by apply I_call. Qed.

Local Lemma outer_ask_r {A} (q : nat → result A) c :
  (∀ r, outer_call (c r) = true) → preserves I (ask_r q c).
Proof. intros Hc s Hs. by apply I_call. Qed.

Local Lemma outer_put e : outer_event e = true → preserves I (put e).
Proof. intros He s Hs. by apply I_put. Qed.

Local Lemma outer_announce total : preserves I (announce_total total).
Proof.
  unfold announce_total.
  destruct (0 <? total)%Z; (apply preserves_bind; [|intros _]);
    by apply outer_put.
Qed.

Local Ltac keeps :=
  repeat first
    [ preserves_step
    | apply outer_ask; intros ?; reflexivity
    | apply outer_ask_r; intros ?; reflexivity
    | apply outer_put; reflexivity
    | apply outer_announce
    | apply I_error | apply I_file_adb | apply I_file_local
    | assumption ].

Lemma run_files_loop_adb device dest_root start_dt end_dt root fs :
  preserves I (files_loop_adb w device dest_root start_dt end_dt root fs).
Proof. induction fs as [|f fs IH]; simpl; unfold is_set; keeps. Qed.

Lemma run_subs_loop_adb device dest_root start_dt end_dt root subs :
  preserves I (subs_loop_adb w device dest_root start_dt end_dt root subs).
Proof.
  induction subs as [|sub subs IH]; simpl;
    unfold is_set, adb_path_exists_io, adb_find_files_io; keeps.
  apply run_files_loop_adb.
Qed.

Lemma run_roots_loop_adb device dest_root start_dt end_dt subs roots :
  preserves I (roots_loop_adb w device dest_root start_dt end_dt subs roots).
Proof.
  induction roots as [|root roots IH]; simpl; unfold is_set; keeps.
  apply run_subs_loop_adb.
Qed.

Lemma run_find_roots_loop device cands roots :
  preserves I (find_roots_loop w device cands roots).
Proof.
  revert roots. induction cands as [|c cands IH]; intros roots; simpl;
    unfold adb_path_exists_io; keeps. apply IH.
Qed.

Lemma run_estimate_adb_subs device root subs total :
  preserves I (estimate_adb_subs w device root subs total).
Proof.
  revert total. induction subs as [|sub subs IH]; intros total; simpl;
    unfold adb_path_exists_io, adb_count_files_io; keeps; apply IH.
Qed.

Lemma run_estimate_adb device roots subs total :
  preserves I (estimate_adb w device roots subs total).
Proof.
  revert total. induction roots as [|root roots IH]; intros total; simpl;
    keeps; [apply run_estimate_adb_subs | apply IH].
Qed.

Lemma run_worker_adb device dest_root start_dt end_dt subs :
  preserves I (_worker_adb w device dest_root start_dt end_dt subs).
Proof.
  unfold _worker_adb, adb_find_whatsapp_media_roots, is_set. keeps;
    first [ apply run_find_roots_loop | apply run_estimate_adb
          | apply run_roots_loop_adb ].
Qed.

Lemma run_estimate_local_subs media_root subs total :
  preserves I (estimate_local_subs w media_root subs total).
Proof.
  revert total. induction subs as [|sub subs IH]; intros total; simpl;
    unfold os_path_isdir; keeps; apply IH.
Qed.

Lemma run_files_loop_local media_root dest_root start_dt end_dt
    root files :
  preserves I (files_loop_local w media_root dest_root start_dt end_dt
                 mode root files).
Proof. induction files as [|f files IH]; simpl; unfold is_set; keeps. Qed.

Lemma run_walk_loop_local media_root dest_root start_dt end_dt
    walked :
  preserves I (walk_loop_local w media_root dest_root start_dt end_dt
                 mode walked).
Proof.
  induction walked as [|[root files] walked IH]; simpl; unfold is_set;
    keeps.
  apply run_files_loop_local.
Qed.

Lemma run_subs_loop_local media_root dest_root start_dt end_dt subs :
  preserves I (subs_loop_local w media_root dest_root start_dt end_dt
                 mode subs).
Proof.
  induction subs as [|sub subs IH]; simpl;
    unfold is_set, os_path_isdir; keeps.
  apply run_walk_loop_local.
Qed.

Lemma run_worker_local source_root dest_root start_dt end_dt subs :
  preserves I (_worker_local w source_root dest_root start_dt end_dt
                 subs mode).
Proof.
  unfold _worker_local, detect_media_root, _estimate_total_files_local,
    os_path_isdir, is_set.
  keeps; first [ apply run_estimate_local_subs
               | apply run_subs_loop_local ].
Qed.

Hypothesis I_done : ∀ s, I s → I (record (APut EvDone) s).

Lemma run_dispatch src_mode src_value dest_root start_dt end_dt subs :
  preserves I
    (_worker_dispatch w src_mode src_value dest_root start_dt end_dt
       subs mode).
Proof.
  unfold _worker_dispatch. apply preserves_try_finally.
  - destruct (String.eqb src_mode "adb");
      [apply run_worker_adb | apply run_worker_local].
  - intros s Hs. by apply I_done.
Qed.

End RunInvariant.

(** *** One file *)

Ltac audit_run :=
  cbn -[String.append in_range unique_destination_path rstrip_char
        startswith str_drop String.eqb latch_set];
  repeat (rewrite bool_decide_true by (first [reflexivity | split; [reflexivity|lia]]);
          cbn -[String.append in_range unique_destination_path rstrip_char
                startswith str_drop String.eqb latch_set]).

Ltac effect_leaf :=
  eexists; split; [reflexivity|];
  split; [reflexivity|];
  split; [cbn; lia|];
  split; [cbn; lia|];
  intros cur; audit_run; eexists; reflexivity.

Section FileEffect.
Context `{PyRuntime} (w : World).

Lemma process_file_adb_effect device dest_root start_dt end_dt root f s :
file_effect w s
  (exec (process_file_adb w device dest_root start_dt end_dt root f) s).
Proof.
unfold file_effect, process_file_adb. unfold_monad.
destruct (adb_stat_mtime _ _ _ _) as [m|[msg|msg]]; simpl_run;
  [|effect_leaf..].
destruct (in_range start_dt end_dt m); simpl_run; [|effect_leaf].
destruct (bool_decide _); simpl_run.
- destruct (adb_run_pull _ _ _ _ _) as [[]|[msg|msg]]; simpl_run;
    effect_leaf.
- destruct (os_makedirs _ _ _) as [[]|[msg|msg]]; simpl_run;
    [|effect_leaf..].
  destruct (adb_run_pull _ _ _ _ _) as [[]|[msg|msg]]; simpl_run;
    effect_leaf.
Qed.

Lemma process_file_local_effect media_root dest_root start_dt end_dt mode
  root name s :
file_effect w s
  (exec (process_file_local w media_root dest_root start_dt end_dt mode
           root name) s).
Proof.
unfold file_effect, process_file_local. unfold_monad.
destruct (os_getmtime _ _ _) as [m|[msg|msg]]; simpl_run;
  [|effect_leaf..].
destruct (in_range start_dt end_dt m); simpl_run; [|effect_leaf].
destruct (bool_decide _); simpl_run.
- destruct (String.eqb mode "copy"); simpl_run.
  + destruct (shutil_copy2 _ _ _ _) as [[]|[msg|msg]]; simpl_run;
      effect_leaf.
  + destruct (shutil_move _ _ _ _) as [[]|[msg|msg]]; simpl_run;
      effect_leaf.
- destruct (os_makedirs _ _ _) as [[]|[msg|msg]]; simpl_run;
    [|effect_leaf..].
  destruct (String.eqb mode "copy"); simpl_run.
  + destruct (shutil_copy2 _ _ _ _) as [[]|[msg|msg]]; simpl_run;
      effect_leaf.
  + destruct (shutil_move _ _ _ _) as [[]|[msg|msg]]; simpl_run;
      effect_leaf.
Qed.

End FileEffect.

(** *** The audit, in plain terms *)

Section Audit.
Context `{PyRuntime} (w : World).

Lemma audit_app st tl l : audit w st (tl ++ l) = audit w (audit w st tl) l.
Proof. unfold audit. by rewrite foldl_app. Qed.

Lemma audit_None tl : audit w None tl = None.
Proof. induction tl as [|a tl IH]; [done|]. apply IH. Qed.

Lemma audit_snoc st tl a :
audit w st (tl ++ [a]) = st' ← audit w st tl; audit_step w st' a.
Proof. by rewrite audit_app. Qed.

Lemma clock_after_snoc tl a :
clock_after (tl ++ [a]) = clock_after tl + (if is_call a then 1 else 0).
Proof. unfold clock_after. rewrite count_app. simpl. lia. Qed.

Lemma older_means t0 tl a (cur : option (string * nat)) :
(∀ d k, cur = Some (d, k) →
   ∃ pre' p mid,
     tl = pre' ++ ACall (CUniqueDst p d) :: mid ∧
     d = unique_destination_path (fs_paths w (t0 + clock_after pre')) p ∧
     length mid = k) →
∀ d k, (λ dk : string * nat, (dk.1, S dk.2)) <$> cur = Some (d, k) →
  ∃ pre' p mid,
    tl ++ [a] = pre' ++ ACall (CUniqueDst p d) :: mid ∧
    d = unique_destination_path (fs_paths w (t0 + clock_after pre')) p ∧
    length mid = k.
Proof.
intros Hcur d k. destruct cur as [[d' k']|]; [|done].
simpl. intros [= <- <-].
destruct (Hcur d' k' eq_refl) as (pre' & p & mid & -> & Hd & Hk).
exists pre', p, (mid ++ [a]). rewrite <- app_assoc. split; [done|].
split; [done|]. rewrite length_app. simpl. lia.
Qed.

Lemma audit_step_means t0 tl st a st' :
audit_means w t0 tl st → audit_step w st a = Some st' →
audit_means w t0 (tl ++ [a]) st'.
Proof.
destruct st as [t cur]. intros [Ht Hcur]. simpl in Ht. subst t.
unfold audit_means. rewrite clock_after_snoc.
pose proof (older_means t0 tl a cur Hcur) as Holder.
unfold audit_step. simpl.
destruct a as [c|e|u]; simpl; [|intros [= <-]; simpl; split; [lia|done]..].
destruct c; simpl.
all: try (intros [= <-]; simpl; split; [lia|done]).
all: try (destruct cur as [[d k]|]; [|done]; case_bool_decide; [|done];
          intros [= <-]; simpl; split; [lia|done]).
case_bool_decide as Hd; [|done]. intros [= <-]. simpl. split; [lia|].
intros d k [= <- <-]. exists tl, dst_path, []. done.
Qed.

Lemma audit_sound t0 tl st :
audit w (Some (t0, None)) tl = Some st →
audit_means w t0 tl st ∧ targets_checked w t0 tl.
Proof.
revert st. induction tl as [|a tl IH] using rev_ind; intros st.
- intros [= <-]. split.
  + split; [simpl; unfold clock_after; simpl; lia|done].
  + intros pre a post dst E. by destruct pre.
- rewrite audit_snoc.
  destruct (audit w (Some (t0, None)) tl) as [st1|] eqn:Htl; [|done].
  simpl. intros Hstep. destruct (IH st1 eq_refl) as [Hmeans Hchecked].
  split; [by eapply audit_step_means|].
  intros pre x post dst E Hx.
  apply snoc_split in E as [(-> & -> & ->)|(post' & -> & ->)];
    [|by eapply Hchecked].
  destruct st1 as [t cur]. destruct Hmeans as [_ Hcur].
  revert Hstep. unfold audit_step. simpl.
  destruct a as [c|e|u]; [|done..].
  simpl in Hcur.
  destruct c; simpl in Hx; try done; injection Hx as ->.
  all: destruct cur as [[d k]|]; [|done].
  all: simpl; (case_bool_decide as Hdk; [|done]); intros _;
    destruct Hdk as [-> Hk];
    destruct (Hcur dst k eq_refl) as (pre' & p & mid & -> & Hd & <-);
    exists pre', p, mid; (split; [done|]); (split; [done|]);
    (split; [|done]); rewrite Hd at 1;
    by destruct (unique_destination_path_first_free
                   (fs_paths w (t0 + clock_after pre')) p)
      as (i & -> & Hfree & _).
Qed.

Lemma audited_extend t0 s s' delta :
audited w t0 s → timeline s' = timeline s ++ delta →
(∀ cur, ∃ cur', audit w (Some (clock s, cur)) delta = Some (clock s', cur')) →
audited w t0 s'.
Proof.
intros [cur Hs] Htl Hdelta. unfold audited.
rewrite Htl, audit_app, Hs. apply Hdelta.
Qed.

Lemma audited_record_put t0 e s :
audited w t0 s → audited w t0 (record (APut e) s).
Proof.
intros Hs. eapply (audited_extend _ _ _ [_]); [done|done|].
intros cur. simpl. eauto.
Qed.

Lemma audited_counters t0 s n m e :
audited w t0 s → audited w t0 (mk_state n m e (timeline s) (clock s)).
Proof. done. Qed.

Lemma audited_outer_call t0 c s :
outer_call c = true → audited w t0 s →
audited w t0 (tick (record (ACall c) s)).
Proof.
intros Hc Hs. eapply (audited_extend _ _ _ [_]); [done|done|].
intros cur. destruct c; try done; simpl; eauto.
Qed.

Lemma audited_dispatch t0 src_mode src_value dest_root start_dt end_dt
  subfolders mode :
preserves (audited w t0)
  (_worker_dispatch w src_mode src_value dest_root start_dt end_dt
     subfolders mode).
Proof.
apply run_dispatch.
- intros c s. apply audited_outer_call.
- intros e s _. apply audited_record_put.
- intros msg s Hs. unfold exec, count_error. simpl.
  do 2 apply audited_record_put. by apply audited_counters.
- intros device dest_root' start_dt' end_dt' root f s Hs.
  destruct (process_file_adb_effect w device dest_root' start_dt' end_dt'
              root f s) as (delta & Htl & _ & _ & _ & Haudit).
  by eapply audited_extend.
- intros media_root dest_root' start_dt' end_dt' root name s Hs.
  destruct (process_file_local_effect w media_root dest_root' start_dt'
              end_dt' mode root name s) as (delta & Htl & _ & _ & _ & Haudit).
  by eapply audited_extend.
- intros s. apply audited_record_put.
Qed.

(** X15: in every run of [_worker_dispatch], remote or local,
  completed, cancelled or broken off, every call of [adb pull],
  [shutil.copy2] and [shutil.move] writes to the path that
  [unique_destination_path] answered at most two actions earlier (the
  two are the check and the creation of the directory), and that path
  did not exist when the answer was computed: no transfer is aimed at a
  path that the run saw to exist. *)
Theorem transfers_write_checked_paths (src_mode src_value dest_root : string)
  (start_dt end_dt : datetime) (subfolders : list string) (mode : string)
  (t0 : nat) :
let s' := exec (_worker_dispatch w src_mode src_value dest_root start_dt
                  end_dt subfolders mode) (mk_state 0 0 0 [] t0) in
∀ pre a post dst,
  timeline s' = pre ++ a :: post → transfer_target a = Some dst →
  ∃ pre' p mid,
    pre = pre' ++ ACall (CUniqueDst p dst) :: mid ∧
    dst = unique_destination_path (fs_paths w (t0 + clock_after pre')) p ∧
    (dst ∉ fs_paths w (t0 + clock_after pre')) ∧
    length mid ≤ 2.
Proof.
intros s'.
destruct (audited_dispatch t0 src_mode src_value dest_root start_dt end_dt
            subfolders mode (mk_state 0 0 0 [] t0)) as [cur Hcur].
{ by exists None. }
by apply audit_sound in Hcur as [_ Hchecked].
Qed.

End Audit.

(** *** The exported counter *)

Section Exported.
Context `{PyRuntime} (w : World).

Lemma exported_inv_extend s s' delta :
exported_inv s → timeline s' = timeline s ++ delta →
matched s' = matched s + completed_transfers delta →
matched s' ≤ scanned s' →
exported_inv s'.
Proof.
intros [Hm _] Htl Hm' Hle. split; [|done].
unfold completed_transfers in *. rewrite Htl, count_app. lia.
Qed.

Lemma exported_inv_dispatch src_mode src_value dest_root start_dt end_dt
  subfolders mode :
preserves exported_inv
  (_worker_dispatch w src_mode src_value dest_root start_dt end_dt
     subfolders mode).
Proof.
apply run_dispatch.
- intros c s Hc Hs.
  eapply (exported_inv_extend _ _ [_]); [done|done|..].
  + by destruct c.
  + apply Hs.
- intros e s _ Hs.
  eapply (exported_inv_extend _ _ [_]); [done|done|cbn; lia|apply Hs].
- intros msg s Hs. unfold exec, count_error. simpl.
  eapply (exported_inv_extend _ _ [_; _]);
    [done|simpl; by rewrite <- app_assoc|cbn; lia|apply Hs].
- intros device dest_root' start_dt' end_dt' root f s Hs.
  destruct (process_file_adb_effect w device dest_root' start_dt' end_dt'
              root f s) as (delta & Htl & Hsc & Hm & Hone & _).
  eapply exported_inv_extend; [done..|]. destruct Hs as [_ Hle]. lia.
- intros media_root dest_root' start_dt' end_dt' root name s Hs.
  destruct (process_file_local_effect w media_root dest_root' start_dt'
              end_dt' mode root name s)
    as (delta & Htl & Hsc & Hm & Hone & _).
  eapply exported_inv_extend; [done..|]. destruct Hs as [_ Hle]. lia.
- intros s Hs.
  eapply (exported_inv_extend _ _ [_]); [done|done|cbn; lia|apply Hs].
Qed.

(** X16: at the end of every run of [_worker_dispatch] that
  [_on_start] starts (counters at 0), the exported counter is the
  number of transfer calls ([adb pull], [shutil.copy2],
  [shutil.move]) of the run that returned without raising, and it is
  at most the scanned counter. *)
Theorem exported_counts_completed_transfers
  (src_mode src_value dest_root : string) (start_dt end_dt : datetime)
  (subfolders : list string) (mode : string) (t0 : nat) :
let s' := exec (_worker_dispatch w src_mode src_value dest_root start_dt
                  end_dt subfolders mode) (mk_state 0 0 0 [] t0) in
matched s' = completed_transfers (timeline s') ∧ matched s' ≤ scanned s'.
Proof.
intros s'.
by apply (exported_inv_dispatch src_mode src_value dest_root start_dt
            end_dt subfolders mode (mk_state 0 0 0 [] t0)).
Qed.

End Exported.

(** *** The kind of the transfers *)

Ltac kind_leaf :=
  eexists; split; [reflexivity|];
  repeat constructor; cbn [foreign_transfer negb orb];
  repeat match goal with H : _ = _ |- _ => rewrite H end; reflexivity.

Section TransferKind.
Context `{PyRuntime} (w : World).

Lemma one_kind_extend src_mode mode s s' delta :
one_kind src_mode mode s → timeline s' = timeline s ++ delta →
Forall (λ a, foreign_transfer src_mode mode a = false) delta →
one_kind src_mode mode s'.
Proof.
unfold one_kind. intros Hs -> Hd. by apply Forall_app.
Qed.

Lemma process_file_adb_kind src_mode mode device dest_root start_dt end_dt
  root f s :
String.eqb src_mode "adb" = true →
∃ delta,
  timeline (exec (process_file_adb w device dest_root start_dt end_dt
                    root f) s) = timeline s ++ delta ∧
  Forall (λ a, foreign_transfer src_mode mode a = false) delta.
Proof.
intros Hsrc. unfold process_file_adb. unfold_monad.
destruct (adb_stat_mtime _ _ _ _) as [m|[msg|msg]]; simpl_run;
  [|kind_leaf..].
destruct (in_range start_dt end_dt m); simpl_run; [|kind_leaf].
match goal with |- context [CUniqueDst ?p ?d] =>
  generalize d; intros dst end.
destruct (bool_decide _); simpl_run.
- destruct (adb_run_pull _ _ _ _ _) as [[]|[msg|msg]]; simpl_run;
    kind_leaf.
- destruct (os_makedirs _ _ _) as [[]|[msg|msg]]; simpl_run;
    [|kind_leaf..].
  destruct (adb_run_pull _ _ _ _ _) as [[]|[msg|msg]]; simpl_run;
    kind_leaf.
Qed.

Lemma process_file_local_kind src_mode mode media_root dest_root start_dt
  end_dt root name s :
String.eqb src_mode "adb" = false →
∃ delta,
  timeline (exec (process_file_local w media_root dest_root start_dt end_dt
                    mode root name) s) = timeline s ++ delta ∧
  Forall (λ a, foreign_transfer src_mode mode a = false) delta.
Proof.
intros Hsrc. unfold process_file_local. unfold_monad.
destruct (os_getmtime _ _ _) as [m|[msg|msg]]; simpl_run;
  [|kind_leaf..].
destruct (in_range start_dt end_dt m); simpl_run; [|kind_leaf].
match goal with |- context [CUniqueDst ?p ?d] =>
  generalize d; intros dst end.
destruct (bool_decide _); simpl_run.
- destruct (String.eqb mode "copy") eqn:Hmode; simpl_run.
  + destruct (shutil_copy2 _ _ _ _) as [[]|[msg|msg]]; simpl_run;
      kind_leaf.
  + destruct (shutil_move _ _ _ _) as [[]|[msg|msg]]; simpl_run;
      kind_leaf.
- destruct (os_makedirs _ _ _) as [[]|[msg|msg]]; simpl_run;
    [|kind_leaf..].
  destruct (String.eqb mode "copy") eqn:Hmode; simpl_run.
  + destruct (shutil_copy2 _ _ _ _) as [[]|[msg|msg]]; simpl_run;
      kind_leaf.
  + destruct (shutil_move _ _ _ _) as [[]|[msg|msg]]; simpl_run;
      kind_leaf.
Qed.

Lemma one_kind_outer_call src_mode mode c s :
outer_call c = true → one_kind src_mode mode s →
one_kind src_mode mode (tick (record (ACall c) s)).
Proof.
intros Hc Hs. eapply (one_kind_extend _ _ _ _ [_]); [done|done|].
constructor; [|done]. by destruct c.
Qed.

Lemma one_kind_put src_mode mode e s :
one_kind src_mode mode s → one_kind src_mode mode (record (APut e) s).
Proof.
intros Hs. eapply (one_kind_extend _ _ _ _ [_]); [done|done|].
by constructor.
Qed.

Lemma one_kind_count_error src_mode mode msg :
preserves (one_kind src_mode mode) (count_error msg).
Proof.
intros s Hs. unfold exec, count_error. simpl.
do 2 apply one_kind_put. done.
Qed.

(** X17: the transfer calls of a run are all of one kind, the kind of
  its source type and mode: a device run only calls [adb pull]; a
  folder run in copy mode only calls [shutil.copy2], so it never moves
  a file away from the source; a folder run in any other mode only
  calls [shutil.move]. *)
Theorem transfers_are_of_one_kind (src_mode src_value dest_root : string)
  (start_dt end_dt : datetime) (subfolders : list string) (mode : string)
  (t0 : nat) :
let s' := exec (_worker_dispatch w src_mode src_value dest_root start_dt
                  end_dt subfolders mode) (mk_state 0 0 0 [] t0) in
∀ a, a ∈ timeline s' →
  match a with
  | ACall (CAdbRunPull _ _ _) => src_mode = "adb"
  | ACall (CCopy2 _ _ _) => src_mode ≠ "adb" ∧ mode = "copy"
  | ACall (CMove _ _ _) => src_mode ≠ "adb" ∧ mode ≠ "copy"
  | _ => True
  end.
Proof.
intros s'.
assert (one_kind src_mode mode s') as Hkind.
{ subst s'. unfold _worker_dispatch.
  apply preserves_try_finally; [| |by constructor].
  - destruct (String.eqb src_mode "adb") eqn:Hsrc.
    + apply run_worker_adb.
      * intros c s. apply one_kind_outer_call.
      * intros e s _. apply one_kind_put.
      * apply one_kind_count_error.
      * intros device dest_root' start_dt' end_dt' root f s Hs.
        destruct (process_file_adb_kind src_mode mode device dest_root'
                    start_dt' end_dt' root f s Hsrc) as (delta & Htl & Hd).
        by eapply one_kind_extend.
    + apply run_worker_local.
      * intros c s. apply one_kind_outer_call.
      * intros e s _. apply one_kind_put.
      * apply one_kind_count_error.
      * intros media_root dest_root' start_dt' end_dt' root name s Hs.
        destruct (process_file_local_kind src_mode mode media_root
                    dest_root' start_dt' end_dt' root name s Hsrc)
          as (delta & Htl & Hd).
        by eapply one_kind_extend.
  - intros s. apply one_kind_put. }
intros a Ha. unfold one_kind in Hkind.
rewrite Forall_forall in Hkind. specialize (Hkind a Ha).
destruct a as [[]|?|?]; try done; simpl in Hkind.
- apply negb_false_iff in Hkind. by apply String.eqb_eq.
- apply orb_false_iff in Hkind as [Hsrc Hmode].
  apply negb_false_iff in Hmode.
  split; [by apply String.eqb_neq|by apply String.eqb_eq].
- apply orb_false_iff in Hkind as [Hsrc Hmode].
  split; by apply String.eqb_neq.
Qed.

End TransferKind.

(** ** Whole runs: the error counter *)

Lemma failures_snoc tl a :
  failures (tl ++ [a]) = failures tl + (if is_failure a then 1 else 0).
Proof. unfold failures. rewrite count_app. simpl. lia. Qed.

Lemma cf_ret {A} (a : A) : counts_failures (ret a).
Proof. intros s Hs. unfold errors_post, outcome, exec, ret. simpl. lia. Qed.

Lemma cf_bind {A B} (m : M A) (k : A → M B) :
  counts_failures m → (∀ a, counts_failures (k a)) →
  counts_failures (bind m k).
Proof.
  intros Hm Hk s Hs. specialize (Hm s Hs).
  rewrite outcome_bind, exec_bind.
  destruct (outcome m s) as [a|e]; [|done].
  apply Hk. unfold errors_post in Hm. lia.
Qed.

Lemma cf_try_except {A} (m : M A) (h : exc → M A) :
  counts_failures m → (∀ e, settles (h e)) →
  counts_failures (try_except m h).
Proof.
  intros Hm Hh s Hs. specialize (Hm s Hs).
  unfold outcome, exec, try_except in *.
  destruct (m s) as [[a|[msg|msg]] s']; simpl in *; [done| |done].
  by apply Hh.
Qed.

Lemma cf_put (e : UiEvent) : counts_failures (put e).
Proof.
  intros s Hs. unfold errors_post, outcome, exec, put. simpl.
  rewrite failures_snoc. simpl. lia.
Qed.

Lemma cf_ask {A} (q : nat → A) c :
  (∀ a, is_failure (ACall (c a)) = false) → counts_failures (ask q c).
Proof.
  intros Hc s Hs. unfold errors_post, outcome, exec, ask. simpl.
  rewrite failures_snoc, Hc. lia.
Qed.

Lemma cf_ask_r {A} (q : nat → result A) c :
  (∀ r, call_raised (c r)
        = match r with Raise e => Some e | Ok _ => None end) →
  counts_failures (ask_r q c).
Proof.
  intros Hc s Hs. unfold errors_post, outcome, exec, ask_r. simpl.
  rewrite failures_snoc. simpl. rewrite Hc.
  destruct (q (clock s)) as [a|[msg|msg]]; lia.
Qed.

Lemma settles_count_error (msg : string) : settles (count_error msg).
Proof.
  intros s Hs. unfold errors_post, outcome, exec, count_error. simpl.
  rewrite !failures_snoc. simpl. lia.
Qed.

Lemma settles_bind_ret {A} (h : M unit) (a : A) :
  settles h → (∀ s, outcome h s = Ok tt) → settles (h >> ret a).
Proof.
  intros Hh Hok s Hs. specialize (Hh s Hs). specialize (Hok s).
  rewrite outcome_bind, exec_bind, Hok. rewrite Hok in Hh. done.
Qed.

Lemma cf_file_summary {A} (m : M A) :
  (∀ s, ∃ r, file_summary s r (exec m s) ∧
             match outcome m s with
             | Raise (Exception _) => False
             | _ => True
             end) →
  counts_failures m.
Proof.
  intros Hm s Hs. destruct (Hm s) as (r & Hsum & Hout).
  destruct Hsum as (delta & Htl & _ & _ & _ & He & _).
  unfold errors_post, failures in *. rewrite Htl, !count_app. simpl.
  destruct (outcome m s) as [a|[msg|msg]]; [|done|]; lia.
Qed.

Ltac counts_step :=
  lazymatch goal with
  | |- counts_failures (ret _) => apply cf_ret
  | |- counts_failures (bind _ _) => apply cf_bind; [|intros ?]
  | |- counts_failures (try_except _ _) =>
      apply cf_try_except;
        [|intros ?;
          first [ apply settles_count_error
                | apply settles_bind_ret;
                    [apply settles_count_error|reflexivity] ]]
  | |- counts_failures (put _) => apply cf_put
  | |- counts_failures (ask _ _) => apply cf_ask; intros ?; reflexivity
  | |- counts_failures (ask_r _ _) =>
      apply cf_ask_r; intros [?|?]; reflexivity
  | |- counts_failures (if ?b then _ else _) => destruct b
  | |- counts_failures (match ?x with Some _ => _ | None => _ end) =>
      destruct x
  | |- counts_failures (match ?x with [] => _ | _ :: _ => _ end) =>
      destruct x
  | |- counts_failures (let '(_, _) := ?x in _) => destruct x
  end.

Ltac counts := repeat first [ counts_step | assumption ].

Section ErrorCounter.
Context `{PyRuntime} (w : World).

Lemma cf_process_file_adb device dest_root start_dt end_dt root f :
counts_failures
  (process_file_adb w device dest_root start_dt end_dt root f).
Proof.
apply cf_file_summary. intros s. eexists. split.
- apply process_file_adb_summary.
- pose proof (process_file_adb_summary w device dest_root start_dt end_dt
                root f s) as (delta & _ & _ & _ & _ & _ & _ & _ & _ & Hr).
  by destruct Hr as [->|[msg ->]].
Qed.

Lemma cf_process_file_local media_root dest_root start_dt end_dt mode
  root name :
counts_failures
  (process_file_local w media_root dest_root start_dt end_dt mode
     root name).
Proof.
apply cf_file_summary. intros s. eexists. split.
- apply process_file_local_summary.
- pose proof (process_file_local_summary w media_root dest_root start_dt
                end_dt mode root name s)
    as (delta & _ & _ & _ & _ & _ & _ & _ & _ & Hr).
  by destruct Hr as [->|[msg ->]].
Qed.

Lemma cf_announce total : counts_failures (announce_total total).
Proof. unfold announce_total. counts. Qed.

Lemma cf_files_loop_adb device dest_root start_dt end_dt root fs :
counts_failures
  (files_loop_adb w device dest_root start_dt end_dt root fs).
Proof.
induction fs as [|f fs IH]; simpl; unfold is_set; counts.
apply cf_process_file_adb.
Qed.

Lemma cf_subs_loop_adb device dest_root start_dt end_dt root subs :
counts_failures
  (subs_loop_adb w device dest_root start_dt end_dt root subs).
Proof.
induction subs as [|sub subs IH]; simpl;
  unfold is_set, adb_path_exists_io, adb_find_files_io; counts.
apply cf_files_loop_adb.
Qed.

Lemma cf_roots_loop_adb device dest_root start_dt end_dt subs roots :
counts_failures
  (roots_loop_adb w device dest_root start_dt end_dt subs roots).
Proof.
induction roots as [|root roots IH]; simpl; unfold is_set; counts.
apply cf_subs_loop_adb.
Qed.

Lemma cf_find_roots_loop device cands roots :
counts_failures (find_roots_loop w device cands roots).
Proof.
revert roots. induction cands as [|c cands IH]; intros roots; simpl;
  unfold adb_path_exists_io; counts. apply IH.
Qed.

Lemma cf_estimate_adb_subs device root subs total :
counts_failures (estimate_adb_subs w device root subs total).
Proof.
revert total. induction subs as [|sub subs IH]; intros total; simpl;
  unfold adb_path_exists_io, adb_count_files_io; counts; apply IH.
Qed.

Lemma cf_estimate_adb device roots subs total :
counts_failures (estimate_adb w device roots subs total).
Proof.
revert total. induction roots as [|root roots IH]; intros total; simpl;
  counts; [apply cf_estimate_adb_subs | apply IH].
Qed.

Lemma cf_worker_adb device dest_root start_dt end_dt subs :
counts_failures (_worker_adb w device dest_root start_dt end_dt subs).
Proof.
unfold _worker_adb, adb_find_whatsapp_media_roots, is_set. counts;
  first [ apply cf_find_roots_loop | apply cf_estimate_adb
        | apply cf_announce | apply cf_roots_loop_adb ].
Qed.

Lemma cf_estimate_local_subs media_root subs total :
counts_failures (estimate_local_subs w media_root subs total).
Proof.
revert total. induction subs as [|sub subs IH]; intros total; simpl;
  unfold os_path_isdir; counts; apply IH.
Qed.

Lemma cf_files_loop_local media_root dest_root start_dt end_dt mode
  root files :
counts_failures
  (files_loop_local w media_root dest_root start_dt end_dt mode root files).
Proof.
induction files as [|f files IH]; simpl; unfold is_set; counts.
apply cf_process_file_local.
Qed.

Lemma cf_walk_loop_local media_root dest_root start_dt end_dt mode walked :
counts_failures
  (walk_loop_local w media_root dest_root start_dt end_dt mode walked).
Proof.
induction walked as [|[root files] walked IH]; simpl; unfold is_set;
  counts.
apply cf_files_loop_local.
Qed.

Lemma cf_subs_loop_local media_root dest_root start_dt end_dt mode subs :
counts_failures
  (subs_loop_local w media_root dest_root start_dt end_dt mode subs).
Proof.
induction subs as [|sub subs IH]; simpl;
  unfold is_set, os_path_isdir; counts.
apply cf_walk_loop_local.
Qed.

Lemma cf_worker_local source_root dest_root start_dt end_dt subs mode :
counts_failures
  (_worker_local w source_root dest_root start_dt end_dt subs mode).
Proof.
unfold _worker_local, detect_media_root, _estimate_total_files_local,
  os_path_isdir, is_set.
counts; first [ apply cf_estimate_local_subs | apply cf_announce
              | apply cf_subs_loop_local ].
Qed.

Lemma fatal_handler_catches (m : M unit) (msg_of : exc → string) s :
match outcome (try_except m (λ e, count_error (msg_of e))) s with
| Raise (Exception _) => False
| _ => True
end.
Proof.
unfold outcome, try_except. by destruct (m s) as [[a|[msg|msg]] s'].
Qed.

(** X18: at the end of every run of [_worker_dispatch] that
  [_on_start] starts (counters at 0), remote or local, completed,
  cancelled or broken off, the error counter is the number of calls of
  the run that raised an [Exception]: each such failure is counted
  once, whether it ends one file, one folder or the whole run, and
  nothing else is counted. *)
Theorem errors_counts_failed_calls (src_mode src_value dest_root : string)
  (start_dt end_dt : datetime) (subfolders : list string) (mode : string)
  (t0 : nat) :
let s' := exec (_worker_dispatch w src_mode src_value dest_root start_dt
                  end_dt subfolders mode) (mk_state 0 0 0 [] t0) in
errors s' = failures (timeline s').
Proof.
intros s'. subst s'. unfold _worker_dispatch, exec, try_finally.
set (s0 := mk_state 0 0 0 [] t0).
destruct (String.eqb src_mode "adb").
- pose proof (cf_worker_adb src_value dest_root start_dt end_dt
                subfolders s0 eq_refl) as Hpost.
  pose proof fatal_handler_catches as Hcaught.
  unfold _worker_adb in *.
  match type of Hpost with
  | errors_post (outcome (try_except ?m ?h) _) _ =>
      specialize (Hcaught m (λ e, "FATAL (ADB mode): " +:+ exc_str e) s0)
  end.
  unfold errors_post, outcome, exec in *.
  destruct (try_except _ _ s0) as [[a|[msg|msg]] s1]; simpl in *;
    [|done|]; rewrite failures_snoc; simpl; lia.
- pose proof (cf_worker_local src_value dest_root start_dt end_dt
                subfolders mode s0 eq_refl) as Hpost.
  pose proof fatal_handler_catches as Hcaught.
  unfold _worker_local in *.
  match type of Hpost with
  | errors_post (outcome (try_except ?m ?h) _) _ =>
      specialize (Hcaught m (λ e, "FATAL (Local mode): " +:+ exc_str e) s0)
  end.
  unfold errors_post, outcome, exec in *.
  destruct (try_except _ _ s0) as [[a|[msg|msg]] s1]; simpl in *;
    [|done|]; rewrite failures_snoc; simpl; lia.
Qed.

End ErrorCounter.

(** ** The estimate of the device worker *)

Lemma sum_of_counts_app l1 l2 :
  sum_of_counts (l1 ++ l2) = (sum_of_counts l1 + sum_of_counts l2)%Z.
Proof.
  unfold sum_of_counts. induction l1 as [|a l1 IH]; simpl; [done|].
  destruct a as [[]|?|?]; try done. destruct r; [lia|done].
Qed.

Lemma estimate_post_step total0 total1 d1 d2 r :
  estimate_post total0 d1 (Ok total1) → estimate_post total1 d2 r →
  estimate_post total0 (d1 ++ d2) r.
Proof.
  intros (Hf1 & -> & Hd1) (Hf2 & Hr). split; [by apply Forall_app|].
  destruct r as [total|e].
  - destruct Hr as [-> Hd2]. rewrite sum_of_counts_app. split; [lia|].
    unfold counted_dirs, found_dirs in *. by rewrite !omap_app, Hd1, Hd2.
  - destruct Hr as (front & c & -> & Hc). exists (d1 ++ front), c.
    by rewrite app_assoc.
Qed.

Section DeviceEstimate.
Context `{PyRuntime} (w : World).

Lemma estimate_adb_subs_post device root subs total0 s :
let m := estimate_adb_subs w device root subs total0 in
∃ delta, timeline (exec m s) = timeline s ++ delta ∧
         estimate_post total0 delta (outcome m s).
Proof.
revert total0 s. induction subs as [|sub subs IH]; intros total0 s.
- exists []. simpl. rewrite app_nil_r. split; [done|].
  split; [done|]. unfold sum_of_counts. simpl. split; [lia|done].
- cbn [estimate_adb_subs]. unfold adb_path_exists_io, adb_count_files_io.
  unfold_monad.
  destruct (adb_path_exists w (clock s) device _) as [[|]|e] eqn:Hex;
    simpl_run.
  + destruct (adb_count_files w (S (clock s)) device _) as [n|e] eqn:Hn;
      simpl_run.
    * match goal with |- context [estimate_adb_subs _ _ _ _ ?t ?s1] =>
        destruct (IH t s1) as (delta & Htl & Hpost) end.
      unfold exec, outcome in *. simpl in *.
      eexists ([_; _] ++ delta). rewrite Htl. simpl_run.
      split; [done|].
      eapply (estimate_post_step total0 _ [_; _]); [|exact Hpost].
      split; [by repeat constructor|]. unfold sum_of_counts. simpl.
      split; [lia|done].
    * exists [ACall (CAdbPathExists (root +:+ "/" +:+ sub) (Ok true));
              ACall (CAdbCountFiles (root +:+ "/" +:+ sub) (Raise e))].
      split; [done|]. split; [by repeat constructor|].
      by eexists [_], _.
  + match goal with |- context [estimate_adb_subs _ _ _ _ ?t ?s1] =>
      destruct (IH t s1) as (delta & Htl & Hpost) end.
    unfold exec, outcome in *. simpl in *.
    eexists ([_] ++ delta). rewrite Htl. simpl_run.
    split; [done|].
    eapply (estimate_post_step total0 _ [_]); [|exact Hpost].
    split; [by repeat constructor|]. unfold sum_of_counts. simpl.
    split; [lia|done].
  + exists [ACall (CAdbPathExists (root +:+ "/" +:+ sub) (Raise e))].
    split; [done|]. split; [by repeat constructor|].
    by eexists [], _.
Qed.

(** X19: the estimate of the device worker asks, for every media
  root and every subfolder in turn, whether the folder exists, and
  counts the files of exactly the folders that exist.  If no call
  raises, the estimate is the sum of the counts, without a cap; if a
  call raises, the estimate ends with that call and raises its
  exception. *)
Theorem adb_estimate_sums_counts (device : string)
  (roots subfolders : list string) (total0 : Z) (s : AppState) :
let m := estimate_adb w device roots subfolders total0 in
∃ delta,
  timeline (exec m s) = timeline s ++ delta ∧
  Forall (λ a, match a with
               | ACall (CAdbPathExists _ _) | ACall (CAdbCountFiles _ _) =>
                   True
               | _ => False
               end) delta ∧
  match outcome m s with
  | Ok total =>
      total = (total0 + sum_of_counts delta)%Z ∧
      counted_dirs delta = found_dirs delta
  | Raise e =>
      ∃ front c, delta = front ++ [ACall c] ∧ call_raised c = Some e
  end.
Proof.
revert total0 s. induction roots as [|root roots IH]; intros total0 s.
- exists []. simpl. rewrite app_nil_r. split; [done|].
  split; [done|]. unfold sum_of_counts. simpl. split; [lia|done].
- cbn [estimate_adb]. cbv zeta.
  destruct (estimate_adb_subs_post device root subfolders total0 s)
    as (d1 & Htl1 & Hpost1).
  rewrite exec_bind, outcome_bind.
  destruct (outcome (estimate_adb_subs w device root subfolders total0) s)
    as [total1|e] eqn:Hout.
  + destruct (IH total1
                (exec (estimate_adb_subs w device root subfolders total0) s))
      as (d2 & Htl2 & Hpost2).
    exists (d1 ++ d2). rewrite Htl2, Htl1, app_assoc. split; [done|].
    by apply (estimate_post_step total0 total1).
  + exists d1. split; [done|]. exact Hpost1.
Qed.

End DeviceEstimate.

(** ** The source type and the mode *)

Section SourceType.
Context `{PyRuntime} (w : World).

Local Ltac literals := cbn [String.eqb Ascii.eqb Bool.eqb negb orb andb].

(** X20: take a form with the device source and move mode that
  [_validate_inputs] refuses for that reason alone.  Once
  [_apply_source_mode_visibility] has run on it, [_validate_inputs]
  returns the request in copy mode, with the device, the destination,
  the dates and the subfolders of the form. *)
Theorem visibility_turns_move_into_copy (f : Form) (s : AppState)
  (start_dt end_day : datetime) (sub : string) (subs : list string) :
var_source_mode f = "adb" → var_mode f = "move" →
strip (var_dest f) ≠ EmptyString →
outcome (ensure_dir w (strip (var_dest f))) s = Ok tt →
parse_yyyy_mm_dd (var_start f) = Ok start_dt →
parse_yyyy_mm_dd (var_end f) = Ok end_day →
dt_ltb (replace_end_of_day end_day) start_dt = false →
(filter (λ nv, nv.2 = true) (subfolder_vars f)).*1 = sub :: subs →
strip (var_device f) ≠ EmptyString →
outcome (_validate_inputs w f) s
= Raise (Exception
    "Move mode is not supported in USB Device (ADB) mode. Use Copy.") ∧
outcome (_validate_inputs w (_apply_source_mode_visibility f)) s
= Ok (mk_request "adb" (strip (var_device f)) (strip (var_dest f))
        start_dt (replace_end_of_day end_day) (sub :: subs) "copy").
Proof.
intros Hsrc Hmode Hdst Hdir Hstart Hend Hrange Hsubs Hdev. split.
- eapply adb_move_message; try done. by rewrite Hsrc.
- apply String.eqb_neq in Hdst, Hdev.
  unfold _apply_source_mode_visibility. rewrite Hsrc, Hmode. literals.
  revert Hdir. unfold _validate_inputs.
  cbn [var_source_mode var_dest var_start var_end var_mode var_device
       subfolder_vars].
  change (strip "adb") with "adb". unfold_validation.
  rewrite Hdst, Hstart, Hend, Hsubs. literals.
  destruct (bool_decide _); simpl_run.
  + intros _. by rewrite Hrange, Hdev.
  + destruct (os_makedirs _ _ _); simpl_run; [|done].
    intros _. by rewrite Hrange, Hdev.
Qed.

End SourceType.

(** ** The statements at concrete inputs *)

Lemma transfer_iff_in_range_witness :
  os_getmtime folder (clock init_state)
    (@path_join Posix.runtime "/src/Media/WhatsApp Images" "b.jpg")
  = Ok (noon 2025 10 1) ∧
  let src_file := @path_join Posix.runtime "/src/Media/WhatsApp Images" "b.jpg" in
  let s' := exec (@process_file_local Posix.runtime folder "/src/Media" "/dst"
                    start_day end_day "copy" "/src/Media/WhatsApp Images"
                    "b.jpg") init_state in
  let scan := [APut (EvScanned (S (scanned init_state)));
               APut (EvProgressTick 1);
               ACall (CGetMtime src_file (Ok (noon 2025 10 1)))] in
  if @in_range start_day end_day (noon 2025 10 1) then
    ∃ p dst attempt evs,
      timeline s' = timeline init_state ++ scan ++ [ACall (CUniqueDst p dst)]
                    ++ attempt ++ evs ∧
      transfer_attempt (@path_dirname Posix.runtime dst)
        (if String.eqb "copy" "copy" then CCopy2 src_file dst
         else CMove src_file dst) attempt ∧
      Forall (λ a, is_put a = true) evs
  else timeline s' = timeline init_state ++ scan ∧
       matched s' = matched init_state.
Proof.
  split; [reflexivity|].
  apply (proj2 (@transfer_iff_in_range Posix.runtime folder start_day end_day
                  (noon 2025 10 1) init_state)).
  reflexivity.
Defined.

Lemma unique_destination_path_spec_witness :
  let fs : gset string := {[ "/d/a.jpg" ]} in
  let fs' : gset string := {[ "/d/a.jpg"; "/d/a__dup1.jpg" ]} in
  fs ⊆ fs' ∧
  @unique_destination_path Posix.runtime fs "/d/a.jpg" ∈ fs' ∧
  @unique_destination_path Posix.runtime fs' "/d/a.jpg"
  ≠ @unique_destination_path Posix.runtime fs "/d/a.jpg" ∧
  (@unique_destination_path Posix.runtime fs' "/d/a.jpg" ∉ fs').
Proof.
  intros fs fs'.
  assert (fs ⊆ fs') as Hsub by (subst fs fs'; set_solver).
  assert (@unique_destination_path Posix.runtime fs "/d/a.jpg" ∈ fs') as Hnow.
  { replace (@unique_destination_path Posix.runtime fs "/d/a.jpg")
      with "/d/a__dup1.jpg" by (vm_compute; reflexivity).
    subst fs'. set_solver. }
  destruct (@unique_destination_path_spec Posix.runtime fs "/d/a.jpg")
    as (_ & _ & _ & i & _ & _ & Hnext).
  destruct (Hnext fs' Hsub Hnow) as (Hne & Hfree & _).
  exact (conj Hsub (conj Hnow (conj Hne Hfree))).
Defined.

Lemma cancellation_is_cooperative_witness :
  latched big_tree init_state ∧
  stops_at_once
    (@files_loop_local Posix.runtime big_tree "/src/Media" "/dst" start_day
       end_day "copy" "/src/Media/WhatsApp Images" ["a.jpg"; "b.jpg"])
    init_state.
Proof.
  split; [reflexivity|].
  destruct (@cancellation_is_cooperative Posix.runtime big_tree "local" "/src"
              "/dst" start_day end_day ["WhatsApp Images"] "copy")
    as (_ & _ & _ & _ & _ & Hstop).
  apply Hstop. reflexivity.
Defined.

Lemma per_item_failure_witness :
  latch_set phone (clock init_state) = false ∧
  adb_path_exists phone 1 "emulator-5554" phone_video = Ok true ∧
  adb_find_files phone 2 "emulator-5554" phone_video
  = Raise (Exception "find: permission denied") ∧
  ∃ s',
    @subs_loop_adb Posix.runtime phone "emulator-5554" "/dst" start_day end_day
      phone_root ["WhatsApp Video"; "WhatsApp Images"] init_state
    = @subs_loop_adb Posix.runtime phone "emulator-5554" "/dst" start_day
        end_day phone_root ["WhatsApp Images"] s' ∧
    errors s' = 1 ∧ matched s' = 0 ∧ scanned s' = 0.
Proof.
  split; [reflexivity|]. split; [reflexivity|]. split; [reflexivity|].
  destruct (@per_item_failure_counted_and_skipped Posix.runtime phone
              init_state eq_refl) as (_ & _ & Hlist & _).
  destruct (Hlist "emulator-5554" "/dst" start_day end_day phone_root
              "WhatsApp Video" ["WhatsApp Images"] "find: permission denied"
              eq_refl eq_refl) as (s' & Hrun & He & Hm & Hs & _).
  exists s'. exact (conj Hrun (conj He (conj Hm Hs))).
Defined.

Lemma move_mode_with_adb_is_refused_witness :
  strip (var_source_mode adb_move_form) = "adb" ∧
  var_mode adb_move_form = "move" ∧
  outcome (@_validate_inputs Posix.runtime phone adb_move_form) init_state
  = Raise (Exception
      "Move mode is not supported in USB Device (ADB) mode. Use Copy.").
Proof.
  split; [reflexivity|]. split; [reflexivity|].
  destruct (@move_mode_with_adb_is_refused Posix.runtime phone adb_move_form
              init_state eq_refl eq_refl) as (_ & _ & _ & Hmsg).
  eapply Hmsg; try reflexivity; discriminate.
Defined.


Lemma scanned_count_witness :
  let isdir := λ p,
    bool_decide (p ∈ ["/src"; "/src/Media"; "/src/Media/WhatsApp Images"]) in
  let tree := λ p,
    if String.eqb p "/src/Media/WhatsApp Images"
    then [(p, ["a.jpg"; "b.jpg"; "c.jpg"])] else [] in
  let run := @_worker_dispatch Posix.runtime folder "local" "/src" "/dst"
               start_day end_day ["WhatsApp Images"; "WhatsApp Video"]
               "copy" in
  cancel_at folder = None ∧
  folder_answers folder isdir tree ∧
  outcome run init_state = Ok tt ∧
  @files_in_folder Posix.runtime isdir tree "/src"
    ["WhatsApp Images"; "WhatsApp Video"] = 3 ∧
  scanned (exec run init_state) = 3.
Proof.
  intros isdir tree run.
  assert (folder_answers folder isdir tree) as Hanswers by (by split).
  assert (outcome run init_state = Ok tt) as Hok by (vm_compute; reflexivity).
  split; [reflexivity|]. split; [exact Hanswers|]. split; [exact Hok|].
  split; [vm_compute; reflexivity|].
  exact (eq_trans
           (@scanned_count_is_enumerated_count Posix.runtime folder eq_refl
              "local" "/src" "/dst" start_day end_day
              ["WhatsApp Images"; "WhatsApp Video"] "copy"
              (λ _, false) (λ _, Ok []) isdir tree init_state Hanswers Hok)
           (eq_refl 3)).
Defined.

Lemma validation_creates_destination_witness :
  (strip (var_source_mode bad_date_form) = "adb" ∨
   strip (var_source_mode bad_date_form) = "local") ∧
  strip (var_dest bad_date_form) ≠ EmptyString ∧
  (strip (var_dest bad_date_form) ∉ fs_paths fresh_destination 0) ∧
  os_makedirs fresh_destination 1 (strip (var_dest bad_date_form)) = Ok tt ∧
  outcome (@_validate_inputs Posix.runtime fresh_destination bad_date_form)
    init_state
  = Raise (Exception
      "time data '17.09.2025' does not match format '%Y-%m-%d'").
Proof.
  assert (strip (var_source_mode bad_date_form) = "adb" ∨
          strip (var_source_mode bad_date_form) = "local") as Hsrc
    by (right; reflexivity).
  assert (strip (var_dest bad_date_form) ≠ EmptyString) as Hdst
    by discriminate.
  assert (strip (var_dest bad_date_form) ∉ fs_paths fresh_destination 0)
    as Hfree by apply not_elem_of_empty.
  repeat (split; [done|]).
  destruct (@validation_creates_destination_first Posix.runtime
              fresh_destination bad_date_form init_state Hsrc Hdst)
    as (_ & Hrej).
  destruct (Hrej Hfree eq_refl) as (Hstart & _).
  apply Hstart. reflexivity.
Defined.


(** A folder whose [WhatsApp Images] cannot be listed is exported
    without an error being counted, put or logged; and on a phone that
    the bridge loses, the probe of the second subfolder fails and ends
    the run in the handler of [FATAL]: the third subfolder, which exists,
    is never listed. *)
Lemma silent_listing_failure_and_fatal_probe :
  (os_isdir locked_folder 0 "/src/Media/WhatsApp Images" = true ∧
   locked_scandir "/src/Media/WhatsApp Images" = None ∧
   let s' := exec (@_worker_dispatch Posix.runtime locked_folder "local"
                     "/src" "/dst" start_day end_day
                     ["WhatsApp Images"; "WhatsApp Video"] "copy")
               init_state in
   errors s' = 0 ∧
   ui_queue s'
   = [EvLog "Media root detected: /src/Media"; EvProgressSetup 1;
      EvLog "Estimated total files to scan: 1";
      EvScanned 1; EvProgressTick 1; EvMatched 1;
      EvLog "Exported: WhatsApp Video/v.mp4  (modified: 2025-10-01 12:00:00)";
      EvLog "Export complete (Local Folder mode)."; EvDone]) ∧
  (adb_path_exists unplugged_phone 19 "emulator-5554" phone_video
   = Raise (Exception "adb: device offline") ∧
   plugged_present phone_documents = true ∧
   let s' := exec (@_worker_dispatch Posix.runtime unplugged_phone "adb"
                     "emulator-5554" "/dst" start_day end_day
                     ["WhatsApp Images"; "WhatsApp Video";
                      "WhatsApp Documents"] "copy") init_state in
   errors s' = 1 ∧
   omap (λ c, match c with
              | CAdbFindFiles remote_dir _ => Some remote_dir
              | _ => None
              end) (calls s') = [phone_images] ∧
   ui_queue s'
   = [EvLog "Using WhatsApp Media root(s): /storage/emulated/0/Android/media/com.whatsapp/WhatsApp/Media";
      EvProgressSetup 3; EvLog "Estimated total files to scan: 3";
      EvScanned 1; EvProgressTick 1; EvMatched 1;
      EvLog "Exported: WhatsApp Images/1.jpg  (modified: 2025-10-01 12:00:00)";
      EvErrors 1; EvLog "FATAL (ADB mode): adb: device offline"; EvDone]).
Proof.
  split.
  - split; [vm_compute; reflexivity|]. split; [reflexivity|].
    split; vm_compute; reflexivity.
  - split; [reflexivity|]. split; [vm_compute; reflexivity|].
    split; [|split]; vm_compute; reflexivity.
Qed.

(** On the phone that the bridge loses after the first subfolder, the
    run is not cancelled and returns; the three selected subfolders
    exist and hold one file each, the estimate announces 3, and 1 file
    is scanned. *)
Lemma failed_probe_leaves_files_unscanned :
  let subfolders :=
    ["WhatsApp Images"; "WhatsApp Video"; "WhatsApp Documents"] in
  let run := @_worker_dispatch Posix.runtime unplugged_phone "adb"
               "emulator-5554" "/dst" start_day end_day subfolders "copy" in
  cancel_at unplugged_phone = None ∧
  (∀ t p, t < 19 →
     adb_path_exists unplugged_phone t "emulator-5554" p
     = Ok (plugged_present p)) ∧
  (∀ t p, adb_find_files unplugged_phone t "emulator-5554" p
          = plugged_listing p) ∧
  files_on_device plugged_present plugged_listing subfolders = 3 ∧
  outcome run init_state = Ok tt ∧
  EvProgressSetup 3 ∈ ui_queue (exec run init_state) ∧
  scanned (exec run init_state) = 1.
Proof.
  intros subfolders run.
  split; [reflexivity|]. split.
  { intros t p Ht. unfold unplugged_phone. cbn [adb_path_exists].
    destruct (decide (19 ≤ t)); [lia|reflexivity]. }
  split; [reflexivity|]. split; [vm_compute; reflexivity|].
  split; [vm_compute; reflexivity|]. split; [|vm_compute; reflexivity].
  replace (ui_queue (exec run init_state)) with
    [EvLog "Using WhatsApp Media root(s): /storage/emulated/0/Android/media/com.whatsapp/WhatsApp/Media";
     EvProgressSetup 3; EvLog "Estimated total files to scan: 3";
     EvScanned 1; EvProgressTick 1; EvMatched 1;
     EvLog "Exported: WhatsApp Images/1.jpg  (modified: 2025-10-01 12:00:00)";
     EvErrors 1; EvLog "FATAL (ADB mode): adb: device offline"; EvDone]
    by (vm_compute; reflexivity).
  apply list_elem_of_further, list_elem_of_here.
Qed.

(** ** The further statements at concrete inputs *)

Import Samples.

Lemma adb_list_devices_serials_witness :
  Adb.adb_list_devices (prints two_devices) "adb" = Ok ["emulator-5554"] ∧
  ∃ p, prints two_devices ["adb"; "devices"] = Ok p ∧ returncode p = 0%Z ∧
    (∀ serial, serial ∈ ["emulator-5554"] ↔
       ∃ line rest, line ∈ drop 1 (splitlines (strip (stdout p))) ∧
                    split (strip line) = serial :: "device" :: rest) ∧
    (∀ serial, serial ∈ ["emulator-5554"] →
               serial ≠ EmptyString ∧ strip serial = serial).
Proof.
  split; [vm_compute; reflexivity|].
  apply (adb_list_devices_serials (prints two_devices) "adb"
           ["emulator-5554"]).
  vm_compute. reflexivity.
Defined.

Lemma adb_find_files_paths_witness :
  Adb.adb_find_files (prints found_files) "adb" "emulator-5554"
    "/sdcard/WhatsApp/Media/WhatsApp Images"
  = Ok ["/sdcard/WhatsApp/Media/WhatsApp Images/IMG-1.jpg";
        "/sdcard/WhatsApp/Media/WhatsApp Images/IMG-2.jpg"] ∧
  ∃ out,
    Adb.adb_shell_sh (prints found_files) "adb" "emulator-5554"
      ("find "
       +:+ Adb.quoted (replace_dquote "/sdcard/WhatsApp/Media/WhatsApp Images")
       +:+ " -type f 2>/dev/null") = Ok out ∧
    (∀ f, f ∈ ["/sdcard/WhatsApp/Media/WhatsApp Images/IMG-1.jpg";
               "/sdcard/WhatsApp/Media/WhatsApp Images/IMG-2.jpg"] ↔
          f ≠ EmptyString ∧ ∃ line, line ∈ splitlines out ∧ f = strip line) ∧
    (∀ f, f ∈ ["/sdcard/WhatsApp/Media/WhatsApp Images/IMG-1.jpg";
               "/sdcard/WhatsApp/Media/WhatsApp Images/IMG-2.jpg"] →
          strip f = f) ∧
    length ["/sdcard/WhatsApp/Media/WhatsApp Images/IMG-1.jpg";
            "/sdcard/WhatsApp/Media/WhatsApp Images/IMG-2.jpg"]
    ≤ length (splitlines out).
Proof.
  split; [vm_compute; reflexivity|].
  apply (adb_find_files_paths (prints found_files) "adb" "emulator-5554"
           "/sdcard/WhatsApp/Media/WhatsApp Images").
  vm_compute. reflexivity.
Defined.

Lemma adb_count_files_reads_count_witness :
  Adb.adb_shell_sh (prints ("  12" +:+ nl)) "adb" "emulator-5554"
    ("find " +:+ Adb.quoted (replace_dquote "/sdcard/DCIM")
     +:+ " -type f 2>/dev/null | wc -l") = Ok ("  12" +:+ nl) ∧
  strip ("  12" +:+ nl) = pretty 12%N ∧
  Adb.adb_count_files (prints ("  12" +:+ nl)) default_max_str_digits "adb"
    "emulator-5554" "/sdcard/DCIM" = Ok 12%Z.
Proof.
  split; [vm_compute; reflexivity|]. split; [vm_compute; reflexivity|].
  destruct (adb_count_files_reads_count (prints ("  12" +:+ nl))
              default_max_str_digits "adb" "emulator-5554" "/sdcard/DCIM"
              ("  12" +:+ nl))
    as (_ & Hread & _); [vm_compute; reflexivity|].
  apply (Hread 12%N). vm_compute. reflexivity.
Defined.

Lemma adb_stat_mtime_epoch_reads_epoch_witness :
  Adb.adb_shell_sh (prints ("1759312800" +:+ nl)) "adb" "emulator-5554"
    ("toybox stat -c %Y " +:+ Adb.quoted (replace_dquote "/sdcard/a.jpg")
     +:+ " 2>/dev/null || stat -c %Y "
     +:+ Adb.quoted (replace_dquote "/sdcard/a.jpg"))
  = Ok ("1759312800" +:+ nl) ∧
  strip ("1759312800" +:+ nl) = pretty 1759312800%N ∧
  Adb.adb_stat_mtime_epoch (prints ("1759312800" +:+ nl))
    default_max_str_digits invalid_literal "adb" "emulator-5554"
    "/sdcard/a.jpg" = Ok 1759312800%Z.
Proof.
  split; [vm_compute; reflexivity|]. split; [vm_compute; reflexivity|].
  destruct (adb_stat_mtime_epoch_reads_epoch (prints ("1759312800" +:+ nl))
              default_max_str_digits invalid_literal "adb" "emulator-5554"
              "/sdcard/a.jpg" ("1759312800" +:+ nl))
    as (Hread & _); [vm_compute; reflexivity|].
  apply (Hread 1759312800%N). vm_compute. reflexivity.
Defined.

Lemma adb_path_exists_reads_status_witness :
  Adb.adb_shell_sh (prints ("2" +:+ nl)) "adb" "emulator-5554"
    ("ls " +:+ Adb.quoted (replace_dquote "/sdcard/none")
     +:+ " >/dev/null 2>&1; echo $?") = Ok ("2" +:+ nl) ∧
  strip ("2" +:+ nl) = pretty 2%N ∧
  Adb.adb_path_exists (prints ("2" +:+ nl)) "adb" "emulator-5554"
    "/sdcard/none" = Ok (bool_decide (2 `mod` 10 = 0)%N).
Proof.
  split; [vm_compute; reflexivity|]. split; [vm_compute; reflexivity|].
  apply (adb_path_exists_reads_status (prints ("2" +:+ nl)) "adb"
           "emulator-5554" "/sdcard/none" ("2" +:+ nl) 2%N);
    vm_compute; reflexivity.
Defined.

Lemma refresh_devices_selection_witness :
  let run := Window._refresh_devices clock_text "adb" (prints two_devices)
               Window.built in
  run.1 = Ok tt ∧
  ((Window.var_device run.2 = EmptyString ∧ Window.cmb_device run.2 = [])
   ∨ (Window.var_device run.2 ∈ Window.cmb_device run.2 ∧
      Window.var_device run.2 ≠ EmptyString ∧
      strip (Window.var_device run.2) = Window.var_device run.2)) ∧
  (Window.var_device Window.built ∈ Window.cmb_device run.2 →
   Window.var_device run.2 = Window.var_device Window.built) ∧
  Window.logged run.2 = S (Window.logged Window.built).
Proof.
  intros run. split; [vm_compute; reflexivity|].
  apply (refresh_devices_selection clock_text "adb" (prints two_devices)
           Window.built).
  vm_compute. reflexivity.
Defined.


Lemma range_is_whole_days_witness :
  midnight start_day ∧ midnight start_of_end_day ∧
  (dt_ltb (replace_end_of_day start_of_end_day) start_day = false
   ↔ dt_leb start_day start_of_end_day = true) ∧
  (∀ m, same_day m start_of_end_day → time_of_day_valid m →
     dt_leb m (replace_end_of_day start_of_end_day) = true
     ↔ ¬ (hour m = 23 ∧ minute m = 59 ∧ second m = 59
          ∧ 0 < microsecond m)%Z).
Proof.
  assert (midnight start_day) as Ha by (repeat split).
  assert (midnight start_of_end_day) as Hb by (repeat split).
  exact (conj Ha (conj Hb (range_is_whole_days start_day start_of_end_day
                             Ha Hb))).
Defined.

Lemma validated_request_witness :
  let req := mk_request "local" "/src" "/dst" start_day end_day
               DEFAULT_SUBFOLDERS "copy" in
  outcome (@_validate_inputs Posix.runtime folder local_copy_form) init_state
  = Ok req ∧
  req_dst req = strip (var_dest local_copy_form) ∧
  req_dst req ≠ EmptyString ∧
  @parse_yyyy_mm_dd Posix.runtime (var_start local_copy_form)
  = Ok (req_start_dt req) ∧
  (∃ end_day',
     @parse_yyyy_mm_dd Posix.runtime (var_end local_copy_form) = Ok end_day' ∧
     req_end_dt req = replace_end_of_day end_day') ∧
  dt_leb (req_start_dt req) (req_end_dt req) = true ∧
  req_subfolders req ≠ [] ∧
  (∀ name, name ∈ req_subfolders req
           ↔ (name, true) ∈ subfolder_vars local_copy_form) ∧
  ((req_src_mode req = "adb" ∧ req_mode req = "copy" ∧
    req_src_value req = strip (var_device local_copy_form) ∧
    req_src_value req ≠ EmptyString)
   ∨ (req_src_mode req = "local" ∧ req_mode req = var_mode local_copy_form ∧
      (req_mode req = "copy" ∨ req_mode req = "move") ∧
      req_src_value req = strip (var_source_folder local_copy_form) ∧
      req_src_value req ≠ EmptyString)).
Proof.
  intros req. split; [vm_compute; reflexivity|].
  apply (@validated_request Posix.runtime folder local_copy_form init_state
           req).
  vm_compute. reflexivity.
Defined.

Lemma start_refused_without_side_effects_witness :
  outcome (@_validate_inputs Posix.runtime folder bad_date_form) init_state
  = Raise (Exception
      "time data '17.09.2025' does not match format '%Y-%m-%d'") ∧
  let s' := exec (@_on_start Posix.runtime folder bad_date_form) init_state in
  outcome (@_on_start Posix.runtime folder bad_date_form) init_state = Ok tt ∧
  timeline s'
  = timeline (exec (@_validate_inputs Posix.runtime folder bad_date_form)
                init_state)
    ++ [AUi (UiShowError
          "time data '17.09.2025' does not match format '%Y-%m-%d'")] ∧
  (∃ delta, timeline s' = timeline init_state ++ delta ∧
            Forall (λ a, validation_action a = true) delta) ∧
  scanned s' = scanned init_state ∧ matched s' = matched init_state ∧
  errors s' = errors init_state ∧
  ui_queue s' = ui_queue init_state.
Proof.
  split; [vm_compute; reflexivity|].
  apply (@start_refused_without_side_effects Posix.runtime folder
           bad_date_form init_state).
  vm_compute. reflexivity.
Defined.

Lemma no_media_root_found_witness :
  (∀ t c, c ∈ media_root_candidates →
          adb_path_exists quiet t "emulator-5554" c = Ok false) ∧
  let run := @_worker_dispatch Posix.runtime quiet "adb" "emulator-5554"
               "/dst" start_day end_day DEFAULT_SUBFOLDERS "copy" in
  outcome run init_state = Ok tt ∧
  timeline (exec run init_state)
  = timeline init_state
    ++ ((λ c, ACall (CAdbPathExists c (Ok false))) <$> media_root_candidates)
    ++ [APut (EvLog "ERROR: Could not find WhatsApp Media folder on the device.");
        APut (EvLog "Tried: /storage/emulated/0/Android/media/com.whatsapp/WhatsApp/Media and /storage/emulated/0/WhatsApp/Media");
        APut EvDone] ∧
  scanned (exec run init_state) = scanned init_state ∧
  matched (exec run init_state) = matched init_state ∧
  errors (exec run init_state) = errors init_state.
Proof.
  assert (∀ t c, c ∈ media_root_candidates →
                 adb_path_exists quiet t "emulator-5554" c = Ok false) as Hno
    by (intros; reflexivity).
  exact (conj Hno
           (@no_media_root_found Posix.runtime quiet "emulator-5554" "/dst"
              start_day end_day DEFAULT_SUBFOLDERS "copy" init_state Hno)).
Defined.

Lemma adb_destination_keeps_relative_path_witness :
  adb_stat_mtime phone (clock init_state) "emulator-5554"
    (phone_images +:+ "/IMG-1.jpg") = Ok (noon 2025 10 1) ∧
  in_range start_day end_day (noon 2025 10 1) = true ∧
  let prefix := rstrip_char "/" phone_root +:+ "/" in
  let s' := exec (@process_file_adb Posix.runtime phone "emulator-5554" "/dst"
                    start_day end_day phone_root
                    (phone_images +:+ "/IMG-1.jpg")) init_state in
  ∃ rel_path dst rest,
    timeline s'
    = timeline init_state
      ++ [APut (EvScanned (S (scanned init_state))); APut (EvProgressTick 1);
          ACall (CAdbStatMtime (phone_images +:+ "/IMG-1.jpg")
                   (Ok (noon 2025 10 1)));
          ACall (CUniqueDst (@path_join Posix.runtime "/dst" rel_path) dst)]
      ++ rest ∧
    (∀ rel, phone_images +:+ "/IMG-1.jpg" = prefix +:+ rel → rel_path = rel) ∧
    (startswith prefix (phone_images +:+ "/IMG-1.jpg") = false →
     rel_path = @path_basename Posix.runtime (phone_images +:+ "/IMG-1.jpg")).
Proof.
  split; [vm_compute; reflexivity|]. split; [vm_compute; reflexivity|].
  apply (@adb_destination_keeps_relative_path Posix.runtime phone
           "emulator-5554" "/dst" start_day end_day phone_root
           (phone_images +:+ "/IMG-1.jpg") (noon 2025 10 1) init_state);
    vm_compute; reflexivity.
Defined.

Lemma transfers_write_checked_paths_witness :
  let s' := exec (@_worker_dispatch Posix.runtime folder "local" "/src" "/dst"
                    start_day end_day ["WhatsApp Images"] "copy")
              (mk_state 0 0 0 [] 0) in
  let copy := ACall (CCopy2 "/src/Media/WhatsApp Images/b.jpg"
                       "/dst/WhatsApp Images/b.jpg" (Ok tt)) in
  timeline s' = take 21 (timeline s') ++ copy :: drop 22 (timeline s') ∧
  transfer_target copy = Some "/dst/WhatsApp Images/b.jpg" ∧
  ∃ pre' p mid,
    take 21 (timeline s')
    = pre' ++ ACall (CUniqueDst p "/dst/WhatsApp Images/b.jpg") :: mid ∧
    "/dst/WhatsApp Images/b.jpg"
    = @unique_destination_path Posix.runtime
        (fs_paths folder (0 + clock_after pre')) p ∧
    ("/dst/WhatsApp Images/b.jpg" ∉ fs_paths folder (0 + clock_after pre')) ∧
    length mid ≤ 2.
Proof.
  intros s' copy.
  assert (timeline s' = take 21 (timeline s') ++ copy :: drop 22 (timeline s'))
    as Hsplit by (vm_compute; reflexivity).
  split; [exact Hsplit|]. split; [reflexivity|].
  exact (@transfers_write_checked_paths Posix.runtime folder "local" "/src"
           "/dst" start_day end_day ["WhatsApp Images"] "copy" 0
           (take 21 (timeline s')) copy (drop 22 (timeline s'))
           "/dst/WhatsApp Images/b.jpg" Hsplit eq_refl).
Defined.

Lemma visibility_turns_move_into_copy_witness :
  var_source_mode adb_move_form = "adb" ∧ var_mode adb_move_form = "move" ∧
  outcome (@ensure_dir phone (strip (var_dest adb_move_form))) init_state
  = Ok tt ∧
  outcome (@_validate_inputs Posix.runtime phone adb_move_form) init_state
  = Raise (Exception
      "Move mode is not supported in USB Device (ADB) mode. Use Copy.") ∧
  outcome (@_validate_inputs Posix.runtime phone
             (_apply_source_mode_visibility adb_move_form)) init_state
  = Ok (mk_request "adb" (strip (var_device adb_move_form))
          (strip (var_dest adb_move_form)) start_day
          (replace_end_of_day start_of_end_day) DEFAULT_SUBFOLDERS "copy").
Proof.
  split; [reflexivity|]. split; [reflexivity|].
  split; [vm_compute; reflexivity|].
  apply (@visibility_turns_move_into_copy Posix.runtime phone adb_move_form
           init_state start_day start_of_end_day "WhatsApp Images"
           (tail DEFAULT_SUBFOLDERS));
    try (vm_compute; reflexivity); discriminate.
Defined.

Lemma transfers_are_of_one_kind_witness :
  let s' := exec (@_worker_dispatch Posix.runtime folder "local" "/src" "/dst"
                    start_day end_day ["WhatsApp Images"] "copy")
              (mk_state 0 0 0 [] 0) in
  ACall (CCopy2 "/src/Media/WhatsApp Images/b.jpg"
           "/dst/WhatsApp Images/b.jpg" (Ok tt)) ∈ timeline s' ∧
  "local" ≠ "adb" ∧ "copy" = "copy".
Proof.
  intros s'.
  assert (ACall (CCopy2 "/src/Media/WhatsApp Images/b.jpg"
                   "/dst/WhatsApp Images/b.jpg" (Ok tt)) ∈ timeline s')
    as Hin.
  { apply (list_elem_of_lookup_2 _ 21). vm_compute. reflexivity. }
  split; [exact Hin|].
  exact (@transfers_are_of_one_kind Posix.runtime folder "local" "/src" "/dst"
           start_day end_day ["WhatsApp Images"] "copy" 0 _ Hin).
Defined.
